(** * Laboratorio 8 API: products service

    A shallow embedding of the Express application of this repository
    (the three revisions of [index.js], [APIKeyGenerator], [JWTGenerator],
    [ErrorWeb]) together with the part of JavaScript its handlers rely on:
    JSON values, truthiness, [Number], [parseInt], strict equality,
    [Math.max] and [Array.prototype.slice]. *)

From Stdlib Require Import ZArith Ascii String.
From Stdlib Require Import Floats.SpecFloat.
From stdpp Require Import base option list strings pretty gmap.

Local Open Scope string_scope.
Local Open Scope list_scope.
Local Open Scope Z_scope.

(** ** JavaScript numbers: IEEE 754 binary64 *)

Module JS.

Definition number := spec_float.

Definition prec : Z := 53.
Definition emax : Z := 1024.

Definition NaN : number := S754_nan.
Definition pos_zero : number := S754_zero false.

(** The Number value for a mathematical integer (round to nearest, ties to
    even). *)
Definition of_Z (z : Z) : number := binary_normalize prec emax z 0 false.

(** The Number value for the ratio [n / d] of two positive integers. The
    quotient is computed with more than [prec + 2] bits and a sticky last
    bit, so the final rounding is the rounding of the exact ratio. *)
Definition of_ratio (neg : bool) (n d : Z) : number :=
  let k := Z.max 0 (Z.log2 d - Z.log2 n + 64) in
  let q := Z.shiftl n k / d in
  let r := Z.shiftl n k mod d in
  let m := 2 * q + (if r =? 0 then 0 else 1) in
  binary_normalize prec emax (if neg then - m else m) (- (k + 1)) neg.

(** The Number value for [(-1)^neg * m * 10^e10], [m >= 0]. *)
Definition of_decimal (neg : bool) (m e10 : Z) : number :=
  if m =? 0 then S754_zero neg
  else if 0 <=? e10
       then binary_normalize prec emax
              (if neg then - (m * 10 ^ e10) else m * 10 ^ e10) 0 neg
       else of_ratio neg m (10 ^ (- e10)).

(** [x > y], [x >= y], [x + y], [x - y], [x * y] *)
Definition gt (x y : number) : bool := SFltb y x.
Definition ge (x y : number) : bool := SFleb y x.
Definition add (x y : number) : number := SFadd prec emax x y.
Definition sub (x y : number) : number := SFsub prec emax x y.
Definition mul (x y : number) : number := SFmul prec emax x y.

(** [Number.isInteger] *)
Definition isInteger (x : number) : bool :=
  match x with
  | S754_zero _ => true
  | S754_finite _ m e =>
      if 0 <=? e then true else Z.pos m mod 2 ^ (- e) =? 0
  | _ => false
  end.

(** [Math.max] of two arguments. *)
Definition Math_max (x y : number) : number :=
  match SFcompare x y with
  | None => NaN
  | Some Lt => y
  | Some Gt => x
  | Some Eq => match x with S754_zero true => y | _ => x end
  end.

(** Integers extended with the two infinities, the range of
    ToIntegerOrInfinity. *)
Inductive integer_or_infinity :=
| NegInfinity
| Finite (z : Z)
| PosInfinity.

Definition ToIntegerOrInfinity (x : number) : integer_or_infinity :=
  match x with
  | S754_nan => Finite 0
  | S754_zero _ => Finite 0
  | S754_infinity s => if s then NegInfinity else PosInfinity
  | S754_finite s m e =>
      let a := if 0 <=? e then Z.pos m * 2 ^ e else Z.pos m / 2 ^ (- e) in
      Finite (if s then - a else a)
  end.

(** [Array.prototype.slice(start, end)] on a list. *)
Definition relative_index (len : Z) (i : integer_or_infinity) : Z :=
  match i with
  | NegInfinity => 0
  | Finite z => if z <? 0 then Z.max (len + z) 0 else Z.min z len
  | PosInfinity => len
  end.

Definition slice {A} (l : list A) (start end_ : number) : list A :=
  let len := Z.of_nat (length l) in
  let k := relative_index len (ToIntegerOrInfinity start) in
  let final := relative_index len (ToIntegerOrInfinity end_) in
  take (Z.to_nat (final - k)) (drop (Z.to_nat k) l).

(** *** Strings to numbers

    Strings are sequences of bytes (UTF-8). *)

Definition char_code (a : ascii) : Z := Z.of_N (N_of_ascii a).

(** WhiteSpace and LineTerminator code points: TAB, LF, VT, FF, CR, SP,
    U+00A0, U+1680, U+2000..U+200A, U+2028, U+2029, U+202F, U+205F,
    U+3000 and U+FEFF. *)
Definition ascii_ws (a : ascii) : bool :=
  let c := char_code a in ((9 <=? c) && (c <=? 13)) || (c =? 32).

Definition ws3 (a b c : Z) : bool :=
  ((a =? 225) && (b =? 154) && (c =? 128))
  || ((a =? 226) && (b =? 128)
      && (((128 <=? c) && (c <=? 138)) || (c =? 168) || (c =? 169) || (c =? 175)))
  || ((a =? 226) && (b =? 129) && (c =? 159))
  || ((a =? 227) && (b =? 128) && (c =? 128))
  || ((a =? 239) && (b =? 187) && (c =? 191)).

Fixpoint skip_ws (s : string) : string :=
  match s with
  | EmptyString => s
  | String a r =>
      if ascii_ws a then skip_ws r
      else match r with
           | String b r1 =>
               if (char_code a =? 194) && (char_code b =? 160) then skip_ws r1
               else match r1 with
                    | String c r2 =>
                        if ws3 (char_code a) (char_code b) (char_code c) then skip_ws r2 else s
                    | EmptyString => s
                    end
           | EmptyString => s
           end
  end.

Definition is_empty (s : string) : bool :=
  match s with EmptyString => true | _ => false end.

Definition radix_digit (radix : Z) (a : ascii) : option Z :=
  let c := char_code a in
  let d := if (48 <=? c) && (c <=? 57) then c - 48
           else if (97 <=? c) && (c <=? 122) then c - 87
           else if (65 <=? c) && (c <=? 90) then c - 55
           else radix in
  if d <? radix then Some d else None.

(** Reads the longest prefix of digits: the value read, the number of
    digits, and the rest of the string. *)
Fixpoint read_digits (radix acc cnt : Z) (s : string) : Z * Z * string :=
  match s with
  | EmptyString => (acc, cnt, s)
  | String a r =>
      match radix_digit radix a with
      | Some d => read_digits radix (acc * radix + d) (cnt + 1) r
      | None => (acc, cnt, s)
      end
  end.

Definition read_sign (s : string) : bool * string :=
  match s with
  | String "-" r => (true, r)
  | String "+" r => (false, r)
  | _ => (false, s)
  end.

(** [parseInt(s, 10)] *)
Definition parseInt (s : string) : number :=
  let '(neg, r) := read_sign (skip_ws s) in
  let '(v, cnt, _) := read_digits 10 0 0 r in
  if cnt =? 0 then NaN
  else if v =? 0 then S754_zero neg
  else of_Z (if neg then - v else v).

(** A non-decimal integer literal [0x..], [0o..], [0b..] *)
Definition non_decimal (radix : Z) (r : string) : number :=
  let '(v, cnt, rest) := read_digits radix 0 0 r in
  if (0 <? cnt) && is_empty (skip_ws rest) then of_Z v else NaN.

(** The exponent part of a decimal literal: the exponent and the rest, or
    [None] when an exponent mark is followed by no digit. *)
Definition read_exponent (s : string) : option (Z * string) :=
  let signed r :=
    let '(neg, r1) := read_sign r in
    let '(v, cnt, rest) := read_digits 10 0 0 r1 in
    if cnt =? 0 then None else Some (if neg then - v else v, rest) in
  match s with
  | String "e" r => signed r
  | String "E" r => signed r
  | _ => Some (0, s)
  end.

(** [strip_prefix p s] is the rest of [s] after its prefix [p], when [s]
    starts with [p]. *)
Fixpoint strip_prefix (p s : string) : option string :=
  match p, s with
  | EmptyString, _ => Some s
  | String a p', String b s' =>
      if Ascii.eqb a b then strip_prefix p' s' else None
  | String _ _, EmptyString => None
  end.

Definition str_decimal (s : string) : number :=
  let '(neg, u) := read_sign s in
  match strip_prefix "Infinity" u with
  | Some rest => if is_empty (skip_ws rest) then S754_infinity neg else NaN
  | None =>
      let '(ip, ic, r1) := read_digits 10 0 0 u in
      let '(m, fc, r2) :=
        match r1 with
        | String "." r => read_digits 10 ip 0 r
        | _ => (ip, 0, r1)
        end in
      if ic + fc =? 0 then NaN
      else match read_exponent r2 with
           | Some (e, rest) =>
               if is_empty (skip_ws rest) then of_decimal neg m (e - fc) else NaN
           | None => NaN
           end
  end.

(** StringToNumber: the value of [Number(s)] for a string [s]. *)
Definition StringToNumber (s : string) : number :=
  match skip_ws s with
  | EmptyString => pos_zero
  | String "0" (String "x" r) | String "0" (String "X" r) => non_decimal 16 r
  | String "0" (String "o" r) | String "0" (String "O" r) => non_decimal 8 r
  | String "0" (String "b" r) | String "0" (String "B" r) => non_decimal 2 r
  | t => str_decimal t
  end.

(** *** Values

    JSON values as JavaScript sees them after [JSON.parse], with
    [undefined] for what is absent. *)

Unset Elimination Schemes.
Inductive value :=
| Undefined
| Null
| Bool (b : bool)
| Num (n : number)
| Str (s : string)
| Arr (l : list value)
| Obj (m : gmap string value).
Set Elimination Schemes.

Abbreviation object := (gmap string value).

(** Exceptions. [ErrorWeb] is the class of the repository; [Error] stands
    for every other error object (a [TypeError] of the language, an error
    of a library), which has no [statusCode] and no [details]. *)
Record ErrorWeb := new_ErrorWeb_full {
  message : string;
  statusCode : Z;
  details : value
}.

(** [new ErrorWeb(message, statusCode)]: [details] defaults to [{}]. *)
Definition new_ErrorWeb (message : string) (statusCode : Z) : ErrorWeb :=
  new_ErrorWeb_full message statusCode (Obj ∅).

Inductive exn :=
| Web (e : ErrorWeb)
| Error (name msg : string).

Definition TypeError : string -> exn := Error "TypeError".

Inductive completion (A : Type) :=
| Normal (a : A)
| Throw (e : exn).
Arguments Normal {A} a.
Arguments Throw {A} e.

#[global] Instance completion_ret : MRet completion := @Normal.
#[global] Instance completion_bind : MBind completion := fun A B k c =>
  match c with
  | Normal a => k a
  | Throw e => Throw e
  end.

(** ToBoolean *)
Definition ToBoolean (v : value) : bool :=
  match v with
  | Undefined | Null => false
  | Bool b => b
  | Num n => match n with S754_zero _ | S754_nan => false | _ => true end
  | Str s => negb (is_empty s)
  | Arr _ | Obj _ => true
  end.

(** [a || b] *)
Definition or_else (a b : value) : value := if ToBoolean a then a else b.

(** The own enumerable properties, what [{...v}] copies. *)
Definition own_props (v : value) : object :=
  match v with
  | Obj m => m
  | Arr l => list_to_map (imap (fun i x => (pretty i, x)) l)
  | Str s => list_to_map (imap (fun i a => (pretty i, Str (String a EmptyString)))
                            (list_ascii_of_string s))
  | _ => ∅
  end.

(** [{...a, ...b}] *)
Definition spread (a b : object) : object := b ∪ a.

(** [o.k] on an object: [undefined] when absent. The keys the program
    reads are data properties, never prototype methods. *)
Definition field (o : object) (k : string) : value := default Undefined (o !! k).

(** [v.k]: reading a property of [undefined] or [null] throws. *)
Definition Get (v : value) (k : string) : completion value :=
  match v with
  | Undefined =>
      Throw (TypeError ("Cannot read properties of undefined (reading '" +:+ k +:+ "')"))
  | Null =>
      Throw (TypeError ("Cannot read properties of null (reading '" +:+ k +:+ "')"))
  | _ => Normal (field (own_props v) k)
  end.

(** [v?.k] *)
Definition Get_opt (v : value) (k : string) : value :=
  match v with
  | Undefined | Null => Undefined
  | _ => field (own_props v) k
  end.

(** [typeof v === 'object'] *)
Definition typeof_object (v : value) : bool :=
  match v with Null | Arr _ | Obj _ => true | _ => false end.

(** [a === b]. Arrays and objects are compared by reference; the two
    sides of every comparison the program makes come from different
    requests or records, which never share a reference. *)
Definition strict_equals (a b : value) : bool :=
  match a, b with
  | Undefined, Undefined | Null, Null => true
  | Bool x, Bool y => Bool.eqb x y
  | Num x, Num y => SFeqb x y
  | Str x, Str y => String.eqb x y
  | _, _ => false
  end.

(** Conversion of an object to a primitive fails when the object has an
    own [toString] property: parsed JSON holds no function, the own
    property hides [Object.prototype.toString], and no callable conversion
    is left. An array converts through [join], which converts its
    elements. *)
Fixpoint to_primitive_throws (v : value) : bool :=
  match v with
  | Obj m => bool_decide (is_Some (m !! "toString"%string))
  | Arr l => existsb to_primitive_throws l
  | _ => false
  end.

Definition bool_number (b : bool) : number := if b then of_Z 1 else pos_zero.

(** The value of [Number(v)] when the conversion to a primitive succeeds.
    An array of one element converts as the string of that element
    ([undefined] and [null] give the empty string); longer arrays give a
    string with a comma, an object gives ["[object Object]"]. *)
Fixpoint number_of (v : value) : number :=
  match v with
  | Undefined => NaN
  | Null => pos_zero
  | Bool b => bool_number b
  | Num n => n
  | Str s => StringToNumber s
  | Obj _ => NaN
  | Arr [] => pos_zero
  | Arr [x] =>
      match x with
      | Undefined | Null => pos_zero
      | Bool _ => NaN
      | Num n => match n with S754_zero _ => pos_zero | _ => n end
      | Str s => StringToNumber s
      | Arr _ => number_of x
      | Obj _ => NaN
      end
  | Arr _ => NaN
  end.

(** [Number(v)] *)
Definition ToNumber (v : value) : completion number :=
  if to_primitive_throws v
  then Throw (TypeError "Cannot convert object to primitive value")
  else Normal (number_of v).

(** [l.findIndex(f)]: [None] stands for [-1]. *)
Fixpoint findIndex {A} (f : A -> bool) (l : list A) : option nat :=
  match l with
  | [] => None
  | x :: l' => if f x then Some 0%nat else S <$> findIndex f l'
  end.

(** State and exceptions: a computation reads and writes the state of the
    process and completes normally or throws. *)
Definition M (S A : Type) : Type := S -> completion A * S.

#[global] Instance M_ret {S} : MRet (M S) := fun A a st => (Normal a, st).
#[global] Instance M_bind {S} : MBind (M S) := fun A B k c st =>
  match c st with
  | (Normal a, st') => k a st'
  | (Throw e, st') => (Throw e, st')
  end.

Definition lift {S A} (c : completion A) : M S A := fun st => (c, st).
Definition read {S} : M S S := fun st => (Normal st, st).
Definition write {S} (st : S) : M S unit := fun _ => (Normal (), st).

End JS.

Import JS.

(** ** APIKeyGenerator *)

Module APIKeyGenerator.

Record t := { apiKey : string }.

Definition getAPIKey (g : t) : string := apiKey g.

(** [key] is [req.header('x-api-key')]: a string, or [undefined]. *)
Definition validateAPIKey (g : t) (key : option string) : completion bool :=
  match key with
  | Some k =>
      if String.eqb k (apiKey g) then Normal true
      else Throw (Web (new_ErrorWeb "API Key inválida" 403))
  | None => Throw (Web (new_ErrorWeb "API Key inválida" 403))
  end.

End APIKeyGenerator.

(** ** jsonwebtoken, symbolically

    The npm library the repository signs and verifies its tokens with.
    Its wire format (base64url, HMAC-SHA256) is kept symbolic: a token
    string either parses as a JWS or does not; the signature of a JWS is
    the HMAC of its header and payload under some key ([signing_key]), or
    some other byte string ([None]), and two keys never give the same
    signature. The payload holds the claims the application issues and the
    two registered dates that [verify] reads without being asked to: [nbf]
    and [exp], each absent, a number, or a JSON value that is not a number
    (login and [generateToken] never issue an [nbf], but a token may carry
    one). Times are seconds since the epoch, the clock of [verify] being
    [Math.floor(Date.now() / 1000)]. The application never passes options
    to [verify], so the audience, the issuer, the subject and the age of a
    token are not looked at. *)

Module jwt.

(** The value of a registered date: [typeof v === 'number'] or not. A
    number with a fraction stands as the next whole number, which the
    whole clock of [verify] has reached, or not, when it has reached the
    number itself. *)
Inductive date :=
| NumericDate (seconds : Z)
| NotNumeric.

Record claims := {
  sub : string;
  role : string;
  username : string;
  iat : Z;
  nbf : option date;
  exp : option date;
  iss : option string
}.

Record jws := {
  payload : claims;
  signing_key : option string
}.

Inductive token :=
| Malformed (s : string)
| Compact (t : jws).

Record options := {
  expiresIn : option Z;
  issuer : option string
}.

(** [{...a, ...b}] on sign options *)
Definition merge (a b : options) : options :=
  {| expiresIn := match expiresIn b with Some x => Some x | None => expiresIn a end;
     issuer := match issuer b with Some x => Some x | None => issuer a end |}.

(** [jwt.sign({sub, role, username}, secret, options)] at time [now] *)
Definition sign (sub role username : string) (secret : string) (o : options)
    (now : Z) : token :=
  Compact {| payload := {| sub := sub; role := role; username := username;
                           iat := now;
                           nbf := None;
                           exp := (fun d => NumericDate (now + d)) <$> expiresIn o;
                           iss := issuer o |};
             signing_key := Some secret |}.

(** The check of [payload.nbf]: [None] when it passes. *)
Definition check_nbf (c : claims) (now : Z) : option exn :=
  match nbf c with
  | None => None
  | Some NotNumeric => Some (Error "JsonWebTokenError" "invalid nbf value")
  | Some (NumericDate n) =>
      if now <? n then Some (Error "NotBeforeError" "jwt not active") else None
  end.

(** The check of [payload.exp]: [None] when it passes. *)
Definition check_exp (c : claims) (now : Z) : option exn :=
  match exp c with
  | None => None
  | Some NotNumeric => Some (Error "JsonWebTokenError" "invalid exp value")
  | Some (NumericDate e) =>
      if e <=? now then Some (Error "TokenExpiredError" "jwt expired") else None
  end.

(** [jwt.verify(token, secret)] at time [now]: the signature first, then
    [nbf], then [exp]. *)
Definition verify (tok : token) (secret : string) (now : Z) : completion claims :=
  match tok with
  | Malformed _ => Throw (Error "JsonWebTokenError" "jwt malformed")
  | Compact t =>
      if bool_decide (signing_key t = Some secret)
      then match check_nbf (payload t) now with
           | Some err => Throw err
           | None =>
               match check_exp (payload t) now with
               | Some err => Throw err
               | None => Normal (payload t)
               end
           end
      else Throw (Error "JsonWebTokenError" "invalid signature")
  end.

(** [jwt.decode(token)] *)
Definition decode (tok : token) : option claims :=
  match tok with
  | Malformed _ => None
  | Compact t => Some (payload t)
  end.

End jwt.

(** ** JWTGenerator *)

Module JWTGenerator.

Record t := { Secret : string }.

Definition defaultOptions : jwt.options :=
  {| jwt.expiresIn := Some 3600; jwt.issuer := Some "laboratorio8-api" |}.

Definition generateToken (g : t) (sub role username : string)
    (options : jwt.options) (now : Z) : jwt.token :=
  jwt.sign sub role username (Secret g) (jwt.merge defaultOptions options) now.

Definition verifyToken (g : t) (token : jwt.token) (now : Z) : completion jwt.claims :=
  match jwt.verify token (Secret g) now with
  | Normal c => Normal c
  | Throw err => Throw (Web (new_ErrorWeb "Token inválido o expirado" 401))
  end.

Definition decodeToken (token : jwt.token) : option jwt.claims := jwt.decode token.

End JWTGenerator.

(** ** Requests, responses and routing (Express) *)

(** The [Authorization] header: an arbitrary text, or the text
    [Bearer ] followed by the compact serialisation of a JWS. *)
Inductive authorization :=
| Text (s : string)
| Bearer (t : jwt.jws).

(** A request as its route receives it: [body] is [req.body] as
    [express.json()] has left it, the parsed value, or [{}] or [undefined]
    when there was nothing to parse. A request whose body [express.json()]
    refuses never reaches a route. *)
Record request := {
  header_x_api_key : option string;
  header_authorization : option authorization;
  body : value;
  params_id : string;
  query_page : option string;
  query_limit : option string;
  originalUrl : string;
  user : option jwt.claims
}.

Definition set_user (req : request) (c : jwt.claims) : request :=
  {| header_x_api_key := header_x_api_key req;
     header_authorization := header_authorization req;
     body := body req;
     params_id := params_id req;
     query_page := query_page req;
     query_limit := query_limit req;
     originalUrl := originalUrl req;
     user := Some c |}.

(** What a request meets outside the program: the clock (in seconds for
    the tokens, as an ISO string for the envelope), the identifier drawn by
    [uuid()], and the failure of [fs.writeFile], if it fails. *)
Record environment := {
  now : Z;
  timestamp : string;
  uuid : string;
  write_error : option string
}.

(** What is fixed when the process starts. [JWT_EXPIRES] is the
    environment variable, as a number of seconds. *)
Record process := {
  apiKeyGen : APIKeyGenerator.t;
  jwtGen : JWTGenerator.t;
  JWT_EXPIRES : option Z
}.

Record user_record := {
  id : string;
  user_username : string;
  user_password : string;
  user_role : string
}.

Inductive data :=
| Value (v : value)
| TokenData (token : jwt.token).

Record error_body := {
  error_status : Z;
  error_code : string;
  error_message : string;
  error_details : value
}.

Inductive envelope :=
| Success (timestamp path : string) (d : data) (meta : value)
| Failure (timestamp path : string) (error : error_body).

Inductive content :=
| json (e : envelope)
| no_content.

Record response := { status : Z; sent : content }.

(** A middleware calls [next()], possibly after it has set [req.user], or
    [next(err)]. *)
Inductive next_call :=
| next (req : request)
| next_err (err : exn).

Definition middleware := request -> next_call.

(** The state of the process: the [products] array. *)
Abbreviation store := (list object).

(** A handler runs on the state of the process; it responds, or an error
    reaches [next]. *)
Definition handler := request -> M store response.

Definition error_handler := exn -> request -> response.

(** [app.METHOD(path, ...gates, handler)] followed by the error-handling
    middleware: the gates run in order on the request as the gates before
    them left it, and the first [next(err)] goes to the error handler. *)
Fixpoint route (gates : list middleware) (h : handler) (on_error : error_handler)
    (req : request) (st : store) : response * store :=
  match gates with
  | [] =>
      match h req st with
      | (Normal res, st') => (res, st')
      | (Throw err, st') => (on_error err req, st')
      end
  | g :: gates' =>
      match g req with
      | next req' => route gates' h on_error req' st
      | next_err err => (on_error err req, st)
      end
  end.

(** The outcome of a list of gates alone. *)
Fixpoint run_gates (gates : list middleware) (req : request) : next_call :=
  match gates with
  | [] => next req
  | g :: gates' =>
      match g req with
      | next req' => run_gates gates' req'
      | next_err err => next_err err
      end
  end.

(** ** What the three revisions of [index.js] share *)

Section Shared.

Variable P : process.
Variable E : environment.

(** Response helpers *)
Definition ok (req : request) (d : data) (meta : value) : envelope :=
  Success (timestamp E) (originalUrl req) d meta.

Definition fail (req : request) (status : Z) (code message : string)
    (details : value) : envelope :=
  Failure (timestamp E) (originalUrl req)
    {| error_status := status; error_code := code; error_message := message;
       error_details := details |}.

(** The default values of [meta] and [details] *)
Definition no_meta : value := Obj ∅.
Definition no_details : value := Arr [].

Definition res_json (status : Z) (e : envelope) : response :=
  {| status := status; sent := json e |}.

(** Middlewares *)
Definition requireApiKey : middleware := fun req =>
  match APIKeyGenerator.validateAPIKey (apiKeyGen P) (header_x_api_key req) with
  | Normal _ => next req
  | Throw err => next_err err
  end.

(** [auth.startsWith('Bearer ') ? auth.slice(7) : null], with [None] for
    [null]; [auth] is [''] when the header is absent. *)
Definition bearer_token (auth : option authorization) : option jwt.token :=
  match auth with
  | None => None
  | Some (Text s) => jwt.Malformed <$> strip_prefix "Bearer " s
  | Some (Bearer t) => Some (jwt.Compact t)
  end.

(** [!token]: [null] and the empty string are falsy. *)
Definition no_token (token : option jwt.token) : bool :=
  match token with
  | None => true
  | Some (jwt.Malformed s) => is_empty s
  | Some (jwt.Compact _) => false
  end.

Definition authJWT : middleware := fun req =>
  let token := bearer_token (header_authorization req) in
  match token with
  | Some tok =>
      if no_token token then next_err (Web (new_ErrorWeb "Falta token" 401))
      else match JWTGenerator.verifyToken (jwtGen P) tok (now E) with
           | Normal c => next (set_user req c)
           | Throw err => next_err err
           end
  | None => next_err (Web (new_ErrorWeb "Falta token" 401))
  end.

Definition roleCheck (roles : list string) : middleware := fun req =>
  match user req with
  | Some u =>
      if existsb (String.eqb (jwt.role u)) roles then next req
      else next_err (Web (new_ErrorWeb "Permisos insuficientes" 403))
  | None => next_err (Web (new_ErrorWeb "Permisos insuficientes" 403))
  end.

(** Validation *)
Record field_error := { field_name : string; msg : string }.

Definition error_value (e : field_error) : value :=
  Obj {[ "field" := Str (field_name e); "msg" := Str (msg e) ]}.

Definition push (errors : list field_error) (violated : bool) (f m : string)
    : list field_error :=
  if violated then errors ++ [{| field_name := f; msg := m |}] else errors.

Definition validateProduct (payload : value) : completion (list field_error) :=
  let errors := [] in
  let errors := push errors (negb (ToBoolean payload) || negb (typeof_object payload))
                  "body" "Invalid body" in
  name ← Get payload "name";
  let errors := push errors (negb (ToBoolean name)) "name" "Required" in
  sku ← Get payload "sku";
  let errors := push errors (negb (ToBoolean sku)) "sku" "Required" in
  price ← Get payload "price";
  p ← ToNumber price;
  let errors := push errors (negb (gt p pos_zero)) "price" "Must be > 0" in
  stock ← Get payload "stock";
  s ← ToNumber stock;
  stock_ok ← (if isInteger s then s' ← ToNumber stock; mret (ge s' pos_zero)
              else mret false);
  let errors := push errors (negb stock_ok) "stock" "Must be integer >= 0" in
  category ← Get payload "category";
  let errors := push errors (negb (ToBoolean category)) "category" "Required" in
  mret errors.

Definition invalid_data (req : request) (errors : list field_error) : response :=
  res_json 422 (fail req 422 "UNPROCESSABLE_ENTITY" "Invalid data"
                  (Arr (error_value <$> errors))).

Definition not_found (req : request) : response :=
  res_json 404 (fail req 404 "NOT_FOUND" "Product not found" no_details).

Definition sku_exists (req : request) : response :=
  res_json 409 (fail req 409 "CONFLICT" "SKU already exists" no_details).

(** [products.some(p => p.sku === sku)] *)
Definition some_sku (products : list object) (sku : value) : bool :=
  existsb (fun p => strict_equals (field p "sku") sku) products.

(** [products.findIndex(p => p.id === req.params.id)] *)
Definition index_of_id (products : list object) (req : request) : option nat :=
  findIndex (fun p => strict_equals (field p "id") (Str (params_id req))) products.

(** [q || d] on a query parameter: absent and empty are falsy. *)
Definition query_or (q : option string) (d : string) : string :=
  match q with
  | Some s => if is_empty s then d else s
  | None => d
  end.

(** [GET /products] *)
Definition get_products : handler := fun req =>
  products ← read;
  let page := Math_max (of_Z 1) (parseInt (query_or (query_page req) "1")) in
  let limit := Math_max (of_Z 1) (parseInt (query_or (query_limit req) "10")) in
  let offset := mul (sub page (of_Z 1)) limit in
  let items := slice products offset (add offset limit) in
  mret (res_json 200
          (ok req (Value (Arr (Obj <$> items)))
             (Obj {[ "page" := Num page; "limit" := Num limit;
                     "total" := Num (of_Z (Z.of_nat (length products))) ]}))).

(** [GET /products/:id] *)
Definition get_product : handler := fun req =>
  products ← read;
  match find (fun p => strict_equals (field p "id") (Str (params_id req))) products with
  | Some prod => mret (res_json 200 (ok req (Value (Obj prod)) no_meta))
  | None => mret (not_found req)
  end.

(** The object literal of [POST /products] *)
Definition new_entity (name sku : value) (price stock : number) (category : value)
    : object :=
  {[ "id" := Str (uuid E); "name" := name; "sku" := sku; "price" := Num price;
     "stock" := Num stock; "category" := category ]}.

Definition is_nil {A} (l : list A) : bool :=
  match l with [] => true | _ => false end.

(** [POST /products], as in [index.js] and in the in-memory revision *)
Definition post_products : handler := fun req =>
  let b := or_else (body req) (Obj ∅) in
  errors ← lift (validateProduct b);
  if negb (is_nil errors) then mret (invalid_data req errors)
  else
    products ← read;
    sku ← lift (Get b "sku");
    if some_sku products sku then mret (sku_exists req)
    else
      name ← lift (Get b "name");
      sku ← lift (Get b "sku");
      price ← lift (p ← Get b "price"; ToNumber p);
      stock ← lift (s ← Get b "stock"; ToNumber s);
      category ← lift (Get b "category");
      let entity := new_entity name sku price stock category in
      _ ← write (products ++ [entity]);
      mret (res_json 201 (ok req (Value (Obj entity)) no_meta)).

(** The demo users of [index.js] and of the in-memory revision *)
Definition users : list user_record :=
  [ {| id := "u1"; user_username := "alice"; user_password := "alice123";
       user_role := "admin" |};
    {| id := "u2"; user_username := "bob"; user_password := "bob123";
       user_role := "editor" |} ].

(** [users.find(u => u.username === username && u.password === password)] *)
Definition find_user (users : list user_record) (username password : value)
    : option user_record :=
  find (fun u => strict_equals (Str (user_username u)) username
                 && strict_equals (Str (user_password u)) password) users.

(** [jwtGen.generateToken({sub: user.id, role: user.role, username:
    user.username}, {expiresIn: process.env.JWT_EXPIRES || '2h'})] *)
Definition login_token (u : user_record) : jwt.token :=
  JWTGenerator.generateToken (jwtGen P) (id u) (user_role u) (user_username u)
    {| jwt.expiresIn := Some (default 7200 (JWT_EXPIRES P)); jwt.issuer := None |}
    (now E).

Definition credentials (users : list user_record) (req : request)
    (username password : value) : response :=
  match find_user users username password with
  | None => res_json 401 (fail req 401 "UNAUTHORIZED" "Invalid credentials" no_details)
  | Some user => res_json 200 (ok req (TokenData (login_token user)) no_meta)
  end.

(** [POST /auth/login], as in [index.js] and in the in-memory revision *)
Definition post_auth_login : handler := fun req =>
  let b := or_else (body req) (Obj ∅) in
  username ← lift (Get b "username");
  password ← lift (Get b "password");
  if negb (ToBoolean username) || negb (ToBoolean password)
  then mret (res_json 400 (fail req 400 "BAD_REQUEST"
                             "username and password required" no_details))
  else mret (credentials users req username password).

(** The guard of [PUT /products/:id] against a duplicate sku:
    [req.body?.sku && req.body.sku !== products[idx].sku
     && products.some(p => p.sku === req.body.sku)] *)
Definition sku_taken (products : list object) (current : object) (req : request)
    : bool :=
  let sku := Get_opt (body req) "sku" in
  ToBoolean sku && negb (strict_equals sku (field current "sku"))
  && some_sku products sku.

(** [{...products[idx], ...{name: merged.name, sku: merged.sku, price:
    Number(merged.price), stock: Number(merged.stock), category:
    merged.category}}] *)
Definition updated_product (current merged : object) (price stock : number)
    : object :=
  spread current
    {[ "name" := field merged "name"; "sku" := field merged "sku";
       "price" := Num price; "stock" := Num stock;
       "category" := field merged "category" ]}.

(** [GET /ping] *)
Definition get_ping : handler := fun req =>
  mret (res_json 200 (ok req (Value (Obj {[ "pong" := Bool true ]})) no_meta)).

(** The routes of the application that answer with the JSON envelope.
    [GET /], which sends an HTML banner, and the 404 that [index.js] gives
    to every other path are left out. *)
Inductive endpoint :=
| ping
| auth_login
| products_list
| products_detail
| products_create
| products_update
| products_delete.

Definition gates (ep : endpoint) : list middleware :=
  match ep with
  | ping => []
  | auth_login | products_list | products_detail => [requireApiKey]
  | products_create | products_update => [authJWT; roleCheck ["editor"; "admin"]]
  | products_delete => [authJWT; roleCheck ["admin"]]
  end.

End Shared.

(** The product the in-memory revisions start with; [id] is the
    identifier drawn at start-up. *)
Definition initial_products (id : string) : store :=
  [ {[ "id" := Str id; "name" := Str "Laptop X"; "sku" := Str "SKU-0001";
       "price" := Num (of_decimal false 99999 (-2)); "stock" := Num (of_Z 5);
       "category" := Str "computers" ]} ].

(** [err.message || 'Internal Server Error'] *)
Definition message_or_default (m : string) : string :=
  if is_empty m then "Internal Server Error" else m.

(** [err.statusCode || 500] *)
Definition status_of (err : exn) : Z :=
  match err with
  | Web e => if statusCode e =? 0 then 500 else statusCode e
  | Error _ _ => 500
  end.

Definition message_of (err : exn) : string :=
  match err with
  | Web e => message_or_default (message e)
  | Error _ m => message_or_default m
  end.

(** ** The in-memory revision ("Endpoints completos") *)

Module InMemory.
Section Handlers.

Variable P : process.
Variable E : environment.

(** [PUT /products/:id] *)
Definition put_product : handler := fun req =>
  products ← read;
  match index_of_id products req with
  | None => mret (not_found E req)
  | Some idx =>
      let current := default ∅ (products !! idx) in
      let merged := spread current (own_props (body req)) in
      errors ← lift (validateProduct (Obj merged));
      if negb (is_nil errors) then mret (invalid_data E req errors)
      else if sku_taken products current req then mret (sku_exists E req)
      else
        price ← lift (ToNumber (field merged "price"));
        stock ← lift (ToNumber (field merged "stock"));
        let updated := updated_product current merged price stock in
        _ ← write (<[idx := updated]> products);
        mret (res_json 200 (ok E req (Value (Obj updated)) no_meta))
  end.

(** [DELETE /products/:id] *)
Definition delete_product : handler := fun req =>
  products ← read;
  match index_of_id products req with
  | None => mret (not_found E req)
  | Some idx =>
      _ ← write (delete idx products);
      mret {| status := 204; sent := no_content |}
  end.

(** The error-handling middleware: [err?.details || undefined] leaves
    [fail] with its default [[]]. *)
Definition error_middleware : error_handler := fun err req =>
  let details := match err with
                 | Web e => if ToBoolean (details e) then details e else no_details
                 | Error _ _ => no_details
                 end in
  res_json (status_of err) (fail E req (status_of err) "ERROR" (message_of err) details).

Definition handler_of (ep : endpoint) : handler :=
  match ep with
  | ping => get_ping E
  | auth_login => post_auth_login P E
  | products_list => get_products E
  | products_detail => get_product E
  | products_create => post_products E
  | products_update => put_product
  | products_delete => delete_product
  end.

Definition serve (ep : endpoint) : request -> store -> response * store :=
  route (gates P E ep) (handler_of ep) error_middleware.

End Handlers.
End InMemory.

(** ** [index.js] *)

Module Index.
Section Handlers.

Variable P : process.
Variable E : environment.

(** [PUT /products/:id]: the merged object itself is stored. *)
Definition put_product : handler := fun req =>
  products ← read;
  match index_of_id products req with
  | None => mret (not_found E req)
  | Some idx =>
      let current := default ∅ (products !! idx) in
      let merged := spread current (own_props (body req)) in
      errors ← lift (validateProduct (Obj merged));
      if negb (is_nil errors) then mret (invalid_data E req errors)
      else if sku_taken products current req then mret (sku_exists E req)
      else
        price ← lift (ToNumber (field merged "price"));
        let merged := <["price" := Num price]> merged in
        stock ← lift (ToNumber (field merged "stock"));
        let merged := <["stock" := Num stock]> merged in
        _ ← write (<[idx := merged]> products);
        mret (res_json 200 (ok E req (Value (Obj merged)) no_meta))
  end.

(** [DELETE /products/:id]: every product with the identifier goes. *)
Definition delete_product : handler := fun req =>
  products ← read;
  let before := length products in
  let products := filter (fun p => negb (strict_equals (field p "id") (Str (params_id req))) = true) products in
  _ ← write products;
  if (length products =? before)%nat then mret (not_found E req)
  else mret {| status := 204; sent := no_content |}.

Definition error_middleware : error_handler := fun err req =>
  let status := status_of err in
  let code := if status =? 401 then "UNAUTHORIZED"
              else if status =? 403 then "FORBIDDEN"
              else if status =? 404 then "NOT_FOUND"
              else "INTERNAL_ERROR" in
  res_json status (fail E req status code (message_of err) no_details).

(** [GET /ping] answers [{ok: true}] here. *)
Definition get_ping : handler := fun req =>
  mret (res_json 200 (ok E req (Value (Obj {[ "ok" := Bool true ]})) no_meta)).

Definition handler_of (ep : endpoint) : handler :=
  match ep with
  | ping => get_ping
  | auth_login => post_auth_login P E
  | products_list => get_products E
  | products_detail => get_product E
  | products_create => post_products E
  | products_update => put_product
  | products_delete => delete_product
  end.

Definition serve (ep : endpoint) : request -> store -> response * store :=
  route (gates P E ep) (handler_of ep) error_middleware.

End Handlers.
End Index.

(** ** The persisted revision: users and products come from JSON files,
    and [products.json] is written again after every mutation *)

Module Persisted.
Section Handlers.

Variable P : process.
Variable E : environment.

(** The contents of [users.json] *)
Variable users : list user_record.

(** [saveToJSON(filename, data)]: a failure of [fs.writeFile] is thrown
    again as an [ErrorWeb] of status 500. *)
Definition saveToJSON (filename : string) (data : store) : M store unit :=
  match write_error E with
  | None => mret ()
  | Some m => lift (Throw (Web (new_ErrorWeb ("Error guardando datos: " +:+ m) 500)))
  end.

Definition saveProducts : M store unit :=
  products ← read; saveToJSON "products.json" products.

(** [POST /auth/login]: the body must also carry [secret]. *)
Definition post_auth_login : handler := fun req =>
  let b := or_else (body req) (Obj ∅) in
  username ← lift (Get b "username");
  password ← lift (Get b "password");
  secret ← lift (Get b "secret");
  if negb (ToBoolean username) || negb (ToBoolean password) || negb (ToBoolean secret)
  then mret (res_json 400 (fail E req 400 "BAD_REQUEST"
                             "username, password and secret required" no_details))
  else mret (credentials P E users req username password).

(** [POST /products] *)
Definition post_products : handler := fun req =>
  let b := or_else (body req) (Obj ∅) in
  errors ← lift (validateProduct b);
  if negb (is_nil errors) then mret (invalid_data E req errors)
  else
    products ← read;
    sku ← lift (Get b "sku");
    if some_sku products sku then mret (sku_exists E req)
    else
      name ← lift (Get b "name");
      sku ← lift (Get b "sku");
      price ← lift (p ← Get b "price"; ToNumber p);
      stock ← lift (s ← Get b "stock"; ToNumber s);
      category ← lift (Get b "category");
      let entity := new_entity E name sku price stock category in
      _ ← write (products ++ [entity]);
      _ ← saveProducts;
      mret (res_json 201 (ok E req (Value (Obj entity)) no_meta)).

(** [PUT /products/:id] *)
Definition put_product : handler := fun req =>
  products ← read;
  match index_of_id products req with
  | None => mret (not_found E req)
  | Some idx =>
      let current := default ∅ (products !! idx) in
      let merged := spread current (own_props (body req)) in
      errors ← lift (validateProduct (Obj merged));
      if negb (is_nil errors) then mret (invalid_data E req errors)
      else if sku_taken products current req then mret (sku_exists E req)
      else
        price ← lift (ToNumber (field merged "price"));
        stock ← lift (ToNumber (field merged "stock"));
        let updated := updated_product current merged price stock in
        _ ← write (<[idx := updated]> products);
        _ ← saveProducts;
        mret (res_json 200 (ok E req (Value (Obj updated)) no_meta))
  end.

(** [DELETE /products/:id] *)
Definition delete_product : handler := fun req =>
  products ← read;
  match index_of_id products req with
  | None => mret (not_found E req)
  | Some idx =>
      _ ← write (delete idx products);
      _ ← saveProducts;
      mret {| status := 204; sent := no_content |}
  end.

Definition handler_of (ep : endpoint) : handler :=
  match ep with
  | ping => get_ping E
  | auth_login => post_auth_login
  | products_list => get_products E
  | products_detail => get_product E
  | products_create => post_products
  | products_update => put_product
  | products_delete => delete_product
  end.

Definition serve (ep : endpoint) : request -> store -> response * store :=
  route (gates P E ep) (handler_of ep) (InMemory.error_middleware E).

End Handlers.
End Persisted.

(** * Derived notions

    What the statements below are written with: the outcomes of the
    handlers case by case, the invariant of the store, and the data of
    the examples. *)

(** ** Outcomes of the handlers *)

(** The errors [validateProduct] has collected when the two conversions
    [Number(payload.price)] and [Number(payload.stock)] gave [p] and [s]. *)
Definition collected (payload : value) (p s : number) : list field_error :=
  let o := own_props payload in
  let errors := push [] (negb (ToBoolean payload) || negb (typeof_object payload))
                  "body" "Invalid body" in
  let errors := push errors (negb (ToBoolean (field o "name"))) "name" "Required" in
  let errors := push errors (negb (ToBoolean (field o "sku"))) "sku" "Required" in
  let errors := push errors (negb (gt p pos_zero)) "price" "Must be > 0" in
  let errors := push errors (negb (isInteger s && ge s pos_zero))
                  "stock" "Must be integer >= 0" in
  push errors (negb (ToBoolean (field o "category"))) "category" "Required".

(** What a payload that passes validation looks like. *)
Record valid_payload (payload : value) (p s : number) : Prop := {
  valid_object : typeof_object payload = true;
  valid_name : ToBoolean (field (own_props payload) "name") = true;
  valid_sku : ToBoolean (field (own_props payload) "sku") = true;
  valid_price_number : ToNumber (field (own_props payload) "price") = Normal p;
  valid_price : gt p pos_zero = true;
  valid_stock_number : ToNumber (field (own_props payload) "stock") = Normal s;
  valid_stock_integer : isInteger s = true;
  valid_stock : ge s pos_zero = true;
  valid_category : ToBoolean (field (own_props payload) "category") = true
}.

(** The response once the gates have passed: what the handler sent, or
    the answer of the error handler to what it threw. *)
Definition answer (on_error : error_handler) (req : request)
    (r : completion response * store) : response * store :=
  match r with
  | (Normal res, st') => (res, st')
  | (Throw err, st') => (on_error err req, st')
  end.

(** How a handler ends after a mutation: it sends its response, or, in
    the persisted revision, first writes the products file. *)
Definition send (res : response) (st : store) : completion response * store :=
  (Normal res, st).

Definition persist (E : environment) (res : response) (st : store)
    : completion response * store :=
  match write_error E with
  | None => (Normal res, st)
  | Some m => (Throw (Web (new_ErrorWeb ("Error guardando datos: " +:+ m) 500)), st)
  end.

(** What [POST /products] does after validation: conflict, or a new
    product at the end of the array. *)
Definition created (E : environment)
    (finish : response -> store -> completion response * store)
    (req : request) (st : store) : completion response * store :=
  let o := own_props (or_else (body req) (Obj ∅)) in
  if some_sku st (field o "sku") then (Normal (sku_exists E req), st)
  else match ToNumber (field o "price"), ToNumber (field o "stock") with
       | Normal p, Normal s =>
           let entity := new_entity E (field o "name") (field o "sku") p s
                           (field o "category") in
           finish (res_json 201 (ok E req (Value (Obj entity)) no_meta))
             (st ++ [entity])
       | Throw e, _ => (Throw e, st)
       | Normal _, Throw e => (Throw e, st)
       end.

Definition creation (E : environment)
    (finish : response -> store -> completion response * store)
    (req : request) (st : store) : completion response * store :=
  match validateProduct (or_else (body req) (Obj ∅)) with
  | Throw e => (Throw e, st)
  | Normal errors =>
      if is_nil errors then created E finish req st
      else (Normal (invalid_data E req errors), st)
  end.

(** What [PUT /products/:id] does once the product is found. *)
Definition update_of (E : environment)
    (store_as : object -> object -> number -> number -> object)
    (finish : response -> store -> completion response * store)
    (req : request) (st : store) (idx : nat) : completion response * store :=
  let current := default ∅ (st !! idx) in
  let merged := spread current (own_props (body req)) in
  match validateProduct (Obj merged) with
  | Throw e => (Throw e, st)
  | Normal errors =>
      if is_nil errors then
        if sku_taken st current req then (Normal (sku_exists E req), st)
        else match ToNumber (field merged "price"), ToNumber (field merged "stock") with
             | Normal p, Normal s =>
                 let updated := store_as current merged p s in
                 finish (res_json 200 (ok E req (Value (Obj updated)) no_meta))
                   (<[idx := updated]> st)
             | Throw e, _ => (Throw e, st)
             | Normal _, Throw e => (Throw e, st)
             end
      else (Normal (invalid_data E req errors), st)
  end.

Definition update (E : environment)
    (store_as : object -> object -> number -> number -> object)
    (finish : response -> store -> completion response * store)
    (req : request) (st : store) : completion response * store :=
  match index_of_id st req with
  | None => (Normal (not_found E req), st)
  | Some idx => update_of E store_as finish req st idx
  end.

(** [index.js] stores the merged object, with its two numbers. *)
Definition merged_product (current merged : object) (p s : number) : object :=
  <["stock" := Num s]> (<["price" := Num p]> merged).

(** [DELETE /products/:id] *)
Definition deletion (E : environment)
    (finish : response -> store -> completion response * store)
    (req : request) (st : store) : completion response * store :=
  match index_of_id st req with
  | None => (Normal (not_found E req), st)
  | Some idx => finish {| status := 204; sent := no_content |} (delete idx st)
  end.

(** The same environment with another outcome of [fs.writeFile]. *)
Definition with_disk (E : environment) (w : option string) : environment :=
  {| now := now E; timestamp := timestamp E; uuid := uuid E; write_error := w |}.

(** A handler stopped before it changed anything: a 4xx response, or an
    error of the language. *)
Definition rejected (r : completion response) : Prop :=
  match r with
  | Normal res => status res = 404 \/ status res = 409 \/ status res = 422
  | Throw e => exists name m, e = Error name m
  end.

(** A mutating handler either stops before it changes anything, whatever
    comes after the mutation, or it changes the store and goes on with
    [finish]. *)
Definition mutation_cases
    (run : (response -> store -> completion response * store) ->
           completion response * store)
    (st : store) (code : Z) (grows : nat -> nat -> Prop) : Prop :=
  (exists r, (forall finish, run finish = (r, st)) /\ rejected r)
  \/ (exists res st', (forall finish, run finish = finish res st')
                      /\ status res = code /\ grows (length st) (length st')).

(** The three mutating routes of the persisted revision. *)
Definition mutating (ep : endpoint) : bool :=
  match ep with
  | products_create | products_update | products_delete => true
  | _ => false
  end.

Definition success_code (ep : endpoint) : Z :=
  match ep with
  | products_create => 201
  | products_delete => 204
  | _ => 200
  end.

Definition mutates (ep : endpoint) (n n' : nat) : Prop :=
  match ep with
  | products_create => n' = S n
  | products_delete => n = S n'
  | _ => n' = n
  end.

(** The five fields of a product that a payload can set. *)
Definition product_fields : list string :=
  ["name"; "sku"; "price"; "stock"; "category"].

(** How the stored record [new] relates to the record [old] it replaces
    and to the payload: a key the payload does not have keeps its value
    (for [price] and [stock]: the number its value converts to); [name],
    [sku] and [category] take the value of the payload when it has one;
    [price] and [stock] take the number the value of the payload converts
    to. *)
Definition frame_of_update (old payload new : object) : Prop :=
  (forall k, payload !! k = None -> k <> "price" -> k <> "stock" ->
     new !! k = old !! k)
  /\ (forall k v, In k ["name"; "sku"; "category"] -> payload !! k = Some v ->
        new !! k = Some v)
  /\ (forall k v, In k ["price"; "stock"] -> payload !! k = Some v ->
        exists n, ToNumber v = Normal n /\ new !! k = Some (Num n))
  /\ (forall k, In k ["price"; "stock"] -> payload !! k = None ->
        exists n, ToNumber (field old k) = Normal n /\ new !! k = Some (Num n)).

(** The page and the limit a list request ends with. *)
Definition page_of (req : request) : number :=
  Math_max (of_Z 1) (parseInt (query_or (query_page req) "1")).

Definition limit_of (req : request) : number :=
  Math_max (of_Z 1) (parseInt (query_or (query_limit req) "10")).

(** Whether the payload violates the rule of the field [f], given the
    numbers its price and its stock convert to. *)
Definition violated (payload : value) (p s : number) (f : string) : bool :=
  let o := own_props payload in
  if String.eqb f "name" then negb (ToBoolean (field o "name"))
  else if String.eqb f "sku" then negb (ToBoolean (field o "sku"))
  else if String.eqb f "price" then negb (gt p pos_zero)
  else if String.eqb f "stock" then negb (isInteger s && ge s pos_zero)
  else if String.eqb f "category" then negb (ToBoolean (field o "category"))
  else false.

(** ** The invariant of the store *)

(** [p.sku === q.sku] *)
Definition same_sku (p q : object) : bool :=
  strict_equals (field p "sku") (field q "sku").

(** No two products of the store have strictly equal skus. *)
Fixpoint sku_unique (st : store) : bool :=
  match st with
  | [] => true
  | p :: rest => forallb (fun q => negb (same_sku p q)) rest && sku_unique rest
  end.

(** The same, as a proposition. *)
Fixpoint distinct (st : store) : Prop :=
  match st with
  | [] => True
  | p :: rest => Forall (fun q => same_sku p q = false) rest /\ distinct rest
  end.

(** A sequence of requests, each with the route it is for and what it
    meets outside the program. *)
Definition trace := list (environment * endpoint * request).

Fixpoint run (serve : environment -> endpoint -> request -> store -> response * store)
    (t : trace) (st : store) : store :=
  match t with
  | [] => st
  | (E, ep, req) :: t' => run serve t' (snd (serve E ep req st))
  end.

(** No two products at different places of the store have strictly
    equal skus; in particular no two of them hold the same text as sku. *)
Definition pairwise_distinct (st : store) : Prop :=
  forall i j p q, i <> j -> st !! i = Some p -> st !! j = Some q ->
    strict_equals (field p "sku") (field q "sku") = false
    /\ forall s, field p "sku" = Str s -> field q "sku" <> Str s.

(** Two products at different places of the store hold the same value as
    sku. *)
Definition shares_sku (st : store) : Prop :=
  exists i j p q, i <> j /\ st !! i = Some p /\ st !! j = Some q
                  /\ field p "sku" = field q "sku".

(** ** Login and tokens *)

(** The credentials of the body are those of the stored user [u]. *)
Definition matches (u : user_record) (username password : value) : Prop :=
  username = Str (user_username u) /\ password = Str (user_password u).

(** The claims of the token that login issues for [u]. *)
Definition login_claims (P : process) (E : environment) (u : user_record) : jwt.claims :=
  {| jwt.sub := id u; jwt.role := user_role u; jwt.username := user_username u;
     jwt.iat := now E; jwt.nbf := None;
     jwt.exp := Some (jwt.NumericDate (now E + default 7200 (JWT_EXPIRES P)));
     jwt.iss := Some "laboratorio8-api" |}.

(** The response carries a token for [u]: it decodes to the identifier
    and the role of [u], and verifies until it expires. *)
Definition token_for (P : process) (E : environment) (req : request)
    (u : user_record) (res : response) : Prop :=
  exists tok,
    res = res_json 200 (ok E req (TokenData tok) no_meta)
    /\ JWTGenerator.decodeToken tok = Some (login_claims P E u)
    /\ jwt.sub (login_claims P E u) = id u
    /\ jwt.role (login_claims P E u) = user_role u
    /\ forall t, t < now E + default 7200 (JWT_EXPIRES P) ->
         JWTGenerator.verifyToken (jwtGen P) tok t = Normal (login_claims P E u).

(** What a login request is answered. [required] tells whether the
    fields the handler requires are all truthy, [complaint] is the message
    of the 400 response. *)
Definition login_answers (P : process) (E : environment) (req : request)
    (st : store) (users : list user_record) (required : bool) (complaint : string)
    (r : response * store) : Prop :=
  let b := own_props (or_else (body req) (Obj ∅)) in
  snd r = st
  /\ (required = false ->
      fst r = res_json 400 (fail E req 400 "BAD_REQUEST" complaint no_details))
  /\ (required = true ->
      forall u, In u users -> matches u (field b "username") (field b "password") ->
      exists u', In u' users
                 /\ matches u' (field b "username") (field b "password")
                 /\ token_for P E req u' (fst r))
  /\ (required = true ->
      (forall u, In u users ->
                 ~ matches u (field b "username") (field b "password")) ->
      fst r = res_json 401
                (fail E req 401 "UNAUTHORIZED" "Invalid credentials" no_details)).

(** The reasons for which [jwt.verify] rejects a token: the string is no
    JWS; the signature is not the one the secret gives; a registered date
    is not a number; [nbf] is still to come; [exp] has been reached. *)
Definition malformed (tok : jwt.token) : Prop :=
  exists s, tok = jwt.Malformed s.

Definition signature_mismatch (secret : string) (tok : jwt.token) : Prop :=
  exists j, tok = jwt.Compact j /\ jwt.signing_key j <> Some secret.

Definition ill_dated (tok : jwt.token) : Prop :=
  exists j, tok = jwt.Compact j
            /\ (jwt.nbf (jwt.payload j) = Some jwt.NotNumeric
                \/ jwt.exp (jwt.payload j) = Some jwt.NotNumeric).

Definition not_yet_active (tok : jwt.token) (t : Z) : Prop :=
  exists j n, tok = jwt.Compact j
              /\ jwt.nbf (jwt.payload j) = Some (jwt.NumericDate n) /\ t < n.

Definition expired (tok : jwt.token) (t : Z) : Prop :=
  exists j e, tok = jwt.Compact j
              /\ jwt.exp (jwt.payload j) = Some (jwt.NumericDate e) /\ e <= t.

(** The claims may be used at time [t] as far as [nbf] goes: there is
    none, or it is a number of seconds that [t] has reached. *)
Definition started (c : jwt.claims) (t : Z) : Prop :=
  match jwt.nbf c with
  | None => True
  | Some (jwt.NumericDate n) => n <= t
  | Some jwt.NotNumeric => False
  end.

(** The claims may be used at time [t] as far as [exp] goes: there is
    none, or it is a number of seconds that [t] has not reached. *)
Definition unexpired (c : jwt.claims) (t : Z) : Prop :=
  match jwt.exp c with
  | None => True
  | Some (jwt.NumericDate e) => t < e
  | Some jwt.NotNumeric => False
  end.

Definition invalid_token : exn := Web (new_ErrorWeb "Token inválido o expirado" 401).

Definition forbidden : exn := Web (new_ErrorWeb "Permisos insuficientes" 403).

(** ** Data of the examples *)

Definition demo_process : process :=
  {| apiKeyGen := {| APIKeyGenerator.apiKey := "4f1c" |};
     jwtGen := {| JWTGenerator.Secret := "9a7e" |};
     JWT_EXPIRES := None |}.

Definition demo_environment : environment :=
  {| now := 1700000000; timestamp := "2023-11-14T22:13:20.000Z"; uuid := "p-2";
     write_error := None |}.

(** A minute later, with another identifier to draw. *)
Definition later_environment : environment :=
  {| now := 1700000060; timestamp := "2023-11-14T22:14:20.000Z"; uuid := "p-3";
     write_error := None |}.

Definition failing_disk : environment :=
  {| now := 1700000000; timestamp := "2023-11-14T22:13:20.000Z"; uuid := "p-2";
     write_error := Some "EACCES: permission denied" |}.

Definition demo_store : store := initial_products "p-1".

(** A token of bob, the editor, issued a minute before the request. *)
Definition bob_token : jwt.jws :=
  {| jwt.payload := {| jwt.sub := "u2"; jwt.role := "editor"; jwt.username := "bob";
                       jwt.iat := 1699999940; jwt.nbf := None;
                       jwt.exp := Some (jwt.NumericDate 1700007140);
                       jwt.iss := Some "laboratorio8-api" |};
     jwt.signing_key := Some "9a7e" |}.

Definition alice_token : jwt.jws :=
  {| jwt.payload := {| jwt.sub := "u1"; jwt.role := "admin"; jwt.username := "alice";
                       jwt.iat := 1699999940; jwt.nbf := None;
                       jwt.exp := Some (jwt.NumericDate 1700007140);
                       jwt.iss := Some "laboratorio8-api" |};
     jwt.signing_key := Some "9a7e" |}.

(** A token of alice signed with the secret of the demo process, to be
    used from an hour after the request on. *)
Definition early_token : jwt.jws :=
  {| jwt.payload := {| jwt.sub := "u1"; jwt.role := "admin"; jwt.username := "alice";
                       jwt.iat := 1699999940;
                       jwt.nbf := Some (jwt.NumericDate 1700003600);
                       jwt.exp := Some (jwt.NumericDate 1700007140);
                       jwt.iss := Some "laboratorio8-api" |};
     jwt.signing_key := Some "9a7e" |}.

Definition request_with (t : option jwt.jws) (key : option string) (b : value)
    (id : string) (url : string) : request :=
  {| header_x_api_key := key; header_authorization := Bearer <$> t; body := b;
     params_id := id; query_page := None; query_limit := None;
     originalUrl := url; user := None |}.

Definition as_bob (b : value) (id : string) : request :=
  request_with (Some bob_token) None b id "/products".

Definition as_alice (b : value) (id : string) : request :=
  request_with (Some alice_token) None b id "/products".

Definition login_request (key : string) (b : value) : request :=
  request_with None (Some key) b "" "/auth/login".

Definition list_request (page limit : option string) : request :=
  {| header_x_api_key := Some "4f1c"; header_authorization := None;
     body := Undefined; params_id := ""; query_page := page; query_limit := limit;
     originalUrl := "/products"; user := None |}.

Definition mouse : value :=
  Obj {[ "name" := Str "Mouse"; "sku" := Str "SKU-0002";
         "price" := Num (of_decimal false 1999 (-2)); "stock" := Num (of_Z 10);
         "category" := Str "peripherals" ]}.

(** The payload of the scenario with an array for sku, as the body
    [{"name": "Mouse", "sku": ["SKU-0002"], ...}] gives. *)
Definition array_sku_mouse : value :=
  Obj {[ "name" := Str "Mouse"; "sku" := Arr [Str "SKU-0002"];
         "price" := Num (of_decimal false 1999 (-2)); "stock" := Num (of_Z 10);
         "category" := Str "peripherals" ]}.

(** The payload of the scenario with its price as text and its stock as
    a boolean. *)
Definition mouse_as_text : value :=
  Obj {[ "name" := Str "Mouse"; "sku" := Str "SKU-0002"; "price" := Str "19.99";
         "stock" := Bool true; "category" := Str "peripherals" ]}.

(** The payload of the scenario with [null] for stock. *)
Definition mouse_without_stock : value :=
  Obj {[ "name" := Str "Mouse"; "sku" := Str "SKU-0002";
         "price" := Num (of_decimal false 1999 (-2)); "stock" := Null;
         "category" := Str "peripherals" ]}.

(** A payload with a negative price and a stock that is not an integer. *)
Definition bad_numbers : object :=
  {[ "name" := Str "Mouse"; "sku" := Str "SKU-0002"; "price" := Num (of_Z (-1));
     "stock" := Num (of_decimal false 15 (-1)); "category" := Str "peripherals" ]}.

(** A payload whose price is an object with an own [toString] property. *)
Definition unconvertible_price : value :=
  Obj {[ "name" := Str "Mouse"; "sku" := Str "SKU-0002";
         "price" := Obj {[ "toString" := Num (of_Z 1) ]};
         "stock" := Num (of_Z (-3)); "category" := Str "peripherals" ]}.

(** A partial payload that sets the stock to [null] and the price to a
    text. *)
Definition null_stock_payload : value :=
  Obj {[ "stock" := Null; "price" := Str "5" ]}.

(** A create request of bob with the sku of the stored product and
    nothing else. *)
Definition duplicate_sku_only : request :=
  as_bob (Obj {[ "sku" := Str "SKU-0001" ]}) "".

(** The same create request, sent twice. *)
Definition array_sku_trace : trace :=
  [ (demo_environment, products_create, as_bob array_sku_mouse "");
    (later_environment, products_create, as_bob array_sku_mouse "") ].

Definition demo_trace : trace :=
  [ (demo_environment, products_create, as_bob mouse "");
    (demo_environment, products_create, as_bob mouse "");
    (demo_environment, products_update,
     as_bob (Obj {[ "sku" := Str "SKU-0001" ]}) "p-2");
    (demo_environment, products_update,
     as_bob (Obj {[ "sku" := Str "SKU-0003" ]}) "p-2");
    (demo_environment, products_delete, as_alice Undefined "p-1") ].

Definition bob_login : request :=
  login_request "4f1c" (Obj {[ "username" := Str "bob"; "password" := Str "bob123" ]}).

(** ** Products by their identifier *)

(** [p.id === id] *)
Definition has_id (id : string) (p : object) : bool :=
  strict_equals (field p "id") (Str id).

(** No product of the store has the identifier. *)
Definition fresh_id (id : string) (st : store) : bool :=
  forallb (fun p => negb (has_id id p)) st.

(** The product at place [i] is the first one with the identifier. *)
Definition first_with_id (id : string) (st : store) (i : nat) (p : object) : Prop :=
  st !! i = Some p /\ has_id id p = true
  /\ forall j q, (j < i)%nat -> st !! j = Some q -> has_id id q = false.

(** At most one product of the store has the identifier. *)
Definition at_most_one (id : string) (st : store) : bool :=
  (length (filter (fun p => has_id id p = true) st) <=? 1)%nat.

(** A detail request with the API key of the demo process. *)
Definition detail_request (id : string) : request :=
  request_with None (Some "4f1c") Undefined id ("/products/" +:+ id).

(** The payload of the scenario with an identifier of its own and a key
    that is no field of a product. *)
Definition labelled_mouse : value :=
  Obj {[ "id" := Str "mine"; "color" := Str "black"; "name" := Str "Mouse";
         "sku" := Str "SKU-0002"; "price" := Num (of_decimal false 1999 (-2));
         "stock" := Num (of_Z 10); "category" := Str "peripherals" ]}.

(** ** Who passes the gates *)

(** The roles a write route lets in. *)
Definition roles_of (ep : endpoint) : list string :=
  match ep with
  | products_delete => ["admin"]
  | _ => ["editor"; "admin"]
  end.

(** The JWS is signed with the secret of the process, and at time [t]
    its [nbf], if any, has been reached and its [exp], if any, has not. *)
Definition valid_at (P : process) (t : Z) (j : jwt.jws) : Prop :=
  jwt.signing_key j = Some (JWTGenerator.Secret (jwtGen P))
  /\ started (jwt.payload j) t
  /\ unexpired (jwt.payload j) t.

(** The message of the bearer-token gate for a header that holds no JWS:
    no header, a text that does not start with [Bearer ], or nothing after
    it, is a missing token; any other text is an invalid one. *)
Definition bearer_complaint (auth : option authorization) : string :=
  match auth with
  | Some (Text s) =>
      match strip_prefix "Bearer " s with
      | Some (String _ _) => "Token inválido o expirado"
      | _ => "Falta token"
      end
  | _ => "Falta token"
  end.

(** The responses of the error handlers to an [ErrorWeb] without details:
    the in-memory and the persisted revision on one side, [index.js] on the
    other. *)
Definition refused (E : environment) (req : request) (status : Z) (m : string)
    : response :=
  res_json status (fail E req status "ERROR" m (Obj ∅)).

Definition Index_refused (E : environment) (req : request) (status : Z)
    (code m : string) : response :=
  res_json status (fail E req status code m no_details).

(** ** Tokens *)

(** The claims of the token [generateToken] issues at time [t0]: the
    payload, the time of issue, the expiry and the issuer, with the
    defaults of [generateToken] for what the options leave out. *)
Definition issued_claims (sub role username : string) (o : jwt.options) (t0 : Z)
    : jwt.claims :=
  {| jwt.sub := sub; jwt.role := role; jwt.username := username; jwt.iat := t0;
     jwt.nbf := None;
     jwt.exp := Some (jwt.NumericDate (t0 + default 3600 (jwt.expiresIn o)));
     jwt.iss := Some (default "laboratorio8-api" (jwt.issuer o)) |}.

(** Bob, and the token that login issues for him in the demo
    environment. *)
Definition bob : user_record :=
  {| id := "u2"; user_username := "bob"; user_password := "bob123";
     user_role := "editor" |}.

Definition bob_login_token : jwt.jws :=
  {| jwt.payload := login_claims demo_process demo_environment bob;
     jwt.signing_key := Some "9a7e" |}.

(** ** Responses *)

(** The envelope of a response agrees with its status: a success
    envelope comes with 200 or 201; a failure envelope repeats the status
    of the response, which is one of the error statuses of the service;
    a response without content has status 204. Every envelope carries the
    time of the request and its path. *)
Definition well_formed (E : environment) (req : request) (res : response) : Prop :=
  match sent res with
  | json (Success ts path _ _) =>
      (status res = 200 \/ status res = 201)
      /\ ts = timestamp E /\ path = originalUrl req
  | json (Failure ts path e) =>
      error_status e = status res
      /\ In (status res) [400; 401; 403; 404; 409; 422; 500]
      /\ ts = timestamp E /\ path = originalUrl req
  | no_content => status res = 204
  end.

(** How a handler ends: with a well-formed response, the store being
    changed only when the response is a success; with an error of the
    language, the store being as it was; or, where there is a disk, with
    the [ErrorWeb] of a failed write. *)
Definition handled (E : environment) (req : request) (st : store) (disk : bool)
    (r : completion response * store) : Prop :=
  match fst r with
  | Normal res => well_formed E req res /\ (snd r = st \/ status res < 400)
  | Throw (Error _ _) => snd r = st
  | Throw (Web e) => disk = true /\ statusCode e = 500
  end.

(** ** Integers as numbers *)

(** The binary64 number with sign [s] and magnitude the integer [a],
    [0 < a < 2^53]: a mantissa of 53 bits and the exponent that goes with
    it. *)
Definition integer_float (s : bool) (a : Z) : number :=
  S754_finite s (Z.to_pos (a * 2 ^ (52 - Z.log2 a))) (Z.log2 a - 52).

(** The products of page [p] when a page holds [l] products. *)
Definition page_items (p l : Z) (st : store) : list object :=
  take (Z.to_nat l) (drop (Z.to_nat ((p - 1) * l)) st).

(** ** Requests that differ only in who sends them *)

(** Two requests with the same body, path parameter, query and path:
    they may differ in their headers and in [req.user]. *)
Definition same_content (r1 r2 : request) : Prop :=
  body r1 = body r2 /\ params_id r1 = params_id r2
  /\ query_page r1 = query_page r2 /\ query_limit r1 = query_limit r2
  /\ originalUrl r1 = originalUrl r2.

(** What validation reports for an empty object. *)
Definition all_missing : list field_error :=
  [ {| field_name := "name"; msg := "Required" |};
    {| field_name := "sku"; msg := "Required" |};
    {| field_name := "price"; msg := "Must be > 0" |};
    {| field_name := "stock"; msg := "Must be integer >= 0" |};
    {| field_name := "category"; msg := "Required" |} ].

(** ** The steps of the store *)

(** What a request can do to the store of the in-memory revision:
    nothing, append a product with the identifier just drawn, replace a
    product by one with the same identifier, or remove a product. *)
Inductive store_step (E : environment) (st : store) : store -> Prop :=
| step_none : store_step E st st
| step_append (entity : object) :
    has_id (uuid E) entity = true -> store_step E st (st ++ [entity])
| step_replace (idx : nat) (old new : object) :
    st !! idx = Some old -> field new "id" = field old "id" ->
    store_step E st (<[idx := new]> st)
| step_remove (idx : nat) : store_step E st (delete idx st).

(** Every identifier is the identifier of at most one product. *)
Definition ids_unique (st : store) : Prop :=
  forall id, at_most_one id st = true.

(** * Properties *)

(** ** Strict equality *)

Lemma SFeqb_true (x y : number) :
  SFeqb x y = true ->
  x = y \/ (exists s t, x = S754_zero s /\ y = S754_zero t).
Proof.
  unfold SFeqb.
  destruct x as [s| s| |s m e], y as [t| t| |t n f]; simpl; try discriminate;
    try (intros _; right; eauto; fail);
    try (destruct s; discriminate); try (destruct t; discriminate).
  - destruct s, t; try discriminate; intros _; left; reflexivity.
  - destruct s, t; try discriminate.
    + destruct (Z.compare_spec e f); try discriminate. subst f.
      change (Pos.compare_cont Eq m n) with (Pos.compare m n).
      destruct (Pos.compare_spec m n); try discriminate. subst; left; reflexivity.
    + destruct (Z.compare_spec e f); try discriminate. subst f.
      change (Pos.compare_cont Eq m n) with (Pos.compare m n).
      destruct (Pos.compare_spec m n); try discriminate. subst; left; reflexivity.
Qed.

Lemma SFeqb_zero_l (s t : bool) (z : number) :
  SFeqb (S754_zero s) z = SFeqb (S754_zero t) z.
Proof. destruct z; reflexivity. Qed.

Lemma SFeqb_zero_r (s t : bool) (z : number) :
  SFeqb z (S754_zero s) = SFeqb z (S754_zero t).
Proof. destruct z; reflexivity. Qed.

Lemma SFeqb_sym (x y : number) : SFeqb x y = SFeqb y x.
Proof.
  unfold SFeqb.
  destruct x as [s| s| |s m e], y as [t| t| |t n f]; simpl; try reflexivity;
    try (destruct s; reflexivity); try (destruct t; reflexivity).
  - destruct s, t; reflexivity.
  - destruct s, t; try reflexivity;
      rewrite (Z.compare_antisym e f);
      change (Pos.compare_cont Eq m n) with (Pos.compare m n);
      change (Pos.compare_cont Eq n m) with (Pos.compare n m);
      rewrite (Pos.compare_antisym m n);
      destruct (e ?= f); simpl; try reflexivity;
      destruct (m ?= n)%positive; reflexivity.
Qed.

Lemma strict_equals_sym (a b : value) : strict_equals a b = strict_equals b a.
Proof.
  destruct a, b; simpl; try reflexivity.
  - destruct b, b0; reflexivity.
  - apply SFeqb_sym.
  - apply String.eqb_sym.
Qed.

(** Two values that are strictly equal compare alike with every third. *)
Lemma strict_equals_congr (a b c : value) :
  strict_equals a b = true -> strict_equals a c = strict_equals b c.
Proof.
  destruct a, b; simpl; try discriminate; try reflexivity.
  - intros H. apply Bool.eqb_prop in H. subst. reflexivity.
  - intros H. destruct c; try reflexivity. simpl.
    destruct (SFeqb_true _ _ H) as [->|(s & t & -> & ->)]; [reflexivity|].
    apply SFeqb_zero_l.
  - intros H. apply String.eqb_eq in H. subst. reflexivity.
Qed.

Lemma strict_equals_Str (s : string) (v : value) :
  strict_equals (Str s) v = true <-> v = Str s.
Proof.
  split.
  - destruct v; simpl; try discriminate. intros H.
    apply String.eqb_eq in H. congruence.
  - intros ->. simpl. apply String.eqb_refl.
Qed.

(** ** Validation *)

Lemma Get_truthy (v : value) (k : string) :
  ToBoolean v = true -> Get v k = Normal (field (own_props v) k).
Proof. destruct v; simpl; try discriminate; reflexivity. Qed.

Lemma validateProduct_truthy (payload : value) :
  ToBoolean payload = true ->
  validateProduct payload =
    (p ← ToNumber (field (own_props payload) "price");
     s ← ToNumber (field (own_props payload) "stock");
     mret (collected payload p s)).
Proof.
  intros Ht. unfold validateProduct. rewrite !(Get_truthy _ _ Ht). simpl.
  destruct (ToNumber (field (own_props payload) "price")) as [p|e]; simpl; [|reflexivity].
  destruct (ToNumber (field (own_props payload) "stock")) as [s|e]; simpl; [|reflexivity].
  unfold collected. destruct (isInteger s); reflexivity.
Qed.

Lemma push_nil (errors : list field_error) (violated : bool) (f m : string) :
  push errors violated f m = [] <-> errors = [] /\ violated = false.
Proof.
  unfold push. destruct violated.
  - split; [|intros [_ ?]; discriminate].
    intros H. apply app_eq_nil in H. destruct H; discriminate.
  - tauto.
Qed.

Lemma collected_nil (payload : value) (p s : number) :
  ToBoolean payload = true ->
  collected payload p s = [] ->
  typeof_object payload = true
  /\ ToBoolean (field (own_props payload) "name") = true
  /\ ToBoolean (field (own_props payload) "sku") = true
  /\ gt p pos_zero = true
  /\ isInteger s = true /\ ge s pos_zero = true
  /\ ToBoolean (field (own_props payload) "category") = true.
Proof.
  intros Ht. unfold collected. rewrite Ht. simpl.
  rewrite !push_nil.
  intros ((((((_ & Hb) & Hn) & Hs) & Hp) & Hst) & Hc).
  repeat match goal with
         | H : negb _ = false |- _ => apply Bool.negb_false_iff in H
         | H : _ && _ = true |- _ => apply andb_prop in H; destruct H
         end.
  tauto.
Qed.

(** When the price and the stock of an object convert to numbers,
    validation lists the violated fields, all of them and no other, in the
    order of the rules. *)
Lemma validateProduct_lists_violations (payload : value) (p s : number) :
  ToBoolean payload = true -> typeof_object payload = true ->
  ToNumber (field (own_props payload) "price") = Normal p ->
  ToNumber (field (own_props payload) "stock") = Normal s ->
  exists errors,
    validateProduct payload = Normal errors
    /\ field_name <$> errors
       = filter (fun f => violated payload p s f = true) product_fields.
Proof.
  intros Ht Ho Hp Hs. rewrite (validateProduct_truthy _ Ht), Hp, Hs. simpl.
  eexists. split; [reflexivity|].
  unfold collected, violated, product_fields. rewrite Ht, Ho. simpl.
  destruct (ToBoolean (field (own_props payload) "name")),
    (ToBoolean (field (own_props payload) "sku")), (gt p pos_zero),
    (isInteger s && ge s pos_zero),
    (ToBoolean (field (own_props payload) "category")); reflexivity.
Qed.

Lemma validateProduct_passes (payload : value) :
  ToBoolean payload = true ->
  validateProduct payload = Normal [] ->
  exists p s, valid_payload payload p s.
Proof.
  intros Ht. rewrite (validateProduct_truthy _ Ht).
  destruct (ToNumber (field (own_props payload) "price")) as [p|e] eqn:Hp; [|discriminate].
  destruct (ToNumber (field (own_props payload) "stock")) as [s|e] eqn:Hs; [|discriminate].
  simpl. intros H. injection H as H.
  apply (collected_nil _ _ _ Ht) in H.
  exists p, s. split; tauto.
Qed.

(** ** Routing *)

Lemma route_pass (gates : list middleware) (h : handler) (on_error : error_handler)
    (req req' : request) (st : store) :
  run_gates gates req = next req' ->
  route gates h on_error req st = answer on_error req' (h req' st).
Proof.
  revert req. induction gates as [|g gates IH]; intros req; simpl.
  - intros [= ->]. unfold answer. destruct (h req' st) as [[res|err] st']; reflexivity.
  - destruct (g req) as [req1|err]; [apply IH|discriminate].
Qed.

Lemma route_fail (pre post : list middleware) (g : middleware) (h : handler)
    (on_error : error_handler) (req req' : request) (err : exn) (st : store) :
  run_gates pre req = next req' ->
  g req' = next_err err ->
  route (pre ++ g :: post) h on_error req st = (on_error err req', st).
Proof.
  revert req. induction pre as [|g0 pre IH]; intros req; simpl.
  - intros [= ->] ->. reflexivity.
  - destruct (g0 req) as [req1|err1]; [apply IH|discriminate].
Qed.

(** The gates of the application leave the request as it is, but for
    [req.user]. *)
Lemma authJWT_next (P : process) (E : environment) (req req' : request) :
  authJWT P E req = next req' ->
  exists tok c,
    bearer_token (header_authorization req) = Some tok
    /\ JWTGenerator.verifyToken (jwtGen P) tok (now E) = Normal c
    /\ req' = set_user req c.
Proof.
  unfold authJWT.
  destruct (bearer_token (header_authorization req)) as [tok|]; [|discriminate].
  destruct (no_token (Some tok)); [discriminate|].
  destruct (JWTGenerator.verifyToken (jwtGen P) tok (now E)) as [c|e] eqn:Hv; [|discriminate].
  intros [= <-]. eauto.
Qed.

Lemma roleCheck_next (roles : list string) (req req' : request) :
  roleCheck roles req = next req' ->
  req' = req /\ exists u, user req = Some u /\ existsb (String.eqb (jwt.role u)) roles = true.
Proof.
  unfold roleCheck. destruct (user req) as [u|]; [|discriminate].
  destruct (existsb (String.eqb (jwt.role u)) roles) eqn:Hr; [|discriminate].
  intros [= <-]. eauto.
Qed.

Lemma requireApiKey_next (P : process) (req req' : request) :
  requireApiKey P req = next req' ->
  req' = req /\ header_x_api_key req = Some (APIKeyGenerator.apiKey (apiKeyGen P)).
Proof.
  unfold requireApiKey, APIKeyGenerator.validateAPIKey.
  destruct (header_x_api_key req) as [k|]; [|discriminate].
  destruct (String.eqb k _) eqn:Hk; [|discriminate].
  apply String.eqb_eq in Hk. intros [= <-]. subst. auto.
Qed.

Lemma gates_pass (P : process) (E : environment) (ep : endpoint) (req req' : request) :
  run_gates (gates P E ep) req = next req' ->
  req' = req \/ exists c, req' = set_user req c.
Proof.
  destruct ep; simpl.
  - intros [= <-]; auto.
  - destruct (requireApiKey P req) eqn:H; [|discriminate].
    apply requireApiKey_next in H as [-> _]. intros [= <-]; auto.
  - destruct (requireApiKey P req) eqn:H; [|discriminate].
    apply requireApiKey_next in H as [-> _]. intros [= <-]; auto.
  - destruct (requireApiKey P req) eqn:H; [|discriminate].
    apply requireApiKey_next in H as [-> _]. intros [= <-]; auto.
  - destruct (authJWT P E req) as [r1|] eqn:H; [|discriminate].
    apply authJWT_next in H as (tok & c & _ & _ & ->).
    destruct (roleCheck _ _) as [r2|] eqn:H2; [|discriminate].
    apply roleCheck_next in H2 as [-> _]. intros [= <-]; eauto.
  - destruct (authJWT P E req) as [r1|] eqn:H; [|discriminate].
    apply authJWT_next in H as (tok & c & _ & _ & ->).
    destruct (roleCheck _ _) as [r2|] eqn:H2; [|discriminate].
    apply roleCheck_next in H2 as [-> _]. intros [= <-]; eauto.
  - destruct (authJWT P E req) as [r1|] eqn:H; [|discriminate].
    apply authJWT_next in H as (tok & c & _ & _ & ->).
    destruct (roleCheck _ _) as [r2|] eqn:H2; [|discriminate].
    apply roleCheck_next in H2 as [-> _]. intros [= <-]; eauto.
Qed.

(** Once its gates have passed, a route answers as its handler does on
    the request itself: no handler reads [req.user]. *)
Lemma InMemory_serve_pass (P : process) (E : environment) (ep : endpoint)
    (req req' : request) (st : store) :
  run_gates (gates P E ep) req = next req' ->
  InMemory.serve P E ep req st =
    answer (InMemory.error_middleware E) req (InMemory.handler_of P E ep req st).
Proof.
  intros H. unfold InMemory.serve. rewrite (route_pass _ _ _ _ _ _ H).
  destruct (gates_pass _ _ _ _ _ H) as [->|[c ->]]; [reflexivity|].
  destruct ep; reflexivity.
Qed.

Lemma Index_serve_pass (P : process) (E : environment) (ep : endpoint)
    (req req' : request) (st : store) :
  run_gates (gates P E ep) req = next req' ->
  Index.serve P E ep req st =
    answer (Index.error_middleware E) req (Index.handler_of P E ep req st).
Proof.
  intros H. unfold Index.serve. rewrite (route_pass _ _ _ _ _ _ H).
  destruct (gates_pass _ _ _ _ _ H) as [->|[c ->]]; [reflexivity|].
  destruct ep; reflexivity.
Qed.

Lemma Persisted_serve_pass (P : process) (E : environment) (users : list user_record)
    (ep : endpoint) (req req' : request) (st : store) :
  run_gates (gates P E ep) req = next req' ->
  Persisted.serve P E users ep req st =
    answer (InMemory.error_middleware E) req (Persisted.handler_of P E users ep req st).
Proof.
  intros H. unfold Persisted.serve. rewrite (route_pass _ _ _ _ _ _ H).
  destruct (gates_pass _ _ _ _ _ H) as [->|[c ->]]; [reflexivity|].
  destruct ep; reflexivity.
Qed.

(** ** The handlers, case by case *)

Lemma or_else_object_truthy (v : value) : ToBoolean (or_else v (Obj ∅)) = true.
Proof. unfold or_else. destruct (ToBoolean v) eqn:H; [exact H|reflexivity]. Qed.

Ltac unfold_M :=
  unfold mbind, mret, M_bind, M_ret, completion_bind, completion_ret,
    lift, read, write.

Lemma post_products_eq (E : environment) (req : request) (st : store) :
  post_products E req st = creation E send req st.
Proof.
  unfold post_products, creation, created, send. unfold_M.
  pose proof (or_else_object_truthy (body req)) as Ht.
  rewrite !(Get_truthy _ _ Ht).
  destruct (validateProduct _) as [errors|e]; [|reflexivity].
  destruct (is_nil errors); simpl; [|reflexivity].
  destruct (some_sku st _); [reflexivity|].
  destruct (ToNumber (field _ "price")); [|reflexivity].
  destruct (ToNumber (field _ "stock")); reflexivity.
Qed.

Lemma Persisted_post_products_eq (E : environment) (req : request) (st : store) :
  Persisted.post_products E req st = creation E (persist E) req st.
Proof.
  unfold Persisted.post_products, creation, created, persist,
    Persisted.saveProducts, Persisted.saveToJSON. unfold_M.
  pose proof (or_else_object_truthy (body req)) as Ht.
  rewrite !(Get_truthy _ _ Ht).
  destruct (validateProduct _) as [errors|e]; [|reflexivity].
  destruct (is_nil errors); simpl; [|reflexivity].
  destruct (some_sku st _); [reflexivity|].
  destruct (ToNumber (field _ "price")); [|reflexivity].
  destruct (ToNumber (field _ "stock")); [|reflexivity].
  destruct (write_error E); reflexivity.
Qed.

Lemma InMemory_put_product_eq (E : environment) (req : request) (st : store) :
  InMemory.put_product E req st = update E updated_product send req st.
Proof.
  unfold InMemory.put_product, update, update_of, send. unfold_M.
  destruct (index_of_id st req) as [idx|]; [|reflexivity].
  destruct (validateProduct _) as [errors|e]; [|reflexivity].
  destruct (is_nil errors); simpl; [|reflexivity].
  destruct (sku_taken _ _ _); [reflexivity|].
  destruct (ToNumber (field _ "price")); [|reflexivity].
  destruct (ToNumber (field _ "stock")); reflexivity.
Qed.

Lemma Persisted_put_product_eq (E : environment) (req : request) (st : store) :
  Persisted.put_product E req st = update E updated_product (persist E) req st.
Proof.
  unfold Persisted.put_product, update, update_of, persist,
    Persisted.saveProducts, Persisted.saveToJSON. unfold_M.
  destruct (index_of_id st req) as [idx|]; [|reflexivity].
  destruct (validateProduct _) as [errors|e]; [|reflexivity].
  destruct (is_nil errors); simpl; [|reflexivity].
  destruct (sku_taken _ _ _); [reflexivity|].
  destruct (ToNumber (field _ "price")); [|reflexivity].
  destruct (ToNumber (field _ "stock")); [|reflexivity].
  destruct (write_error E); reflexivity.
Qed.

Lemma field_insert_ne (o : object) (k k' : string) (v : value) :
  k <> k' -> field (<[k := v]> o) k' = field o k'.
Proof. intros H. unfold field. rewrite lookup_insert_ne by exact H. reflexivity. Qed.

Lemma Index_put_product_eq (E : environment) (req : request) (st : store) :
  Index.put_product E req st = update E merged_product send req st.
Proof.
  unfold Index.put_product, update, update_of, merged_product, send. unfold_M.
  destruct (index_of_id st req) as [idx|]; [|reflexivity].
  destruct (validateProduct _) as [errors|e]; [|reflexivity].
  destruct (is_nil errors); simpl; [|reflexivity].
  destruct (sku_taken _ _ _); [reflexivity|].
  destruct (ToNumber (field _ "price")) as [p|e]; [|reflexivity].
  rewrite field_insert_ne by discriminate.
  destruct (ToNumber (field _ "stock")); reflexivity.
Qed.

Lemma InMemory_delete_product_eq (E : environment) (req : request) (st : store) :
  InMemory.delete_product E req st = deletion E send req st.
Proof.
  unfold InMemory.delete_product, deletion, send. unfold_M.
  destruct (index_of_id st req); reflexivity.
Qed.

Lemma Persisted_delete_product_eq (E : environment) (req : request) (st : store) :
  Persisted.delete_product E req st = deletion E (persist E) req st.
Proof.
  unfold Persisted.delete_product, deletion, persist,
    Persisted.saveProducts, Persisted.saveToJSON. unfold_M.
  destruct (index_of_id st req); [|reflexivity].
  destruct (write_error E); reflexivity.
Qed.

(** ** Creation: validation comes before the sku check *)

Lemma some_sku_true (st : store) (sku : value) (p : object) :
  In p st -> strict_equals (field p "sku") sku = true -> some_sku st sku = true.
Proof. intros Hin Heq. unfold some_sku. apply existsb_exists. eauto. Qed.

(** C1, counterexample: a create request whose sku is the sku of the
    stored product and whose other fields are missing is answered 422
    with the four violated fields, not 409. *)
Lemma create_duplicate_sku_invalid_is_422 :
  some_sku demo_store (field (own_props (body duplicate_sku_only)) "sku") = true
  /\ InMemory.serve demo_process demo_environment products_create duplicate_sku_only
       demo_store
     = (invalid_data demo_environment duplicate_sku_only
          [ {| field_name := "name"; msg := "Required" |};
            {| field_name := "price"; msg := "Must be > 0" |};
            {| field_name := "stock"; msg := "Must be integer >= 0" |};
            {| field_name := "category"; msg := "Required" |} ],
        demo_store)
  /\ Persisted.serve demo_process demo_environment users products_create
       duplicate_sku_only demo_store
     = InMemory.serve demo_process demo_environment products_create duplicate_sku_only
         demo_store
  /\ status (fst (InMemory.serve demo_process demo_environment products_create
                    duplicate_sku_only demo_store)) <> 409.
Proof. vm_compute. repeat split; discriminate. Qed.

Lemma collected_reports (payload : value) (p s : number) :
  ToBoolean payload = true ->
  (typeof_object payload = false
   \/ exists f, In f product_fields /\ violated payload p s f = true) ->
  collected payload p s <> [].
Proof.
  intros Ht Hbad Hnil.
  destruct (collected_nil payload p s Ht Hnil) as (Ho & Hn & Hk & Hp & Hi & Hs & Hc).
  destruct Hbad as [Hno|(f & Hin & Hv)]; [congruence|].
  unfold violated in Hv. rewrite Hn, Hk, Hp, Hi, Hs, Hc in Hv.
  simpl in Hin. destruct Hin as [<-|[<-|[<-|[<-|[<-|[]]]]]]; discriminate.
Qed.

Lemma creation_invalid (E : environment)
    (finish : response -> store -> completion response * store)
    (req : request) (st : store) (errors : list field_error) :
  validateProduct (or_else (body req) (Obj ∅)) = Normal errors ->
  errors <> [] ->
  creation E finish req st = (Normal (invalid_data E req errors), st).
Proof.
  intros Hv Hne. unfold creation. rewrite Hv. destruct errors; [congruence|reflexivity].
Qed.

(** C1, amended: for a create request that has passed the gates,
    validation comes before the sku check. When the payload passes
    validation and its sku is strictly equal to the sku of a stored
    product, the answer is 409 CONFLICT and the store is left as it was.
    When validation reports violations, the answer is 422 with the fields
    it reports and the store is left as it was, whether the sku is taken
    or not. Validation does report when [Number(price)] and
    [Number(stock)] return and the payload is no object or violates the
    rule of one of the fields name, sku, price, stock, category: for an
    object the fields reported are the violated ones, all of them and no
    other. This holds in the three revisions. *)
Theorem create_conflict_after_validation (P : process) (E : environment)
    (users : list user_record) (req req' : request) (st : store) :
  run_gates (gates P E products_create) req = next req' ->
  (forall p,
     In p st ->
     strict_equals (field p "sku")
       (field (own_props (or_else (body req) (Obj ∅))) "sku") = true ->
     validateProduct (or_else (body req) (Obj ∅)) = Normal [] ->
     InMemory.serve P E products_create req st = (sku_exists E req, st)
     /\ Index.serve P E products_create req st = (sku_exists E req, st)
     /\ Persisted.serve P E users products_create req st = (sku_exists E req, st))
  /\ (forall errors,
        validateProduct (or_else (body req) (Obj ∅)) = Normal errors ->
        errors <> [] ->
        InMemory.serve P E products_create req st = (invalid_data E req errors, st)
        /\ Index.serve P E products_create req st = (invalid_data E req errors, st)
        /\ Persisted.serve P E users products_create req st
           = (invalid_data E req errors, st))
  /\ (forall p s,
        ToNumber (field (own_props (or_else (body req) (Obj ∅))) "price") = Normal p ->
        ToNumber (field (own_props (or_else (body req) (Obj ∅))) "stock") = Normal s ->
        (typeof_object (or_else (body req) (Obj ∅)) = false
         \/ exists f, In f product_fields
                      /\ violated (or_else (body req) (Obj ∅)) p s f = true) ->
        exists errors,
          errors <> []
          /\ (typeof_object (or_else (body req) (Obj ∅)) = true ->
              field_name <$> errors
              = filter (fun f => violated (or_else (body req) (Obj ∅)) p s f = true)
                  product_fields)
          /\ InMemory.serve P E products_create req st = (invalid_data E req errors, st)
          /\ Index.serve P E products_create req st = (invalid_data E req errors, st)
          /\ Persisted.serve P E users products_create req st
             = (invalid_data E req errors, st)).
Proof.
  intros Hpass.
  rewrite (InMemory_serve_pass _ _ _ _ _ _ Hpass), (Index_serve_pass _ _ _ _ _ _ Hpass),
    (Persisted_serve_pass _ _ _ _ _ _ _ Hpass).
  simpl. rewrite post_products_eq, Persisted_post_products_eq.
  split; [|split].
  - intros p Hin Hsku Hv. unfold creation. rewrite Hv. simpl. unfold created.
    rewrite (some_sku_true _ _ _ Hin Hsku). auto.
  - intros errors Hv Hne. rewrite !(creation_invalid _ _ _ _ _ Hv Hne). auto.
  - intros p s Hp Hs Hbad.
    pose proof (or_else_object_truthy (body req)) as Ht.
    pose proof (collected_reports _ p s Ht Hbad) as Hne.
    assert (validateProduct (or_else (body req) (Obj ∅))
            = Normal (collected (or_else (body req) (Obj ∅)) p s)) as Hv
      by (rewrite (validateProduct_truthy _ Ht), Hp, Hs; reflexivity).
    exists (collected (or_else (body req) (Obj ∅)) p s).
    split; [exact Hne|]. split.
    + intros Ho.
      destruct (validateProduct_lists_violations _ p s Ht Ho Hp Hs)
        as (errors & Hv' & Hnames).
      rewrite Hv in Hv'. injection Hv' as <-. exact Hnames.
    + rewrite !(creation_invalid _ _ _ _ _ Hv Hne). auto.
Qed.

Lemma create_conflict_after_validation_witness :
  InMemory.serve demo_process demo_environment products_create
    (as_bob (Obj (<["sku" := Str "SKU-0001"]> (own_props mouse))) "") demo_store
  = (sku_exists demo_environment
       (as_bob (Obj (<["sku" := Str "SKU-0001"]> (own_props mouse))) ""),
     demo_store).
Proof.
  refine (proj1 (proj1 (create_conflict_after_validation demo_process demo_environment
            users (as_bob (Obj (<["sku" := Str "SKU-0001"]> (own_props mouse))) "")
            (set_user (as_bob (Obj (<["sku" := Str "SKU-0001"]> (own_props mouse))) "")
               (jwt.payload bob_token))
            demo_store _)
            {[ "id" := Str "p-1"; "name" := Str "Laptop X"; "sku" := Str "SKU-0001";
               "price" := Num (of_decimal false 99999 (-2)); "stock" := Num (of_Z 5);
               "category" := Str "computers" ]}
            _ _ _)).
  - vm_compute. reflexivity.
  - left. reflexivity.
  - vm_compute. reflexivity.
  - vm_compute. reflexivity.
Defined.

(** ** The sku invariant *)

Lemma same_sku_sym (p q : object) : same_sku p q = same_sku q p.
Proof. apply strict_equals_sym. Qed.

Lemma sku_unique_distinct (st : store) : sku_unique st = true <-> distinct st.
Proof.
  induction st as [|p rest IH]; simpl; [tauto|].
  rewrite andb_true_iff, IH, forallb_forall, Forall_forall.
  split; intros [H1 H2]; split; auto; intros q Hq.
  - apply list_elem_of_In, H1 in Hq. now apply Bool.negb_true_iff.
  - apply list_elem_of_In, H1 in Hq. now apply Bool.negb_true_iff.
Qed.

(** The invariant says what it should: the products at two different
    positions never have strictly equal skus. *)
Lemma distinct_lookup (st : store) :
  distinct st <->
  forall i j p q, i <> j -> st !! i = Some p -> st !! j = Some q -> same_sku p q = false.
Proof.
  induction st as [|p0 rest IH]; simpl.
  - split; [intros _ i j p q _ H; destruct i; discriminate|tauto].
  - rewrite IH, Forall_lookup. split.
    + intros [Hhd Htl] i j p q Hij Hi Hj.
      destruct i as [|i], j as [|j]; simpl in *; try congruence.
      * injection Hi as <-. eauto.
      * injection Hj as <-. rewrite same_sku_sym. eauto.
      * eapply Htl; [|eassumption|eassumption]. congruence.
    + intros H. split.
      * intros i q Hq. apply (H 0%nat (S i)); [discriminate|reflexivity|exact Hq].
      * intros i j p q Hij Hi Hj. apply (H (S i) (S j)); [congruence|exact Hi|exact Hj].
Qed.

Lemma distinct_sublist (l1 l2 : store) :
  sublist l1 l2 -> distinct l2 -> distinct l1.
Proof.
  induction 1 as [|x l1 l2 Hs IH|x l1 l2 Hs IH]; simpl; [tauto| |tauto].
  intros [Hhd Htl]. split; [|auto].
  rewrite Forall_forall in *. intros q Hq. apply Hhd. eapply elem_of_sublist; eauto.
Qed.

Lemma distinct_snoc (st : store) (e : object) :
  distinct st -> some_sku st (field e "sku") = false -> distinct (st ++ [e]).
Proof.
  unfold some_sku. induction st as [|p rest IH]; simpl.
  - intros _ _. split; [constructor|exact I].
  - intros [Hhd Htl] Hno. apply orb_false_elim in Hno as [Hp Hrest].
    split; [|auto]. apply Forall_app. split; [exact Hhd|].
    constructor; [exact Hp|constructor].
Qed.

Lemma distinct_insert (st : store) (i : nat) (u : object) :
  distinct st ->
  (forall j q, j <> i -> st !! j = Some q -> same_sku u q = false) ->
  distinct (<[i := u]> st).
Proof.
  revert i. induction st as [|p rest IH]; intros i; simpl; [tauto|].
  intros [Hhd Htl] Hu. destruct i as [|i]; simpl.
  - split; [|exact Htl]. apply Forall_lookup. intros j q Hq.
    apply (Hu (S j)); [discriminate|exact Hq].
  - split.
    + apply Forall_insert; [exact Hhd|].
      rewrite same_sku_sym. apply (Hu 0%nat); [discriminate|reflexivity].
    + apply IH; [exact Htl|]. intros j q Hj Hq. apply (Hu (S j)); [congruence|exact Hq].
Qed.

Lemma findIndex_Some {A} (f : A -> bool) (l : list A) (i : nat) :
  findIndex f l = Some i -> exists x, l !! i = Some x /\ f x = true.
Proof.
  revert i. induction l as [|x l IH]; intros i; simpl; [discriminate|].
  destruct (f x) eqn:Hx.
  - intros [= <-]. eauto.
  - destruct (findIndex f l) as [k|]; [|discriminate].
    intros [= <-]. destruct (IH k eq_refl) as (y & Hy & Hfy). eauto.
Qed.

Lemma some_sku_false (st : store) (sku : value) (j : nat) (q : object) :
  some_sku st sku = false -> st !! j = Some q ->
  strict_equals (field q "sku") sku = false.
Proof.
  unfold some_sku. intros H Hq.
  destruct (strict_equals (field q "sku") sku) eqn:Heq; [|reflexivity].
  rewrite <- H. symmetry. apply existsb_exists. exists q. split; [|exact Heq].
  apply list_elem_of_In, list_elem_of_lookup. eauto.
Qed.

Lemma field_spread (current props : object) (k : string) :
  field (spread current props) k =
    match props !! k with
    | Some v => v
    | None => field current k
    end.
Proof.
  unfold field, spread. destruct (props !! k) as [v|] eqn:Hk.
  - now rewrite (lookup_union_Some_l _ _ _ _ Hk).
  - now rewrite (lookup_union_r _ _ _ Hk).
Qed.

Lemma Get_opt_own (b : value) (k : string) (v : value) :
  own_props b !! k = Some v -> Get_opt b k = v.
Proof.
  destruct b; simpl; try (rewrite lookup_empty; discriminate);
    unfold field; intros ->; reflexivity.
Qed.

Lemma field_new_entity_sku (E : environment) (name sku : value) (p s : number)
    (category : value) :
  field (new_entity E name sku p s category) "sku" = sku.
Proof. reflexivity. Qed.

Lemma field_updated_product_sku (current merged : object) (p s : number) :
  field (updated_product current merged p s) "sku" = field merged "sku".
Proof. unfold updated_product. rewrite field_spread. reflexivity. Qed.

Lemma field_merged_product_sku (current merged : object) (p s : number) :
  field (merged_product current merged p s) "sku" = field merged "sku".
Proof. unfold merged_product. rewrite !field_insert_ne by discriminate. reflexivity. Qed.

Section Preservation.

Variable E : environment.
Variable finish : response -> store -> completion response * store.
Hypothesis finish_store : forall res st, snd (finish res st) = st.

Lemma creation_distinct (req : request) (st : store) :
  distinct st -> distinct (snd (creation E finish req st)).
Proof.
  intros Hd. unfold creation.
  destruct (validateProduct _) as [errors|e]; [|exact Hd].
  destruct (is_nil errors); [|exact Hd].
  unfold created. destruct (some_sku st _) eqn:Hsku; [exact Hd|].
  destruct (ToNumber (field _ "price")) as [p|e]; [|exact Hd].
  destruct (ToNumber (field _ "stock")) as [s|e]; [|exact Hd].
  simpl. rewrite finish_store. apply distinct_snoc; [exact Hd|].
  rewrite field_new_entity_sku. exact Hsku.
Qed.

Variable store_as : object -> object -> number -> number -> object.
Hypothesis store_as_sku : forall current merged p s,
  field (store_as current merged p s) "sku" = field merged "sku".

Lemma update_distinct (req : request) (st : store) :
  distinct st -> distinct (snd (update E store_as finish req st)).
Proof.
  intros Hd. unfold update.
  destruct (index_of_id st req) as [idx|] eqn:Hidx; [|exact Hd].
  apply findIndex_Some in Hidx as (current & Hcur & _).
  unfold update_of. rewrite Hcur. simpl.
  destruct (validateProduct _) as [[|err errors]|e] eqn:Hv; [|exact Hd|exact Hd].
  apply validateProduct_passes in Hv as (p0 & s0 & Hvalid); [|reflexivity].
  destruct Hvalid as [_ _ Hsku _ _ _ _ _ _]. simpl in Hsku.
  simpl. destruct (sku_taken st current req) eqn:Htaken; [exact Hd|].
  destruct (ToNumber (field _ "price")) as [p|e]; [|exact Hd].
  destruct (ToNumber (field _ "stock")) as [s|e]; [|exact Hd].
  rewrite finish_store. apply distinct_insert; [exact Hd|].
  intros j q Hj Hq. unfold same_sku. rewrite store_as_sku.
  rewrite field_spread in Hsku |- *.
  destruct (own_props (body req) !! "sku") as [v|] eqn:Hown.
  - unfold sku_taken in Htaken. rewrite (Get_opt_own _ _ _ Hown), Hsku in Htaken.
    simpl in Htaken. apply andb_false_iff in Htaken as [Hsame|Hnone].
    + apply Bool.negb_false_iff in Hsame.
      rewrite (strict_equals_congr _ _ _ Hsame).
      apply (proj1 (distinct_lookup st) Hd idx j); auto.
    + rewrite strict_equals_sym. eapply some_sku_false; eauto.
  - apply (proj1 (distinct_lookup st) Hd idx j); auto.
Qed.

Lemma deletion_distinct (req : request) (st : store) :
  distinct st -> distinct (snd (deletion E finish req st)).
Proof.
  intros Hd. unfold deletion.
  destruct (index_of_id st req) as [idx|]; [|exact Hd].
  rewrite finish_store. eapply distinct_sublist; [apply sublist_delete|exact Hd].
Qed.

End Preservation.

Lemma send_store (res : response) (st : store) : snd (send res st) = st.
Proof. reflexivity. Qed.

Lemma persist_store (E : environment) (res : response) (st : store) :
  snd (persist E res st) = st.
Proof. unfold persist. destruct (write_error E); reflexivity. Qed.

Lemma Index_delete_product_distinct (E : environment) (req : request) (st : store) :
  distinct st -> distinct (snd (Index.delete_product E req st)).
Proof.
  intros Hd. unfold Index.delete_product. unfold_M.
  match goal with |- context [filter ?P st] => set (kept := filter P st) end.
  assert (distinct kept) as Hk
    by (eapply distinct_sublist; [apply sublist_filter|exact Hd]).
  destruct (length kept =? length st)%nat; exact Hk.
Qed.

(** The handlers that only read leave the store as it is. *)
Lemma get_ping_store (E : environment) (req : request) (st : store) :
  snd (get_ping E req st) = st.
Proof. reflexivity. Qed.

Lemma get_products_store (E : environment) (req : request) (st : store) :
  snd (get_products E req st) = st.
Proof. reflexivity. Qed.

Lemma get_product_store (E : environment) (req : request) (st : store) :
  snd (get_product E req st) = st.
Proof. unfold get_product. unfold_M. destruct (find _ st); reflexivity. Qed.

Lemma post_auth_login_store (P : process) (E : environment) (req : request)
    (st : store) :
  snd (post_auth_login P E req st) = st.
Proof.
  unfold post_auth_login. unfold_M.
  destruct (Get _ "username"); [|reflexivity].
  destruct (Get _ "password"); [|reflexivity].
  destruct (_ || _); reflexivity.
Qed.

Lemma Persisted_post_auth_login_store (P : process) (E : environment)
    (users : list user_record) (req : request) (st : store) :
  snd (Persisted.post_auth_login P E users req st) = st.
Proof.
  unfold Persisted.post_auth_login. unfold_M.
  destruct (Get _ "username"); [|reflexivity].
  destruct (Get _ "password"); [|reflexivity].
  destruct (Get _ "secret"); [|reflexivity].
  destruct (_ || _); reflexivity.
Qed.

Lemma route_invariant (I : store -> Prop) (gates : list middleware) (h : handler)
    (on_error : error_handler) :
  (forall req st, I st -> I (snd (h req st))) ->
  forall req st, I st -> I (snd (route gates h on_error req st)).
Proof.
  intros Hh. induction gates as [|g gates IH]; intros req st Hst; simpl.
  - specialize (Hh req st Hst). destruct (h req st) as [[res|err] st']; exact Hh.
  - destruct (g req) as [req'|err]; [apply IH|]; exact Hst.
Qed.

Lemma InMemory_serve_distinct (P : process) (E : environment) (ep : endpoint)
    (req : request) (st : store) :
  distinct st -> distinct (snd (InMemory.serve P E ep req st)).
Proof.
  apply route_invariant. clear req st. intros req st Hd. destruct ep; simpl.
  - exact Hd.
  - now rewrite post_auth_login_store.
  - exact Hd.
  - now rewrite get_product_store.
  - rewrite post_products_eq. now apply creation_distinct.
  - rewrite InMemory_put_product_eq.
    apply update_distinct; auto using field_updated_product_sku.
  - rewrite InMemory_delete_product_eq. now apply deletion_distinct.
Qed.

Lemma Index_serve_distinct (P : process) (E : environment) (ep : endpoint)
    (req : request) (st : store) :
  distinct st -> distinct (snd (Index.serve P E ep req st)).
Proof.
  apply route_invariant. clear req st. intros req st Hd. destruct ep; simpl.
  - exact Hd.
  - now rewrite post_auth_login_store.
  - exact Hd.
  - now rewrite get_product_store.
  - rewrite post_products_eq. now apply creation_distinct.
  - rewrite Index_put_product_eq.
    apply update_distinct; auto using field_merged_product_sku.
  - now apply Index_delete_product_distinct.
Qed.

Lemma Persisted_serve_distinct (P : process) (E : environment)
    (users : list user_record) (ep : endpoint) (req : request) (st : store) :
  distinct st -> distinct (snd (Persisted.serve P E users ep req st)).
Proof.
  apply route_invariant. clear req st. intros req st Hd. destruct ep; simpl.
  - exact Hd.
  - now rewrite Persisted_post_auth_login_store.
  - exact Hd.
  - now rewrite get_product_store.
  - rewrite Persisted_post_products_eq.
    apply creation_distinct; auto using persist_store.
  - rewrite Persisted_put_product_eq.
    apply update_distinct; auto using persist_store, field_updated_product_sku.
  - rewrite Persisted_delete_product_eq.
    apply deletion_distinct; auto using persist_store.
Qed.

Lemma run_distinct
    (serve : environment -> endpoint -> request -> store -> response * store) :
  (forall E ep req st, distinct st -> distinct (snd (serve E ep req st))) ->
  forall t st, distinct st -> distinct (run serve t st).
Proof.
  intros Hs t. induction t as [|[[E ep] req] t IH]; intros st Hd; simpl; auto.
Qed.

Lemma sku_unique_pairwise (st : store) :
  sku_unique st = true <-> pairwise_distinct st.
Proof.
  rewrite sku_unique_distinct, distinct_lookup. unfold pairwise_distinct, same_sku.
  split; intros H i j p q Hij Hp Hq.
  - pose proof (H i j p q Hij Hp Hq) as Hne. split; [exact Hne|].
    intros s Hs Hs'. rewrite Hs, Hs' in Hne. simpl in Hne.
    rewrite String.eqb_refl in Hne. discriminate.
  - apply (H i j p q Hij Hp Hq).
Qed.

Lemma some_sku_Arr (st : store) (l : list value) : some_sku st (Arr l) = false.
Proof.
  unfold some_sku. induction st as [|p st IH]; simpl; [reflexivity|].
  rewrite IH. destruct (field p "sku"); reflexivity.
Qed.

Lemma InMemory_create_appends (P : process) (E : environment) (req req' : request)
    (st : store) (p s : number) :
  run_gates (gates P E products_create) req = next req' ->
  validateProduct (or_else (body req) (Obj ∅)) = Normal [] ->
  some_sku st (field (own_props (or_else (body req) (Obj ∅))) "sku") = false ->
  ToNumber (field (own_props (or_else (body req) (Obj ∅))) "price") = Normal p ->
  ToNumber (field (own_props (or_else (body req) (Obj ∅))) "stock") = Normal s ->
  InMemory.serve P E products_create req st
  = (res_json 201
       (ok E req
          (Value (Obj (new_entity E
                         (field (own_props (or_else (body req) (Obj ∅))) "name")
                         (field (own_props (or_else (body req) (Obj ∅))) "sku") p s
                         (field (own_props (or_else (body req) (Obj ∅))) "category"))))
          no_meta),
     st ++ [new_entity E (field (own_props (or_else (body req) (Obj ∅))) "name")
              (field (own_props (or_else (body req) (Obj ∅))) "sku") p s
              (field (own_props (or_else (body req) (Obj ∅))) "category")]).
Proof.
  intros Hpass Hv Hsku Hp Hs.
  rewrite (InMemory_serve_pass _ _ _ _ _ _ Hpass). simpl. rewrite post_products_eq.
  unfold creation. rewrite Hv. simpl. unfold created. rewrite Hsku, Hp, Hs. reflexivity.
Qed.

(** C2, counterexample: the store of the demo holds one product, so no
    two of its products share a sku; the same create request, with the
    array [["SKU-0002"]] for sku, is then answered 201 twice, and the store
    holds two products with this sku. *)
Lemma array_sku_is_stored_twice :
  ~ shares_sku demo_store
  /\ status (fst (InMemory.serve demo_process demo_environment products_create
                    (as_bob array_sku_mouse "") demo_store)) = 201
  /\ status (fst (InMemory.serve demo_process later_environment products_create
                    (as_bob array_sku_mouse "")
                    (snd (InMemory.serve demo_process demo_environment products_create
                            (as_bob array_sku_mouse "") demo_store)))) = 201
  /\ shares_sku (run (InMemory.serve demo_process) array_sku_trace demo_store).
Proof.
  assert (forall E st,
            E = demo_environment \/ E = later_environment ->
            InMemory.serve demo_process E products_create (as_bob array_sku_mouse "") st
            = (res_json 201
                 (ok E (as_bob array_sku_mouse "")
                    (Value (Obj (new_entity E (Str "Mouse") (Arr [Str "SKU-0002"])
                                   (of_decimal false 1999 (-2)) (of_Z 10)
                                   (Str "peripherals"))))
                    no_meta),
               st ++ [new_entity E (Str "Mouse") (Arr [Str "SKU-0002"])
                        (of_decimal false 1999 (-2)) (of_Z 10) (Str "peripherals")]))
    as Hcreate.
  { intros E st HE.
    apply (InMemory_create_appends demo_process E (as_bob array_sku_mouse "")
             (set_user (as_bob array_sku_mouse "") (jwt.payload bob_token)) st
             (of_decimal false 1999 (-2)) (of_Z 10)).
    - destruct HE as [->| ->]; reflexivity.
    - vm_compute. reflexivity.
    - apply some_sku_Arr.
    - reflexivity.
    - reflexivity. }
  split_and!.
  - intros (i & j & p & q & Hij & Hp & Hq & _).
    apply lookup_lt_Some in Hp, Hq. simpl in Hp, Hq. lia.
  - rewrite Hcreate by auto. reflexivity.
  - rewrite !Hcreate by auto. reflexivity.
  - unfold array_sku_trace. cbn [run]. rewrite !Hcreate by auto. cbn [snd].
    eexists 1%nat, 2%nat, _, _. split; [lia|]. split; [reflexivity|].
    split; [reflexivity|]. reflexivity.
Qed.

(** C2, amended: from a store in which no two products have strictly
    equal skus ([===]), every sequence of requests leads to such a store
    again, whatever the routes (create, update, delete and the others),
    the requests and the outcomes of the gates, in the three revisions: at
    every moment no two products have strictly equal skus, and so no two
    products hold the same text as sku. *)
Theorem sku_unique_preserved (P : process) (users : list user_record) (t : trace)
    (st : store) :
  sku_unique st = true ->
  (sku_unique (run (InMemory.serve P) t st) = true
   /\ pairwise_distinct (run (InMemory.serve P) t st))
  /\ (sku_unique (run (Index.serve P) t st) = true
      /\ pairwise_distinct (run (Index.serve P) t st))
  /\ (sku_unique (run (fun E => Persisted.serve P E users) t st) = true
      /\ pairwise_distinct (run (fun E => Persisted.serve P E users) t st)).
Proof.
  intros Hst.
  assert (forall serve,
            (forall E ep req st, distinct st -> distinct (snd (serve E ep req st))) ->
            sku_unique (run serve t st) = true /\ pairwise_distinct (run serve t st))
    as Hall.
  { intros serve Hserve.
    assert (sku_unique (run serve t st) = true) as Hrun.
    { apply sku_unique_distinct, run_distinct; [exact Hserve|].
      now apply sku_unique_distinct. }
    split; [exact Hrun|]. now apply sku_unique_pairwise. }
  split; [|split]; apply Hall; intros.
  - now apply InMemory_serve_distinct.
  - now apply Index_serve_distinct.
  - now apply Persisted_serve_distinct.
Qed.

(** ** Login *)

Lemma find_user_Some (users : list user_record) (username password : value)
    (u : user_record) :
  find_user users username password = Some u ->
  In u users /\ matches u username password.
Proof.
  unfold find_user. intros H. apply find_some in H as [Hin Hm].
  apply andb_prop in Hm as [Hu Hp].
  apply strict_equals_Str in Hu, Hp. now repeat split.
Qed.

Lemma find_user_None (users : list user_record) (username password : value) :
  find_user users username password = None ->
  forall u, In u users -> ~ matches u username password.
Proof.
  unfold find_user. intros H u Hin [Hu Hp].
  pose proof (find_none _ _ H u Hin) as Hf. cbv beta in Hf.
  rewrite (proj2 (strict_equals_Str _ _) Hu), (proj2 (strict_equals_Str _ _) Hp) in Hf.
  discriminate.
Qed.

Lemma login_token_for (P : process) (E : environment) (req : request)
    (u : user_record) :
  token_for P E req u (res_json 200 (ok E req (TokenData (login_token P E u)) no_meta)).
Proof.
  exists (login_token P E u). repeat split.
  intros t Ht. unfold JWTGenerator.verifyToken, login_token,
    JWTGenerator.generateToken, jwt.sign, jwt.verify, jwt.check_nbf, jwt.check_exp.
  simpl. rewrite bool_decide_true by reflexivity.
  destruct (Z.leb_spec (now E + default 7200 (JWT_EXPIRES P)) t); [lia|reflexivity].
Qed.

Lemma credentials_found (P : process) (E : environment) (users : list user_record)
    (req : request) (username password : value) (u : user_record) :
  In u users -> matches u username password ->
  exists u', In u' users /\ matches u' username password
             /\ token_for P E req u' (credentials P E users req username password).
Proof.
  intros Hin Hm. unfold credentials.
  destruct (find_user users username password) as [u'|] eqn:Hf.
  - apply find_user_Some in Hf as [Hin' Hm']. exists u'.
    repeat split; try assumption; try apply Hm'. apply login_token_for.
  - exfalso. exact (find_user_None _ _ _ Hf u Hin Hm).
Qed.

Lemma credentials_not_found (P : process) (E : environment)
    (users : list user_record) (req : request) (username password : value) :
  (forall u, In u users -> ~ matches u username password) ->
  credentials P E users req username password
  = res_json 401 (fail E req 401 "UNAUTHORIZED" "Invalid credentials" no_details).
Proof.
  intros Hno. unfold credentials.
  destruct (find_user users username password) as [u|] eqn:Hf; [|reflexivity].
  apply find_user_Some in Hf as [Hin Hm]. destruct (Hno u Hin Hm).
Qed.

Lemma api_key_passes (P : process) (E : environment) (req : request) :
  header_x_api_key req = Some (APIKeyGenerator.apiKey (apiKeyGen P)) ->
  run_gates (gates P E auth_login) req = next req.
Proof.
  intros H. simpl. unfold requireApiKey, APIKeyGenerator.validateAPIKey.
  rewrite H, String.eqb_refl. reflexivity.
Qed.

(** C3, counterexample: in the persisted revision a body with the user
    name and the password of a stored user, and the right API key, is
    answered 400 when it carries no [secret]. *)
Lemma login_without_secret_is_400 :
  find_user users (Str "alice") (Str "alice123")
  = Some {| id := "u1"; user_username := "alice"; user_password := "alice123";
            user_role := "admin" |}
  /\ Persisted.serve demo_process demo_environment users auth_login
       (login_request "4f1c"
          (Obj {[ "username" := Str "alice"; "password" := Str "alice123" ]}))
       demo_store
     = (res_json 400
          (fail demo_environment
             (login_request "4f1c"
                (Obj {[ "username" := Str "alice"; "password" := Str "alice123" ]}))
             400 "BAD_REQUEST" "username, password and secret required" no_details),
        demo_store).
Proof. vm_compute. split; reflexivity. Qed.

(** C3, amended: for a login request with the right API key, in
    [index.js] and in the in-memory revision a falsy (missing or empty)
    user name or password gives 400 BAD_REQUEST; otherwise credentials
    that match a stored user give 200 with a token that decodes to the
    identifier and the role of a stored user with these credentials, and
    credentials that match no stored user give 401 UNAUTHORIZED, a failure
    envelope without a token. The persisted revision does the same, but it
    also requires a non-empty [secret] in the body, and answers 400 without
    it. The store is never changed. *)
Theorem login_outcomes (P : process) (E : environment) (stored : list user_record)
    (req : request) (st : store) :
  header_x_api_key req = Some (APIKeyGenerator.apiKey (apiKeyGen P)) ->
  login_answers P E req st users
    (ToBoolean (field (own_props (or_else (body req) (Obj ∅))) "username")
     && ToBoolean (field (own_props (or_else (body req) (Obj ∅))) "password"))
    "username and password required" (InMemory.serve P E auth_login req st)
  /\ login_answers P E req st users
       (ToBoolean (field (own_props (or_else (body req) (Obj ∅))) "username")
        && ToBoolean (field (own_props (or_else (body req) (Obj ∅))) "password"))
       "username and password required" (Index.serve P E auth_login req st)
  /\ login_answers P E req st stored
       (ToBoolean (field (own_props (or_else (body req) (Obj ∅))) "username")
        && ToBoolean (field (own_props (or_else (body req) (Obj ∅))) "password")
        && ToBoolean (field (own_props (or_else (body req) (Obj ∅))) "secret"))
       "username, password and secret required"
       (Persisted.serve P E stored auth_login req st).
Proof.
  intros Hkey. pose proof (api_key_passes P E req Hkey) as Hpass.
  unfold login_answers. cbv zeta.
  rewrite (InMemory_serve_pass _ _ _ _ _ _ Hpass), (Index_serve_pass _ _ _ _ _ _ Hpass),
    (Persisted_serve_pass _ _ _ _ _ _ _ Hpass).
  cbn [InMemory.handler_of Index.handler_of Persisted.handler_of].
  unfold post_auth_login, Persisted.post_auth_login. unfold_M.
  rewrite !(Get_truthy _ _ (or_else_object_truthy (body req))).
  set (b := own_props (or_else (body req) (Obj ∅))).
  destruct (ToBoolean (field b "username")), (ToBoolean (field b "password"));
    cbn [negb orb andb fst snd answer]; repeat split;
    try discriminate; try reflexivity;
    try (intros _; apply credentials_found); try (intros _; apply credentials_not_found);
    destruct (ToBoolean (field b "secret")); cbn [negb orb andb fst snd answer];
    try discriminate; try reflexivity;
    try (intros _; apply credentials_found); try (intros _; apply credentials_not_found).
Qed.

(** ** Persistence failures *)

Lemma ToNumber_Throw (v : value) (e : exn) :
  ToNumber v = Throw e -> exists name m, e = Error name m.
Proof.
  unfold ToNumber. destruct (to_primitive_throws v); [|discriminate].
  intros [= <-]. unfold TypeError. eauto.
Qed.

Lemma validateProduct_Throw (payload : value) (e : exn) :
  ToBoolean payload = true ->
  validateProduct payload = Throw e -> exists name m, e = Error name m.
Proof.
  intros Ht. rewrite (validateProduct_truthy _ Ht).
  destruct (ToNumber (field _ "price")) as [p|e1] eqn:Hp.
  - destruct (ToNumber (field _ "stock")) as [s|e2] eqn:Hs; [discriminate|].
    simpl. intros [= <-]. eapply ToNumber_Throw; eauto.
  - simpl. intros [= <-]. eapply ToNumber_Throw; eauto.
Qed.

Lemma creation_cases (E : environment) (req : request) (st : store) :
  mutation_cases (fun finish => creation E finish req st) st 201
    (fun n n' => n' = S n).
Proof.
  unfold mutation_cases, creation.
  destruct (validateProduct _) as [errors|e] eqn:Hv.
  - destruct errors as [|err errors]; simpl.
    + unfold created. destruct (some_sku st _).
      * left. eexists. split; [reflexivity|]. simpl. auto.
      * destruct (ToNumber (field _ "price")) as [p|e] eqn:Hp.
        -- destruct (ToNumber (field _ "stock")) as [s|e] eqn:Hs.
           ++ right. do 2 eexists. split; [reflexivity|].
              split; [reflexivity|]. cbv beta. rewrite length_app. simpl. lia.
           ++ left. eexists. split; [reflexivity|]. eapply ToNumber_Throw; eauto.
        -- left. eexists. split; [reflexivity|]. eapply ToNumber_Throw; eauto.
    + left. eexists. split; [reflexivity|]. simpl. auto.
  - left. eexists. split; [reflexivity|].
    eapply validateProduct_Throw; [apply or_else_object_truthy|eauto].
Qed.

Lemma update_cases (E : environment)
    (store_as : object -> object -> number -> number -> object)
    (req : request) (st : store) :
  mutation_cases (fun finish => update E store_as finish req st) st 200
    (fun n n' => n' = n).
Proof.
  unfold mutation_cases, update.
  destruct (index_of_id st req) as [idx|].
  - unfold update_of.
    destruct (validateProduct _) as [errors|e] eqn:Hv.
    + destruct errors as [|err errors]; simpl.
      * destruct (sku_taken _ _ _).
        -- left. eexists. split; [reflexivity|]. simpl. auto.
        -- destruct (ToNumber (field _ "price")) as [p|e] eqn:Hp.
           ++ destruct (ToNumber (field _ "stock")) as [s|e] eqn:Hs.
              ** right. do 2 eexists. split; [reflexivity|].
                 split; [reflexivity|]. cbv beta. now rewrite length_insert.
              ** left. eexists. split; [reflexivity|]. eapply ToNumber_Throw; eauto.
           ++ left. eexists. split; [reflexivity|]. eapply ToNumber_Throw; eauto.
      * left. eexists. split; [reflexivity|]. simpl. auto.
    + left. eexists. split; [reflexivity|].
      eapply validateProduct_Throw; [|exact Hv]. reflexivity.
  - left. eexists. split; [reflexivity|]. simpl. auto.
Qed.

Lemma findIndex_lt {A} (f : A -> bool) (l : list A) (i : nat) :
  findIndex f l = Some i -> (i < length l)%nat.
Proof.
  intros H. apply findIndex_Some in H as (x & Hx & _).
  eapply lookup_lt_Some; eauto.
Qed.

Lemma deletion_cases (E : environment) (req : request) (st : store) :
  mutation_cases (fun finish => deletion E finish req st) st 204
    (fun n n' => n = S n').
Proof.
  unfold mutation_cases, deletion.
  destruct (index_of_id st req) as [idx|] eqn:Hidx.
  - right. do 2 eexists. split; [reflexivity|]. split; [reflexivity|]. cbv beta.
    apply findIndex_lt in Hidx. rewrite length_delete by (apply lookup_lt_is_Some; lia).
    lia.
  - left. eexists. split; [reflexivity|]. simpl. auto.
Qed.

Lemma Persisted_mutation_cases (P : process) (E : environment)
    (users : list user_record) (ep : endpoint) (req : request) (st : store) :
  mutating ep = true ->
  exists run,
    mutation_cases run st (success_code ep) (mutates ep)
    /\ forall w, Persisted.handler_of P (with_disk E w) users ep req st
                 = run (persist (with_disk E w)).
Proof.
  destruct ep; try discriminate; intros _.
  - exists (fun finish => creation E finish req st). split; [apply creation_cases|].
    intros w. simpl. now rewrite Persisted_post_products_eq.
  - exists (fun finish => update E updated_product finish req st).
    split; [apply update_cases|].
    intros w. simpl. now rewrite Persisted_put_product_eq.
  - exists (fun finish => deletion E finish req st). split; [apply deletion_cases|].
    intros w. simpl. now rewrite Persisted_delete_product_eq.
Qed.

Lemma with_disk_id (E : environment) : with_disk E (write_error E) = E.
Proof. destruct E; reflexivity. Qed.

(** C4: in the persisted revision, when a create, update or delete
    request would succeed with a working disk (201, 200, 204) and the write
    of the products file fails with message [m], the request is answered
    500 with the message of the persistence error, and the store in memory
    is the mutated store, the very one the successful run leaves: one
    product more after a create, one less after a delete. *)
Theorem persistence_failure_keeps_mutation (P : process) (E : environment)
    (users : list user_record) (ep : endpoint) (req req' : request) (st : store)
    (m : string) :
  mutating ep = true ->
  run_gates (gates P E ep) req = next req' ->
  write_error E = Some m ->
  status (fst (Persisted.serve P (with_disk E None) users ep req st))
    = success_code ep ->
  Persisted.serve P E users ep req st
    = (res_json 500
         (fail E req 500 "ERROR" ("Error guardando datos: " +:+ m) (Obj ∅)),
       snd (Persisted.serve P (with_disk E None) users ep req st))
  /\ mutates ep (length st)
       (length (snd (Persisted.serve P (with_disk E None) users ep req st))).
Proof.
  intros Hep Hpass Hm.
  destruct (Persisted_mutation_cases P E users ep req st Hep) as (run & Hcases & Hrun).
  assert (run_gates (gates P (with_disk E None) ep) req = next req') as Hpass'
    by exact Hpass.
  rewrite (Persisted_serve_pass _ _ _ _ _ _ _ Hpass'), (Hrun None).
  rewrite (Persisted_serve_pass _ _ _ _ _ _ _ Hpass).
  pose proof (Hrun (Some m)) as Hfail. rewrite <- Hm, with_disk_id in Hfail.
  rewrite Hfail.
  destruct Hcases as [(r & Heq & Hrej)|(res & st' & Heq & Hcode & Hgrows)];
    rewrite !Heq.
  - intros Hok. exfalso. destruct r as [res|e]; simpl in *.
    + destruct ep; try discriminate; simpl in Hok; lia.
    + destruct Hrej as (name & msg & ->). destruct ep; discriminate.
  - intros _. unfold persist. rewrite Hm. simpl. split; [reflexivity|exact Hgrows].
Qed.

(** ** Token verification *)

Lemma verify_Normal (secret : string) (tok : jwt.token) (t : Z) (c : jwt.claims) :
  jwt.verify tok secret t = Normal c <->
  exists j, tok = jwt.Compact j /\ jwt.signing_key j = Some secret
            /\ started (jwt.payload j) t /\ unexpired (jwt.payload j) t
            /\ c = jwt.payload j.
Proof.
  unfold jwt.verify, jwt.check_nbf, jwt.check_exp, started, unexpired. split.
  - destruct tok as [s|j]; [discriminate|].
    destruct (bool_decide_reflect (jwt.signing_key j = Some secret)) as [Hk|Hk];
      [|discriminate].
    intros H. exists j. split; [reflexivity|]. split; [exact Hk|]. revert H.
    destruct (jwt.nbf (jwt.payload j)) as [[n|]|]; [destruct (Z.ltb_spec t n)| |];
      try discriminate.
    all: destruct (jwt.exp (jwt.payload j)) as [[e|]|]; [destruct (Z.leb_spec e t)| |];
      try discriminate.
    all: intros [= <-]; split_and!; auto.
  - intros (j & -> & Hk & Hn & He & ->). rewrite bool_decide_true by exact Hk.
    destruct (jwt.nbf (jwt.payload j)) as [[n|]|]; [destruct (Z.ltb_spec t n)| |];
      try contradiction; try lia.
    all: destruct (jwt.exp (jwt.payload j)) as [[e|]|]; [destruct (Z.leb_spec e t)| |];
      try contradiction; try lia; reflexivity.
Qed.

Lemma verify_Throw (secret : string) (tok : jwt.token) (t : Z) :
  (exists err, jwt.verify tok secret t = Throw err) <->
  malformed tok \/ signature_mismatch secret tok \/ ill_dated tok
  \/ not_yet_active tok t \/ expired tok t.
Proof.
  split.
  - intros [err Hv]. destruct tok as [s|j]; [left; eexists; reflexivity|right].
    destruct (decide (jwt.signing_key j = Some secret)) as [Hk|Hk];
      [right|left; exists j; auto].
    revert Hv. unfold jwt.verify, jwt.check_nbf, jwt.check_exp.
    rewrite bool_decide_true by exact Hk.
    destruct (jwt.nbf (jwt.payload j)) as [[n|]|] eqn:Hn.
    + destruct (Z.ltb_spec t n); [intros _; right; left; exists j, n; auto|].
      destruct (jwt.exp (jwt.payload j)) as [[e|]|] eqn:He; try discriminate.
      * destruct (Z.leb_spec e t); [|discriminate].
        intros _. right. right. exists j, e. auto.
      * intros _. left. exists j. auto.
    + intros _. left. exists j. auto.
    + destruct (jwt.exp (jwt.payload j)) as [[e|]|] eqn:He; try discriminate.
      * destruct (Z.leb_spec e t); [|discriminate].
        intros _. right. right. exists j, e. auto.
      * intros _. left. exists j. auto.
  - intros H.
    destruct (jwt.verify tok secret t) as [c|err] eqn:Hv; [exfalso|eauto].
    apply verify_Normal in Hv as (j & -> & Hk & Hn & He & ->).
    unfold started, unexpired in *.
    destruct H as [(s & [=])|[(j' & [= <-] & Hne)|[(j' & [= <-] & [Hd|Hd])
                 |[(j' & n' & [= <-] & Hn' & Hlt)|(j' & e' & [= <-] & He' & Hle)]]]].
    + contradiction.
    + rewrite Hd in Hn. exact Hn.
    + rewrite Hd in He. exact He.
    + rewrite Hn' in Hn. lia.
    + rewrite He' in He. lia.
Qed.

(** C8, counterexample: a token signed with the secret of the process,
    with its expiry still to come, is rejected when its [nbf] is still to
    come too: it is neither malformed, nor wrongly signed, nor expired. *)
Lemma early_token_is_rejected :
  JWTGenerator.verifyToken (jwtGen demo_process) (jwt.Compact early_token)
    (now demo_environment) = Throw invalid_token
  /\ jwt.signing_key early_token = Some (JWTGenerator.Secret (jwtGen demo_process))
  /\ jwt.exp (jwt.payload early_token) = Some (jwt.NumericDate 1700007140)
  /\ now demo_environment < 1700007140
  /\ ~ (malformed (jwt.Compact early_token)
        \/ signature_mismatch (JWTGenerator.Secret (jwtGen demo_process))
             (jwt.Compact early_token)
        \/ expired (jwt.Compact early_token) (now demo_environment)).
Proof.
  split_and!; try reflexivity.
  intros [(s & [=])|[(j & [= <-] & Hne)|(j & e & [= <-] & [= <-] & Hle)]].
  - apply Hne. reflexivity.
  - simpl in Hle. lia.
Qed.

(** C8, amended: [verifyToken] returns the decoded claims or throws the
    [ErrorWeb] of status 401, and nothing else; it throws exactly when the
    token is malformed, its signature is not the one the secret of the
    process gives, its [nbf] or its [exp] is not a number, its [nbf] is
    still to come, or the time has reached its [exp]; a token signed with
    the secret and verified from its [nbf] on and before its [exp] is
    accepted. *)
Theorem verifyToken_outcomes (g : JWTGenerator.t) (tok : jwt.token) (t : Z) :
  ((exists c, JWTGenerator.verifyToken g tok t = Normal c
              /\ JWTGenerator.decodeToken tok = Some c)
   \/ JWTGenerator.verifyToken g tok t = Throw invalid_token)
  /\ (JWTGenerator.verifyToken g tok t = Throw invalid_token
      <-> malformed tok \/ signature_mismatch (JWTGenerator.Secret g) tok
          \/ ill_dated tok \/ not_yet_active tok t \/ expired tok t)
  /\ (forall j, tok = jwt.Compact j ->
        jwt.signing_key j = Some (JWTGenerator.Secret g) ->
        started (jwt.payload j) t -> unexpired (jwt.payload j) t ->
        JWTGenerator.verifyToken g tok t = Normal (jwt.payload j)).
Proof.
  pose proof (verify_Throw (JWTGenerator.Secret g) tok t) as Hthrow.
  unfold JWTGenerator.verifyToken.
  destruct (jwt.verify tok (JWTGenerator.Secret g) t) as [c|err] eqn:Hv.
  - pose proof (proj1 (verify_Normal _ _ _ _) Hv) as (j & -> & Hk & Hn & He & ->).
    split; [left; exists (jwt.payload j); split; reflexivity|]. split.
    + split; [discriminate|]. intros H. apply Hthrow in H as [err [=]].
    + intros j' [= <-] _ _ _. reflexivity.
  - split; [right; reflexivity|]. split.
    + split; [intros _; apply Hthrow; eauto|reflexivity].
    + intros j -> Hk Hn He.
      assert (jwt.verify (jwt.Compact j) (JWTGenerator.Secret g) t
              = Normal (jwt.payload j)) as Hok
        by (apply verify_Normal; exists j; auto).
      congruence.
Qed.

Lemma verifyToken_outcomes_witness :
  JWTGenerator.verifyToken (jwtGen demo_process) (jwt.Compact bob_token)
    (now demo_environment) = Normal (jwt.payload bob_token).
Proof.
  refine (proj2 (proj2 (verifyToken_outcomes (jwtGen demo_process)
            (jwt.Compact bob_token) (now demo_environment)))
            bob_token eq_refl eq_refl _ _).
  - exact I.
  - reflexivity.
Defined.

(** ** Gates *)

Lemma verifyToken_valid (g : JWTGenerator.t) (j : jwt.jws) (e t : Z) :
  jwt.signing_key j = Some (JWTGenerator.Secret g) ->
  started (jwt.payload j) t ->
  jwt.exp (jwt.payload j) = Some (jwt.NumericDate e) -> t < e ->
  JWTGenerator.verifyToken g (jwt.Compact j) t = Normal (jwt.payload j).
Proof.
  intros Hk Hn He Hlt. unfold JWTGenerator.verifyToken.
  rewrite (proj2 (verify_Normal (JWTGenerator.Secret g) (jwt.Compact j) t
                    (jwt.payload j))); [reflexivity|].
  exists j. split_and!; auto. unfold unexpired. rewrite He. exact Hlt.
Qed.

Lemma authJWT_accepts (P : process) (E : environment) (req : request) (j : jwt.jws)
    (e : Z) :
  header_authorization req = Some (Bearer j) ->
  jwt.signing_key j = Some (JWTGenerator.Secret (jwtGen P)) ->
  started (jwt.payload j) (now E) ->
  jwt.exp (jwt.payload j) = Some (jwt.NumericDate e) -> now E < e ->
  authJWT P E req = next (set_user req (jwt.payload j)).
Proof.
  intros Hh Hk Hn He Hlt. unfold authJWT. rewrite Hh. simpl.
  rewrite (verifyToken_valid (jwtGen P) j e (now E) Hk Hn He Hlt).
  reflexivity.
Qed.

(** C9: on every route the gates run in the order of the route: when the
    gates before [g] have passed and [g] calls [next] with an error, the
    response is the one of the error handler for this error and the store
    is untouched, whatever the gates after [g] and the handler are; the
    handler runs only when every gate has passed. In particular
    [DELETE /products/:id] with a valid token (signed with the secret of
    the process, its [nbf], if any, reached and its [exp] still to come)
    whose role is [editor] is answered 403 and removes nothing, in the
    three revisions. *)
Theorem gates_short_circuit :
  (forall (pre post : list middleware) (g : middleware) (h : handler)
          (on_error : error_handler) (req req' : request) (err : exn) (st : store),
      run_gates pre req = next req' ->
      g req' = next_err err ->
      route (pre ++ g :: post) h on_error req st = (on_error err req', st))
  /\ (forall (gates : list middleware) (h : handler) (on_error : error_handler)
             (req req' : request) (st : store),
        run_gates gates req = next req' ->
        route gates h on_error req st = answer on_error req' (h req' st))
  /\ (forall (P : process) (E : environment) (users : list user_record)
             (req : request) (j : jwt.jws) (e : Z) (st : store),
        header_authorization req = Some (Bearer j) ->
        jwt.signing_key j = Some (JWTGenerator.Secret (jwtGen P)) ->
        started (jwt.payload j) (now E) ->
        jwt.exp (jwt.payload j) = Some (jwt.NumericDate e) -> now E < e ->
        jwt.role (jwt.payload j) = "editor" ->
        InMemory.serve P E products_delete req st
        = (res_json 403 (fail E req 403 "ERROR" "Permisos insuficientes" (Obj ∅)), st)
        /\ Persisted.serve P E users products_delete req st
           = (res_json 403 (fail E req 403 "ERROR" "Permisos insuficientes" (Obj ∅)),
              st)
        /\ Index.serve P E products_delete req st
           = (res_json 403 (fail E req 403 "FORBIDDEN" "Permisos insuficientes"
                              no_details), st)).
Proof.
  split; [exact route_fail|]. split; [exact route_pass|].
  intros P E users req j e st Hh Hk Hn He Hlt Hrole.
  pose proof (authJWT_accepts P E req j e Hh Hk Hn He Hlt) as Hauth.
  assert (roleCheck ["admin"] (set_user req (jwt.payload j)) = next_err forbidden)
    as Hrc by (unfold roleCheck; simpl; rewrite Hrole; reflexivity).
  assert (run_gates [authJWT P E] req = next (set_user req (jwt.payload j))) as Hpre
    by (simpl; rewrite Hauth; reflexivity).
  unfold InMemory.serve, Persisted.serve, Index.serve.
  change (gates P E products_delete)
    with ([authJWT P E] ++ roleCheck ["admin"] :: []).
  rewrite !(route_fail _ _ _ _ _ _ _ _ _ Hpre Hrc). repeat split.
Qed.

(** ** Numbers of a created product *)

(** C10: when the payload of a create request passes validation and its
    sku is free, the product appended to the store has for price and stock
    the numbers [Number(payload.price)] and [Number(payload.stock)], and
    the response is 201 with this product (in the persisted revision when
    the products file is written). So the text ["19.99"] passes validation
    and is stored as the number 19.99, and the stock [true] passes and is
    stored as 1. *)
Theorem created_product_numbers :
  (forall (P : process) (E : environment) (users : list user_record)
          (req req' : request) (st : store),
      run_gates (gates P E products_create) req = next req' ->
      validateProduct (or_else (body req) (Obj ∅)) = Normal [] ->
      some_sku st (field (own_props (or_else (body req) (Obj ∅))) "sku") = false ->
      exists (p s : number) (entity : object),
        ToNumber (field (own_props (or_else (body req) (Obj ∅))) "price") = Normal p
        /\ ToNumber (field (own_props (or_else (body req) (Obj ∅))) "stock") = Normal s
        /\ entity !! "price" = Some (Num p)
        /\ entity !! "stock" = Some (Num s)
        /\ InMemory.serve P E products_create req st
           = (res_json 201 (ok E req (Value (Obj entity)) no_meta), st ++ [entity])
        /\ Index.serve P E products_create req st
           = (res_json 201 (ok E req (Value (Obj entity)) no_meta), st ++ [entity])
        /\ (write_error E = None ->
            Persisted.serve P E users products_create req st
            = (res_json 201 (ok E req (Value (Obj entity)) no_meta), st ++ [entity])))
  /\ validateProduct mouse_as_text = Normal []
  /\ ToNumber (Str "19.99") = Normal (of_decimal false 1999 (-2))
  /\ ToNumber (Bool true) = Normal (of_Z 1)
  /\ (exists entity : object,
        snd (InMemory.serve demo_process demo_environment products_create
               (as_bob mouse_as_text "") demo_store) = demo_store ++ [entity]
        /\ entity !! "price" = Some (Num (of_decimal false 1999 (-2)))
        /\ entity !! "stock" = Some (Num (of_Z 1))).
Proof.
  split; [|split; [|split; [|split]]].
  - intros P E users req req' st Hpass Hvalid Hfree.
    destruct (validateProduct_passes _ (or_else_object_truthy (body req)) Hvalid)
      as (p & s & Hv).
    destruct Hv as [_ _ _ Hp _ Hs _ _ _].
    set (o := own_props (or_else (body req) (Obj ∅))) in *.
    exists p, s, (new_entity E (field o "name") (field o "sku") p s (field o "category")).
    split; [exact Hp|]. split; [exact Hs|].
    split; [reflexivity|]. split; [reflexivity|].
    rewrite (InMemory_serve_pass _ _ _ _ _ _ Hpass), (Index_serve_pass _ _ _ _ _ _ Hpass),
      (Persisted_serve_pass _ _ _ _ _ _ _ Hpass).
    simpl. rewrite post_products_eq, Persisted_post_products_eq.
    unfold creation. rewrite Hvalid. simpl. unfold created. fold o.
    rewrite Hfree, Hp, Hs. unfold persist, send. simpl.
    repeat split. intros ->. reflexivity.
  - vm_compute. reflexivity.
  - vm_compute. reflexivity.
  - vm_compute. reflexivity.
  - eexists. split; [vm_compute; reflexivity|]. split; vm_compute; reflexivity.
Qed.

(** ** Listing *)

(** Every list request is answered 200 with a run of consecutive
    products of the store and the size of the whole store. *)
Lemma get_products_slice (E : environment) (req : request) (st : store) :
  exists k n : nat,
    get_products E req st
    = (Normal (res_json 200
                 (ok E req (Value (Arr (Obj <$> take n (drop k st))))
                    (Obj {[ "page" := Num (page_of req); "limit" := Num (limit_of req);
                            "total" := Num (of_Z (Z.of_nat (length st))) ]}))),
       st).
Proof. unfold get_products, slice. unfold_M. do 2 eexists. reflexivity. Qed.

(** C5, the failing input: [GET /products?page=abc] on a store of one
    product. [parseInt] gives [NaN], which [Math.max(1, NaN)] keeps: the
    page reported is [NaN], not 1, and no item is returned, although the
    first page holds the product. With [page=1] the product is listed. *)
Theorem list_page_not_a_number :
  page_of (list_request (Some "abc") None) = NaN
  /\ InMemory.serve demo_process demo_environment products_list
       (list_request (Some "abc") None) demo_store
     = (res_json 200
          (ok demo_environment (list_request (Some "abc") None) (Value (Arr []))
             (Obj {[ "page" := Num NaN; "limit" := Num (of_Z 10);
                     "total" := Num (of_Z 1) ]})),
        demo_store)
  /\ Index.serve demo_process demo_environment products_list
       (list_request (Some "abc") None) demo_store
     = InMemory.serve demo_process demo_environment products_list
         (list_request (Some "abc") None) demo_store
  /\ InMemory.serve demo_process demo_environment products_list
       (list_request (Some "1") None) demo_store
     = (res_json 200
          (ok demo_environment (list_request (Some "1") None)
             (Value (Arr (Obj <$> demo_store)))
             (Obj {[ "page" := Num (of_Z 1); "limit" := Num (of_Z 10);
                     "total" := Num (of_Z 1) ]})),
        demo_store).
Proof. vm_compute. repeat split. Qed.

(** ** What validation reports *)

(** [Number(payload.price)] throws a [TypeError] inside [validateProduct]
    when the price is an object with an own [toString] property; nothing is
    listed then, and the create request is answered 500 by the
    error-handling middleware, although the stock of the payload is
    negative. *)
Example validation_throws_on_unconvertible_price :
  validateProduct unconvertible_price
  = Throw (TypeError "Cannot convert object to primitive value")
  /\ InMemory.serve demo_process demo_environment products_create
       (as_bob unconvertible_price "") demo_store
     = (res_json 500
          (fail demo_environment (as_bob unconvertible_price "") 500 "ERROR"
             "Cannot convert object to primitive value" no_details),
        demo_store)
  /\ Persisted.serve demo_process demo_environment users products_create
       (as_bob unconvertible_price "") demo_store
     = InMemory.serve demo_process demo_environment products_create
         (as_bob unconvertible_price "") demo_store
  /\ status (fst (Index.serve demo_process demo_environment products_create
                    (as_bob unconvertible_price "") demo_store)) = 500.
Proof. vm_compute. repeat split. Qed.

(** C7, counterexample: a stock that is not an integer does not always
    fail. The payload of the scenario with [null] for stock passes
    validation, because [Number(null)] is 0: the product is created (201)
    with the stock 0. *)
Lemma null_stock_passes_validation :
  field (own_props mouse_without_stock) "stock" = Null
  /\ validateProduct mouse_without_stock = Normal []
  /\ exists entity : object,
       InMemory.serve demo_process demo_environment products_create
         (as_bob mouse_without_stock "") demo_store
       = (res_json 201
            (ok demo_environment (as_bob mouse_without_stock "") (Value (Obj entity))
               no_meta),
          demo_store ++ [entity])
       /\ entity !! "stock" = Some (Num pos_zero).
Proof.
  split; [reflexivity|]. split; [vm_compute; reflexivity|].
  eexists. split; vm_compute; reflexivity.
Qed.

Lemma In_filter_violated (payload : value) (p s : number) (f : string) :
  In f (filter (fun f => violated payload p s f = true) product_fields)
  <-> In f product_fields /\ violated payload p s f = true.
Proof. rewrite <- !list_elem_of_In, list_elem_of_filter. tauto. Qed.

(** C7, amended: for every payload (the body of a create, the merged
    record of an update) whose price and stock convert to numbers [p] and
    [s], validation checks the five rules on the converted values, name,
    sku and category truthy, [p > 0], [s] an integer [>= 0], and lists
    every violated field, and no other, in the order of the rules. A price
    that is a number not above 0 is listed, and so is a stock that is a
    number below 0 or not an integer. When a field is listed the create
    request is answered 422 with the list and the store is unchanged, and
    so is the update request of an existing product. *)
Theorem validation_reports_violations (payload : object) (p s : number) :
  ToNumber (field payload "price") = Normal p ->
  ToNumber (field payload "stock") = Normal s ->
  exists errors,
    validateProduct (Obj payload) = Normal errors
    /\ field_name <$> errors
       = filter (fun f => violated (Obj payload) p s f = true) product_fields
    /\ (forall f, In f (field_name <$> errors)
                  <-> In f product_fields /\ violated (Obj payload) p s f = true)
    /\ (forall n, payload !! "price" = Some (Num n) -> gt n pos_zero = false ->
          In "price" (field_name <$> errors))
    /\ (forall n, payload !! "stock" = Some (Num n) ->
          isInteger n = false \/ ge n pos_zero = false ->
          In "stock" (field_name <$> errors))
    /\ (errors <> [] ->
        forall (P : process) (E : environment) (users : list user_record)
               (req req' : request) (st : store),
          run_gates (gates P E products_create) req = next req' ->
          body req = Obj payload ->
          InMemory.serve P E products_create req st = (invalid_data E req errors, st)
          /\ Index.serve P E products_create req st = (invalid_data E req errors, st)
          /\ Persisted.serve P E users products_create req st
             = (invalid_data E req errors, st))
    /\ (errors <> [] ->
        forall (P : process) (E : environment) (users : list user_record)
               (req req' : request) (st : store) (idx : nat) (old : object),
          run_gates (gates P E products_update) req = next req' ->
          index_of_id st req = Some idx -> st !! idx = Some old ->
          spread old (own_props (body req)) = payload ->
          InMemory.serve P E products_update req st = (invalid_data E req errors, st)
          /\ Index.serve P E products_update req st = (invalid_data E req errors, st)
          /\ Persisted.serve P E users products_update req st
             = (invalid_data E req errors, st)).
Proof.
  intros Hp Hs.
  destruct (validateProduct_lists_violations (Obj payload) p s eq_refl eq_refl Hp Hs)
    as (errors & Hv & Hnames).
  exists errors. split; [exact Hv|]. split; [exact Hnames|].
  split; [intros f; rewrite Hnames; apply In_filter_violated|].
  split; [|split; [|split]].
  - intros n Hn Hle. rewrite Hnames. apply In_filter_violated.
    split; [unfold product_fields; simpl; tauto|].
    unfold violated. simpl. unfold field in Hp. rewrite Hn in Hp. simpl in Hp.
    injection Hp as <-. now rewrite Hle.
  - intros n Hn Hbad. rewrite Hnames. apply In_filter_violated.
    split; [unfold product_fields; simpl; tauto|].
    unfold violated. simpl. unfold field in Hs. rewrite Hn in Hs. simpl in Hs.
    injection Hs as <-. destruct Hbad as [-> | ->]; [reflexivity|].
    now rewrite andb_false_r.
  - intros Hne P E users req req' st Hpass Hbody.
    rewrite (InMemory_serve_pass _ _ _ _ _ _ Hpass), (Index_serve_pass _ _ _ _ _ _ Hpass),
      (Persisted_serve_pass _ _ _ _ _ _ _ Hpass).
    simpl. rewrite post_products_eq, Persisted_post_products_eq. unfold creation.
    rewrite Hbody. change (or_else (Obj payload) (Obj ∅)) with (Obj payload).
    rewrite Hv.
    destruct errors; [congruence|]. simpl. auto.
  - intros Hne P E users req req' st idx old Hpass Hidx Hold Hmerged.
    rewrite (InMemory_serve_pass _ _ _ _ _ _ Hpass), (Index_serve_pass _ _ _ _ _ _ Hpass),
      (Persisted_serve_pass _ _ _ _ _ _ _ Hpass).
    simpl. rewrite InMemory_put_product_eq, Index_put_product_eq,
      Persisted_put_product_eq.
    unfold update, update_of. rewrite Hidx, Hold. simpl default.
    rewrite Hmerged, Hv. destruct errors; [congruence|]. simpl. auto.
Qed.

Lemma validation_reports_violations_witness :
  ToNumber (field bad_numbers "price") = Normal (of_Z (-1))
  /\ ToNumber (field bad_numbers "stock") = Normal (of_decimal false 15 (-1))
  /\ exists errors,
       validateProduct (Obj bad_numbers) = Normal errors
       /\ field_name <$> errors = ["price"; "stock"].
Proof.
  split; [reflexivity|]. split; [reflexivity|].
  destruct (validation_reports_violations bad_numbers (of_Z (-1))
              (of_decimal false 15 (-1)) eq_refl eq_refl)
    as (errors & Hv & Hnames & _).
  exists errors. split; [exact Hv|]. rewrite Hnames. vm_compute. reflexivity.
Defined.

(** ** The frame of an update *)

Lemma field_truthy_lookup (o : object) (k : string) :
  ToBoolean (field o k) = true -> o !! k = Some (field o k).
Proof. unfold field. destruct (o !! k); [reflexivity|discriminate]. Qed.

Lemma update_succeeds (E : environment) (on_error : error_handler)
    (store_as : object -> object -> number -> number -> object)
    (req : request) (st : store) (res : response) (st' : store) :
  (forall name m, status (on_error (Error name m) req) = 500) ->
  answer on_error req (update E store_as send req st) = (res, st') ->
  status res = 200 ->
  exists idx old p s,
    st !! idx = Some old
    /\ strict_equals (field old "id") (Str (params_id req)) = true
    /\ valid_payload (Obj (spread old (own_props (body req)))) p s
    /\ st' = <[idx := store_as old (spread old (own_props (body req))) p s]> st
    /\ res = res_json 200
               (ok E req
                  (Value (Obj (store_as old (spread old (own_props (body req))) p s)))
                  no_meta).
Proof.
  intros Herr. unfold update.
  destruct (index_of_id st req) as [idx|] eqn:Hidx;
    [|simpl; intros [= <- <-]; discriminate].
  apply findIndex_Some in Hidx as (old & Hold & Hid).
  unfold update_of. rewrite Hold. simpl.
  destruct (validateProduct _) as [[|err errors]|e] eqn:Hv.
  - destruct (validateProduct_passes (Obj (spread old (own_props (body req))))
                eq_refl Hv) as (p & s & Hvalid).
    pose proof (valid_price_number _ _ _ Hvalid) as Hp.
    pose proof (valid_stock_number _ _ _ Hvalid) as Hs.
    simpl in Hp, Hs. simpl.
    destruct (sku_taken st old req); [simpl; intros [= <- <-]; discriminate|].
    rewrite Hp, Hs. simpl. intros [= <- <-] _.
    exists idx, old, p, s. auto.
  - simpl. intros [= <- <-]; discriminate.
  - apply validateProduct_Throw in Hv as (name & m & ->); [|reflexivity].
    simpl. intros [= <- <-]. rewrite Herr. discriminate.
Qed.

Lemma updated_product_frame (old payload : object) (p s : number) :
  valid_payload (Obj (spread old payload)) p s ->
  frame_of_update old payload (updated_product old (spread old payload) p s)
  /\ (forall k, ~ In k product_fields ->
        updated_product old (spread old payload) p s !! k = old !! k).
Proof.
  intros Hv.
  pose proof (valid_name _ _ _ Hv) as Hname.
  pose proof (valid_sku _ _ _ Hv) as Hsku.
  pose proof (valid_category _ _ _ Hv) as Hcat.
  pose proof (valid_price_number _ _ _ Hv) as Hp.
  pose proof (valid_stock_number _ _ _ Hv) as Hs.
  simpl in Hname, Hsku, Hcat, Hp, Hs. rewrite field_spread in Hname, Hsku, Hcat, Hp, Hs.
  assert (forall k, ~ In k product_fields ->
            updated_product old (spread old payload) p s !! k = old !! k) as Hother.
  { intros k Hk. unfold updated_product, spread. rewrite lookup_union_r; [reflexivity|].
    unfold product_fields in Hk. simpl in Hk.
    rewrite !lookup_insert_ne by intuition. apply lookup_singleton_ne. intuition. }
  split; [|exact Hother].
  unfold frame_of_update. repeat split.
  - intros k Hk Hnp Hns.
    destruct (decide (k = "name")) as [->|Hn];
      [|destruct (decide (k = "sku")) as [->|Hsk];
        [|destruct (decide (k = "category")) as [->|Hc]]].
    + rewrite Hk in Hname. unfold updated_product, spread at 1.
      erewrite lookup_union_Some_l by reflexivity.
      rewrite field_spread, Hk. symmetry. now apply field_truthy_lookup.
    + rewrite Hk in Hsku. unfold updated_product, spread at 1.
      erewrite lookup_union_Some_l by reflexivity.
      rewrite field_spread, Hk. symmetry. now apply field_truthy_lookup.
    + rewrite Hk in Hcat. unfold updated_product, spread at 1.
      erewrite lookup_union_Some_l by reflexivity.
      rewrite field_spread, Hk. symmetry. now apply field_truthy_lookup.
    + apply Hother. unfold product_fields. simpl. intuition.
  - intros k v Hk Hpay. simpl in Hk.
    destruct Hk as [<-|[<-|[<-|[]]]]; unfold updated_product, spread at 1;
      erewrite lookup_union_Some_l by reflexivity; rewrite field_spread, Hpay;
      reflexivity.
  - intros k v Hk Hpay. simpl in Hk. destruct Hk as [<-|[<-|[]]].
    + rewrite Hpay in Hp. exists p. split; [exact Hp|].
      unfold updated_product, spread at 1. now erewrite lookup_union_Some_l by reflexivity.
    + rewrite Hpay in Hs. exists s. split; [exact Hs|].
      unfold updated_product, spread at 1. now erewrite lookup_union_Some_l by reflexivity.
  - intros k Hk Hpay. simpl in Hk. destruct Hk as [<-|[<-|[]]].
    + rewrite Hpay in Hp. exists p. split; [exact Hp|].
      unfold updated_product, spread at 1. now erewrite lookup_union_Some_l by reflexivity.
    + rewrite Hpay in Hs. exists s. split; [exact Hs|].
      unfold updated_product, spread at 1. now erewrite lookup_union_Some_l by reflexivity.
Qed.

Lemma merged_product_frame (old payload : object) (p s : number) :
  valid_payload (Obj (spread old payload)) p s ->
  frame_of_update old payload (merged_product old (spread old payload) p s).
Proof.
  intros Hv.
  pose proof (valid_price_number _ _ _ Hv) as Hp.
  pose proof (valid_stock_number _ _ _ Hv) as Hs.
  simpl in Hp, Hs. rewrite field_spread in Hp, Hs.
  unfold frame_of_update, merged_product, spread. repeat split.
  - intros k Hk Hnp Hns. rewrite !lookup_insert_ne by congruence.
    now apply lookup_union_r.
  - intros k v Hk Hpay. simpl in Hk.
    destruct Hk as [<-|[<-|[<-|[]]]]; rewrite !lookup_insert_ne by discriminate;
      now apply lookup_union_Some_l.
  - intros k v Hk Hpay. simpl in Hk. destruct Hk as [<-|[<-|[]]].
    + rewrite Hpay in Hp. exists p. split; [exact Hp|].
      rewrite lookup_insert_ne by discriminate. apply lookup_insert_eq.
    + rewrite Hpay in Hs. exists s. split; [exact Hs|]. apply lookup_insert_eq.
  - intros k Hk Hpay. simpl in Hk. destruct Hk as [<-|[<-|[]]].
    + rewrite Hpay in Hp. exists p. split; [exact Hp|].
      rewrite lookup_insert_ne by discriminate. apply lookup_insert_eq.
    + rewrite Hpay in Hs. exists s. split; [exact Hs|]. apply lookup_insert_eq.
Qed.

(** C6, counterexample: an update of the stored product with the payload
    [{stock: null, price: "5"}] succeeds, and the record stored has the
    numbers 0 and 5 for stock and price, not the values of the payload,
    [null] and the text ["5"]. *)
Lemma update_stores_number_not_payload_value :
  own_props null_stock_payload !! "stock" = Some Null
  /\ own_props null_stock_payload !! "price" = Some (Str "5")
  /\ exists new : object,
       InMemory.serve demo_process demo_environment products_update
         (as_bob null_stock_payload "p-1") demo_store
       = (res_json 200
            (ok demo_environment (as_bob null_stock_payload "p-1") (Value (Obj new))
               no_meta),
          [new])
       /\ Index.serve demo_process demo_environment products_update
            (as_bob null_stock_payload "p-1") demo_store
          = InMemory.serve demo_process demo_environment products_update
              (as_bob null_stock_payload "p-1") demo_store
       /\ new !! "stock" = Some (Num pos_zero)
       /\ new !! "price" = Some (Num (of_Z 5))
       /\ new !! "stock" <> own_props null_stock_payload !! "stock"
       /\ new !! "price" <> own_props null_stock_payload !! "price".
Proof.
  split; [reflexivity|]. split; [reflexivity|].
  eexists. split; [vm_compute; reflexivity|].
  split; [vm_compute; reflexivity|]. split; [vm_compute; reflexivity|].
  split; [vm_compute; reflexivity|]. split; vm_compute; discriminate.
Qed.

(** In [index.js] the merged object itself is stored, so an [id] in the
    payload replaces the identifier of the product. *)
Example index_update_replaces_id :
  exists new : object,
    snd (Index.serve demo_process demo_environment products_update
           (as_bob (Obj {[ "id" := Str "mine" ]}) "p-1") demo_store) = [new]
    /\ new !! "id" = Some (Str "mine").
Proof. eexists. split; vm_compute; reflexivity. Qed.

(** C6, amended: after a successful update (answered 200) the store is
    the old store with the record of the product replaced in place, no
    other product changed; in the replacing record every key that the
    payload does not have keeps its old value, [name], [sku] and
    [category] take the value of the payload when it has one, and [price]
    and [stock] are the numbers [Number(v)] of the value [v] of the
    payload, or of the old value when the payload has none. In the
    in-memory revision every key but these five, the identifier among
    them, keeps its old value whatever the payload holds. *)
Theorem update_frame (P : process) (E : environment) (req req' : request)
    (st : store) :
  run_gates (gates P E products_update) req = next req' ->
  (forall res st',
      InMemory.serve P E products_update req st = (res, st') ->
      status res = 200 ->
      exists idx old new,
        st !! idx = Some old
        /\ strict_equals (field old "id") (Str (params_id req)) = true
        /\ st' = <[idx := new]> st
        /\ (forall j, j <> idx -> st' !! j = st !! j)
        /\ res = res_json 200 (ok E req (Value (Obj new)) no_meta)
        /\ frame_of_update old (own_props (body req)) new
        /\ new !! "id" = old !! "id"
        /\ (forall k, ~ In k product_fields -> new !! k = old !! k))
  /\ (forall res st',
        Index.serve P E products_update req st = (res, st') ->
        status res = 200 ->
        exists idx old new,
          st !! idx = Some old
          /\ strict_equals (field old "id") (Str (params_id req)) = true
          /\ st' = <[idx := new]> st
          /\ (forall j, j <> idx -> st' !! j = st !! j)
          /\ res = res_json 200 (ok E req (Value (Obj new)) no_meta)
          /\ frame_of_update old (own_props (body req)) new).
Proof.
  intros Hpass. split; intros res st'.
  - rewrite (InMemory_serve_pass _ _ _ _ _ _ Hpass). simpl.
    rewrite InMemory_put_product_eq. intros Hrun Hok.
    destruct (update_succeeds E (InMemory.error_middleware E) _ _ _ _ _
                (fun _ _ => eq_refl) Hrun Hok)
      as (idx & old & p & s & Hold & Hid & Hvalid & -> & ->).
    destruct (updated_product_frame _ _ _ _ Hvalid) as [Hframe Hother].
    exists idx, old, (updated_product old (spread old (own_props (body req))) p s).
    split_and!; try assumption; try reflexivity.
    + intros j Hj. now apply list_lookup_insert_ne.
    + apply Hother. unfold product_fields. simpl. intuition discriminate.
  - rewrite (Index_serve_pass _ _ _ _ _ _ Hpass). simpl.
    rewrite Index_put_product_eq. intros Hrun Hok.
    destruct (update_succeeds E (Index.error_middleware E) _ _ _ _ _
                (fun _ _ => eq_refl) Hrun Hok)
      as (idx & old & p & s & Hold & Hid & Hvalid & -> & ->).
    exists idx, old, (merged_product old (spread old (own_props (body req))) p s).
    split_and!; try assumption; try reflexivity.
    + intros j Hj. now apply list_lookup_insert_ne.
    + apply (merged_product_frame _ _ _ _ Hvalid).
Qed.

(** ** Instances on the demo data *)

Lemma sku_unique_preserved_witness :
  sku_unique demo_store = true
  /\ sku_unique (run (InMemory.serve demo_process) demo_trace demo_store) = true.
Proof.
  split; [reflexivity|].
  exact (proj1 (proj1 (sku_unique_preserved demo_process users demo_trace demo_store
                         eq_refl))).
Defined.

Lemma login_outcomes_witness :
  header_x_api_key bob_login = Some (APIKeyGenerator.apiKey (apiKeyGen demo_process))
  /\ exists u, In u users
       /\ token_for demo_process demo_environment bob_login u
            (fst (InMemory.serve demo_process demo_environment auth_login bob_login
                    demo_store)).
Proof.
  split; [reflexivity|].
  destruct (login_outcomes demo_process demo_environment users bob_login demo_store
              eq_refl) as [(_ & _ & Hfound & _) _].
  destruct (Hfound eq_refl
              {| id := "u2"; user_username := "bob"; user_password := "bob123";
                 user_role := "editor" |}
              (or_intror (or_introl eq_refl)) (conj eq_refl eq_refl))
    as (u & Hin & _ & Htok).
  exists u. split; [exact Hin|exact Htok].
Defined.

Lemma persistence_failure_keeps_mutation_witness :
  write_error failing_disk = Some "EACCES: permission denied"
  /\ status (fst (Persisted.serve demo_process (with_disk failing_disk None) users
                    products_create (as_bob mouse "") demo_store)) = 201
  /\ status (fst (Persisted.serve demo_process failing_disk users products_create
                    (as_bob mouse "") demo_store)) = 500
  /\ length (snd (Persisted.serve demo_process failing_disk users products_create
                    (as_bob mouse "") demo_store)) = 2%nat.
Proof.
  split; [reflexivity|]. split; [vm_compute; reflexivity|].
  destruct (persistence_failure_keeps_mutation demo_process failing_disk users
              products_create (as_bob mouse "")
              (set_user (as_bob mouse "") (jwt.payload bob_token)) demo_store
              "EACCES: permission denied" eq_refl) as [Hrun Hlen].
  - vm_compute. reflexivity.
  - reflexivity.
  - vm_compute. reflexivity.
  - rewrite Hrun. split; [reflexivity|]. simpl snd. simpl in Hlen. exact Hlen.
Defined.

Lemma gates_short_circuit_witness :
  jwt.role (jwt.payload bob_token) = "editor"
  /\ InMemory.serve demo_process demo_environment products_delete
       (as_bob Undefined "p-1") demo_store
     = (res_json 403
          (fail demo_environment (as_bob Undefined "p-1") 403 "ERROR"
             "Permisos insuficientes" (Obj ∅)),
        demo_store).
Proof.
  split; [reflexivity|].
  refine (proj1 (proj2 (proj2 gates_short_circuit) demo_process demo_environment users
                   (as_bob Undefined "p-1") bob_token 1700007140 demo_store
                   eq_refl eq_refl I eq_refl _ eq_refl)).
  reflexivity.
Defined.

Lemma created_product_numbers_witness :
  validateProduct (or_else (body (as_bob mouse_as_text "")) (Obj ∅)) = Normal []
  /\ exists (p s : number) (entity : object),
       ToNumber (Str "19.99") = Normal p
       /\ ToNumber (Bool true) = Normal s
       /\ entity !! "price" = Some (Num p)
       /\ entity !! "stock" = Some (Num s)
       /\ snd (InMemory.serve demo_process demo_environment products_create
                 (as_bob mouse_as_text "") demo_store) = demo_store ++ [entity].
Proof.
  split; [vm_compute; reflexivity|].
  destruct (proj1 created_product_numbers demo_process demo_environment users
              (as_bob mouse_as_text "")
              (set_user (as_bob mouse_as_text "") (jwt.payload bob_token)) demo_store)
    as (p & s & entity & Hp & Hs & Hprice & Hstock & Hrun & _).
  - vm_compute. reflexivity.
  - vm_compute. reflexivity.
  - vm_compute. reflexivity.
  - exists p, s, entity. split; [exact Hp|]. split; [exact Hs|].
    split; [exact Hprice|]. split; [exact Hstock|]. rewrite Hrun. reflexivity.
Defined.

Lemma update_frame_witness :
  exists idx old new,
    demo_store !! idx = Some old
    /\ snd (InMemory.serve demo_process demo_environment products_update
              (as_bob null_stock_payload "p-1") demo_store) = <[idx := new]> demo_store
    /\ frame_of_update old (own_props null_stock_payload) new
    /\ new !! "id" = old !! "id".
Proof.
  destruct (proj1 (update_frame demo_process demo_environment
                     (as_bob null_stock_payload "p-1")
                     (set_user (as_bob null_stock_payload "p-1") (jwt.payload bob_token))
                     demo_store ltac:(vm_compute; reflexivity))
              (fst (InMemory.serve demo_process demo_environment products_update
                      (as_bob null_stock_payload "p-1") demo_store))
              (snd (InMemory.serve demo_process demo_environment products_update
                      (as_bob null_stock_payload "p-1") demo_store)))
    as (idx & old & new & Hold & _ & Hst & _ & _ & Hframe & Hid & _).
  - apply surjective_pairing.
  - vm_compute. reflexivity.
  - exists idx, old, new. split; [exact Hold|]. split; [exact Hst|].
    split; [exact Hframe|exact Hid].
Defined.

(** * Further properties of the routes *)

(** ** Products by their identifier *)

Lemma findIndex_None {A} (f : A -> bool) (l : list A) :
  findIndex f l = None <-> forallb (fun x => negb (f x)) l = true.
Proof.
  induction l as [|x l IH]; simpl; [tauto|].
  destruct (f x); simpl.
  - split; discriminate.
  - rewrite <- IH. destruct (findIndex f l); simpl; split; congruence.
Qed.

Lemma findIndex_first {A} (f : A -> bool) (l : list A) (i : nat) :
  findIndex f l = Some i <->
  (exists x, l !! i = Some x /\ f x = true)
  /\ forall j y, (j < i)%nat -> l !! j = Some y -> f y = false.
Proof.
  revert i. induction l as [|x l IH]; intros i; simpl.
  - split; [discriminate|]. intros [(y & Hy & _) _]. discriminate.
  - destruct (f x) eqn:Hx.
    + split.
      * intros [= <-]. split; [eauto|]. intros j y Hj. lia.
      * intros [(y & Hy & Hfy) Hmin]. destruct i as [|i]; [reflexivity|].
        specialize (Hmin 0%nat x ltac:(lia) eq_refl). congruence.
    + split.
      * destruct (findIndex f l) as [k|]; [|discriminate].
        intros [= <-]. destruct (proj1 (IH k) eq_refl) as [Hex Hmin].
        split; [exact Hex|].
        intros [|j] y Hj Hy; simpl in Hy; [congruence|].
        apply (Hmin j); [lia|exact Hy].
      * intros [(y & Hy & Hfy) Hmin]. destruct i as [|i]; simpl in Hy.
        -- congruence.
        -- assert (findIndex f l = Some i) as ->; [|reflexivity].
           apply IH. split; [eauto|]. intros j z Hj Hz.
           apply (Hmin (S j)); [lia|exact Hz].
Qed.

Lemma find_findIndex {A} (f : A -> bool) (l : list A) :
  find f l = (findIndex f l ≫= fun i => l !! i).
Proof.
  induction l as [|x l IH]; simpl; [reflexivity|].
  destruct (f x); [reflexivity|]. rewrite IH.
  destruct (findIndex f l); reflexivity.
Qed.

Lemma index_of_id_fresh (req : request) (st : store) :
  index_of_id st req = None <-> fresh_id (params_id req) st = true.
Proof. apply findIndex_None. Qed.

Lemma index_of_id_first (req : request) (st : store) (i : nat) (p : object) :
  first_with_id (params_id req) st i p -> index_of_id st req = Some i.
Proof.
  intros (Hp & Hid & Hmin). apply findIndex_first. split; [eauto|exact Hmin].
Qed.


Lemma fresh_or_first (id : string) (st : store) :
  fresh_id id st = true \/ exists i p, first_with_id id st i p.
Proof.
  destruct (findIndex (has_id id) st) as [i|] eqn:Hi.
  - right. apply findIndex_first in Hi as [(p & Hp & Hid) Hmin].
    exists i, p. split; [exact Hp|]. split; [exact Hid|exact Hmin].
  - left. now apply findIndex_None.
Qed.

Lemma fresh_not_first (id : string) (st : store) (i : nat) (p : object) :
  fresh_id id st = true -> ~ first_with_id id st i p.
Proof.
  intros Hf (Hp & Hid & _). apply (findIndex_None (has_id id)) in Hf.
  assert (findIndex (has_id id) st <> None) as Hne; [|congruence].
  intros Hnone. apply findIndex_None in Hnone.
  rewrite forallb_forall in Hnone.
  specialize (Hnone p). rewrite Hid in Hnone. simpl in Hnone.
  enough (false = true) by discriminate. apply Hnone.
  apply list_elem_of_In, list_elem_of_lookup. eauto.
Qed.

Lemma key_routes_pass (P : process) (E : environment) (ep : endpoint) (req : request) :
  In ep [auth_login; products_list; products_detail] ->
  header_x_api_key req = Some (APIKeyGenerator.apiKey (apiKeyGen P)) ->
  run_gates (gates P E ep) req = next req.
Proof.
  intros Hep H.
  assert (run_gates [requireApiKey P] req = next req) as Hrun.
  { simpl. unfold requireApiKey, APIKeyGenerator.validateAPIKey.
    rewrite H, String.eqb_refl. reflexivity. }
  simpl in Hep. destruct Hep as [<-|[<-|[<-|[]]]]; exact Hrun.
Qed.

Lemma get_product_eq (E : environment) (req : request) (st : store) :
  get_product E req st
  = (Normal match index_of_id st req ≫= (fun i => st !! i) with
            | Some prod => res_json 200 (ok E req (Value (Obj prod)) no_meta)
            | None => not_found E req
            end, st).
Proof.
  unfold get_product. unfold_M. rewrite find_findIndex.
  change (findIndex _ st) with (index_of_id st req).
  destruct (index_of_id st req) as [i|]; simpl; [destruct (st !! i)|]; reflexivity.
Qed.

(** X1 ([GET /products/:id]): with the API key, the detail route answers
    404 "Product not found" when no product of the store has the
    identifier of the path, and otherwise 200 with the first product of
    the store that has it; one of the two is the case, the store is left
    as it is, and the three revisions answer alike. *)
Theorem detail_returns_first_match (P : process) (E : environment)
    (stored : list user_record) (req : request) (st : store) :
  header_x_api_key req = Some (APIKeyGenerator.apiKey (apiKeyGen P)) ->
  (fresh_id (params_id req) st = true ->
     InMemory.serve P E products_detail req st = (not_found E req, st))
  /\ (forall i p, first_with_id (params_id req) st i p ->
        InMemory.serve P E products_detail req st
        = (res_json 200 (ok E req (Value (Obj p)) no_meta), st))
  /\ (fresh_id (params_id req) st = true
      \/ exists i p, first_with_id (params_id req) st i p)
  /\ Index.serve P E products_detail req st
     = InMemory.serve P E products_detail req st
  /\ Persisted.serve P E stored products_detail req st
     = InMemory.serve P E products_detail req st.
Proof.
  intros Hkey.
  assert (run_gates (gates P E products_detail) req = next req) as Hpass
    by (apply key_routes_pass; simpl; auto).
  rewrite (InMemory_serve_pass _ _ _ _ _ _ Hpass), (Index_serve_pass _ _ _ _ _ _ Hpass),
    (Persisted_serve_pass _ _ _ _ _ _ _ Hpass).
  cbn [InMemory.handler_of Index.handler_of Persisted.handler_of].
  rewrite get_product_eq. cbn [answer].
  split_and!; try reflexivity.
  - intros Hfresh. apply index_of_id_fresh in Hfresh. rewrite Hfresh. reflexivity.
  - intros i p Hfirst. rewrite (index_of_id_first _ _ _ _ Hfirst). simpl.
    destruct Hfirst as (-> & _). reflexivity.
  - apply fresh_or_first.
Qed.


Lemma detail_returns_first_match_witness :
  exists p : object,
    InMemory.serve demo_process demo_environment products_detail
      (detail_request "p-1") demo_store
    = (res_json 200 (ok demo_environment (detail_request "p-1") (Value (Obj p)) no_meta),
       demo_store).
Proof.
  eexists.
  refine (proj1 (proj2 (detail_returns_first_match demo_process demo_environment users
                          (detail_request "p-1") demo_store eq_refl)) 0%nat _ _).
  split; [reflexivity|]. split; [reflexivity|]. intros j q Hj. lia.
Defined.

Lemma filter_all {A} (f : A -> bool) (l : list A) :
  forallb f l = true -> filter (fun x => f x = true) l = l.
Proof.
  induction l as [|x l IH]; simpl; [reflexivity|].
  intros H. apply andb_prop in H as [Hx Hl].
  rewrite filter_cons_True by exact Hx. now rewrite IH.
Qed.

Lemma fresh_filter (id : string) (st : store) :
  fresh_id id (filter (fun p => negb (has_id id p) = true) st) = true.
Proof.
  unfold fresh_id. apply forallb_forall. intros p Hp.
  apply list_elem_of_In, list_elem_of_filter in Hp as [Hp _]. exact Hp.
Qed.

Lemma Index_delete_product_eq (E : environment) (req : request) (st : store) :
  Index.delete_product E req st
  = let kept := filter (fun p => negb (has_id (params_id req) p) = true) st in
    (Normal (if (length kept =? length st)%nat then not_found E req
             else {| status := 204; sent := no_content |}), kept).
Proof.
  unfold Index.delete_product. unfold_M. cbv zeta.
  change (fun p : object => negb (strict_equals (field p "id") (Str (params_id req))) = true)
    with (fun p : object => negb (has_id (params_id req) p) = true).
  destruct (_ =? _)%nat; reflexivity.
Qed.

Lemma delete_unknown (P : process) (E : environment)
    (stored : list user_record) (req req' : request) (st : store) :
  run_gates (gates P E products_delete) req = next req' ->
  fresh_id (params_id req) st = true ->
  InMemory.serve P E products_delete req st = (not_found E req, st)
  /\ Index.serve P E products_delete req st = (not_found E req, st)
  /\ Persisted.serve P E stored products_delete req st = (not_found E req, st).
Proof.
  intros Hpass Hfresh.
  rewrite (InMemory_serve_pass _ _ _ _ _ _ Hpass), (Index_serve_pass _ _ _ _ _ _ Hpass),
    (Persisted_serve_pass _ _ _ _ _ _ _ Hpass).
  cbn [InMemory.handler_of Index.handler_of Persisted.handler_of].
  rewrite InMemory_delete_product_eq, Persisted_delete_product_eq,
    Index_delete_product_eq. unfold deletion. cbv zeta.
  rewrite (filter_all _ _ Hfresh), Nat.eqb_refl.
  apply index_of_id_fresh in Hfresh. rewrite Hfresh. auto.
Qed.

(** X2 ([DELETE /products/:id]): once the gates have passed, a delete
    request for an identifier that no product has is answered 404 and
    leaves the store as it is, in the three revisions. Otherwise it is
    answered 204 with an empty body; the in-memory and the persisted
    revision (when the products file is written) remove the first product
    with the identifier and nothing else, the others keeping their order,
    while [index.js] removes every product with the identifier. *)
Theorem delete_removes_matches (P : process) (E : environment)
    (stored : list user_record) (req req' : request) (st : store) :
  run_gates (gates P E products_delete) req = next req' ->
  (fresh_id (params_id req) st = true ->
     InMemory.serve P E products_delete req st = (not_found E req, st)
     /\ Index.serve P E products_delete req st = (not_found E req, st)
     /\ Persisted.serve P E stored products_delete req st = (not_found E req, st))
  /\ (forall i p, first_with_id (params_id req) st i p ->
        InMemory.serve P E products_delete req st
        = ({| status := 204; sent := no_content |}, take i st ++ drop (S i) st)
        /\ (write_error E = None ->
            Persisted.serve P E stored products_delete req st
            = ({| status := 204; sent := no_content |}, take i st ++ drop (S i) st))
        /\ Index.serve P E products_delete req st
           = ({| status := 204; sent := no_content |},
              filter (fun q => negb (has_id (params_id req) q) = true) st)).
Proof.
  intros Hpass. split; [apply (delete_unknown _ _ _ _ _ _ Hpass)|].
  rewrite (InMemory_serve_pass _ _ _ _ _ _ Hpass), (Index_serve_pass _ _ _ _ _ _ Hpass),
    (Persisted_serve_pass _ _ _ _ _ _ _ Hpass).
  cbn [InMemory.handler_of Index.handler_of Persisted.handler_of].
  rewrite InMemory_delete_product_eq, Persisted_delete_product_eq,
    Index_delete_product_eq. unfold deletion. cbv zeta.
  intros i p Hfirst. rewrite (index_of_id_first _ _ _ _ Hfirst).
    rewrite delete_take_drop. unfold send, persist. cbn [answer].
    split; [reflexivity|]. split; [intros ->; reflexivity|].
    destruct Hfirst as (Hp & Hid & _).
    assert (length (filter (fun q => negb (has_id (params_id req) q) = true) st)
            < length st)%nat as Hlt.
    { apply (length_filter_lt _ _ p); [eapply list_elem_of_lookup_2; exact Hp|].
      rewrite Hid. discriminate. }
    apply Nat.lt_neq, Nat.eqb_neq in Hlt. rewrite Hlt. reflexivity.
Qed.


Lemma delete_removes_matches_witness :
  InMemory.serve demo_process demo_environment products_delete
    (as_alice Undefined "p-1") demo_store
  = ({| status := 204; sent := no_content |}, []).
Proof.
  refine (proj1 (proj2 (delete_removes_matches demo_process demo_environment users
                          (as_alice Undefined "p-1")
                          (set_user (as_alice Undefined "p-1") (jwt.payload alice_token))
                          demo_store eq_refl) 0%nat _ _)).
  split; [reflexivity|]. split; [reflexivity|]. intros j q Hj. lia.
Defined.

Lemma fresh_id_filter (id : string) (st : store) :
  fresh_id id st = true <-> filter (fun p => has_id id p = true) st = [].
Proof.
  unfold fresh_id. induction st as [|p st IH]; simpl; [tauto|].
  destruct (has_id id p) eqn:Hp; simpl.
  - rewrite filter_cons_True by exact Hp. split; discriminate.
  - rewrite filter_cons_False by (rewrite Hp; discriminate). exact IH.
Qed.

Lemma fresh_id_app (id : string) (l1 l2 : store) :
  fresh_id id (l1 ++ l2) = fresh_id id l1 && fresh_id id l2.
Proof. apply forallb_app. Qed.

Lemma first_with_id_prefix (id : string) (st : store) (i : nat) (p : object) :
  first_with_id id st i p -> fresh_id id (take i st) = true.
Proof.
  intros (Hp & _ & Hmin). apply forallb_forall. intros q Hq.
  apply list_elem_of_In, list_elem_of_lookup in Hq as [j Hj].
  apply lookup_take_Some in Hj as [Hj Hlt].
  rewrite (Hmin j q Hlt Hj). reflexivity.
Qed.

Lemma at_most_one_delete (id : string) (st : store) (i : nat) (p : object) :
  at_most_one id st = true -> first_with_id id st i p ->
  fresh_id id (take i st ++ drop (S i) st) = true.
Proof.
  intros Hone Hfirst. pose proof (first_with_id_prefix _ _ _ _ Hfirst) as Hpre.
  destruct Hfirst as (Hp & Hid & _).
  rewrite fresh_id_app, Hpre. simpl. apply fresh_id_filter.
  unfold at_most_one in Hone. apply Nat.leb_le in Hone.
  rewrite <- (take_drop_middle _ _ _ Hp) in Hone.
  rewrite filter_app, filter_cons_True, length_app in Hone by exact Hid.
  simpl in Hone.
  destruct (filter (fun q => has_id id q = true) (drop (S i) st)); [reflexivity|].
  simpl in Hone. lia.
Qed.

(** X3 ([DELETE /products/:id], twice): when the same delete request
    passes the gates twice in a row, [index.js] always answers the second
    one 404 and changes nothing more. The in-memory and the persisted
    revision do so when at most one product of the store has the
    identifier: they remove one product per request. *)
Theorem delete_twice_not_found (P : process) (E E' : environment)
    (stored : list user_record) (req req1 req2 : request) (st : store) :
  run_gates (gates P E products_delete) req = next req1 ->
  run_gates (gates P E' products_delete) req = next req2 ->
  Index.serve P E' products_delete req (snd (Index.serve P E products_delete req st))
  = (not_found E' req, snd (Index.serve P E products_delete req st))
  /\ (at_most_one (params_id req) st = true ->
      InMemory.serve P E' products_delete req
        (snd (InMemory.serve P E products_delete req st))
      = (not_found E' req, snd (InMemory.serve P E products_delete req st))
      /\ Persisted.serve P E' stored products_delete req
           (snd (Persisted.serve P E stored products_delete req st))
         = (not_found E' req, snd (Persisted.serve P E stored products_delete req st))).
Proof.
  intros Hpass Hpass'.
  assert (forall st1, fresh_id (params_id req) st1 = true ->
            Index.serve P E' products_delete req st1 = (not_found E' req, st1)
            /\ InMemory.serve P E' products_delete req st1 = (not_found E' req, st1)
            /\ Persisted.serve P E' stored products_delete req st1
               = (not_found E' req, st1)) as Hsecond.
  { intros st1 Hf.
    destruct (delete_unknown P E' stored req req2 st1 Hpass' Hf) as (H1 & H2 & H3).
    auto. }
  split.
  - apply Hsecond.
    rewrite (Index_serve_pass _ _ _ _ _ _ Hpass). simpl.
    rewrite Index_delete_product_eq. simpl. apply fresh_filter.
  - intros Hone.
    assert (fresh_id (params_id req) (snd (deletion E send req st)) = true
            /\ fresh_id (params_id req) (snd (deletion E (persist E) req st)) = true)
      as [Hmem Hdisk].
    { unfold deletion.
      destruct (fresh_or_first (params_id req) st) as [Hf|(i & p & Hfirst)].
      - pose proof (proj2 (index_of_id_fresh req st) Hf) as ->. auto.
      - rewrite (index_of_id_first _ _ _ _ Hfirst), persist_store, delete_take_drop.
        simpl. split; eapply at_most_one_delete; eauto. }
    rewrite (InMemory_serve_pass _ _ _ _ _ _ Hpass),
      (Persisted_serve_pass _ _ _ _ _ _ _ Hpass).
    cbn [InMemory.handler_of Persisted.handler_of].
    rewrite InMemory_delete_product_eq, Persisted_delete_product_eq.
    assert (forall r, snd (answer (InMemory.error_middleware E) req r) = snd r) as Hsnd
      by (intros [[res|e] s]; reflexivity).
    rewrite !Hsnd. split; [apply (Hsecond _ Hmem)|apply (Hsecond _ Hdisk)].
Qed.

Lemma delete_twice_not_found_witness :
  InMemory.serve demo_process demo_environment products_delete
    (as_alice Undefined "p-1")
    (snd (InMemory.serve demo_process demo_environment products_delete
            (as_alice Undefined "p-1") demo_store))
  = (not_found demo_environment (as_alice Undefined "p-1"),
     snd (InMemory.serve demo_process demo_environment products_delete
            (as_alice Undefined "p-1") demo_store)).
Proof.
  refine (proj1 (proj2 (delete_twice_not_found demo_process demo_environment
                          demo_environment users (as_alice Undefined "p-1")
                          (set_user (as_alice Undefined "p-1") (jwt.payload alice_token))
                          (set_user (as_alice Undefined "p-1") (jwt.payload alice_token))
                          demo_store eq_refl eq_refl) _)).
  reflexivity.
Defined.


(** ** Creation, then detail and deletion *)

Lemma persist_working (E : environment) (res : response) (st : store) :
  write_error E = None -> persist E res st = send res st.
Proof. unfold persist. intros ->. reflexivity. Qed.

Lemma creation_succeeds (E : environment) (on_error : error_handler)
    (req : request) (st : store) (res : response) (st' : store) :
  (forall name m, status (on_error (Error name m) req) = 500) ->
  answer on_error req (creation E send req st) = (res, st') ->
  status res = 201 ->
  exists p s,
    valid_payload (or_else (body req) (Obj ∅)) p s
    /\ some_sku st (field (own_props (or_else (body req) (Obj ∅))) "sku") = false
    /\ st' = st ++ [new_entity E (field (own_props (or_else (body req) (Obj ∅))) "name")
                      (field (own_props (or_else (body req) (Obj ∅))) "sku") p s
                      (field (own_props (or_else (body req) (Obj ∅))) "category")]
    /\ res = res_json 201
               (ok E req
                  (Value (Obj (new_entity E
                                 (field (own_props (or_else (body req) (Obj ∅))) "name")
                                 (field (own_props (or_else (body req) (Obj ∅))) "sku") p s
                                 (field (own_props (or_else (body req) (Obj ∅))) "category"))))
                  no_meta).
Proof.
  intros Herr. unfold creation.
  destruct (validateProduct _) as [[|err errors]|e] eqn:Hv.
  - destruct (validateProduct_passes _ (or_else_object_truthy (body req)) Hv)
      as (p & s & Hvalid).
    pose proof (valid_price_number _ _ _ Hvalid) as Hp.
    pose proof (valid_stock_number _ _ _ Hvalid) as Hs.
    simpl. unfold created.
    destruct (some_sku st _) eqn:Hsku; [simpl; intros [= <- <-]; discriminate|].
    rewrite Hp, Hs. simpl. intros [= <- <-] _. exists p, s. auto.
  - simpl. intros [= <- <-]; discriminate.
  - apply validateProduct_Throw in Hv as (name & m & ->);
      [|apply or_else_object_truthy].
    simpl. intros [= <- <-]. rewrite Herr. discriminate.
Qed.

Lemma InMemory_create_succeeds (P : process) (E : environment) (req req' : request)
    (st : store) (res : response) (st' : store) :
  run_gates (gates P E products_create) req = next req' ->
  InMemory.serve P E products_create req st = (res, st') ->
  status res = 201 ->
  exists name sku category p s,
    st' = st ++ [new_entity E name sku p s category]
    /\ res = res_json 201
               (ok E req (Value (Obj (new_entity E name sku p s category))) no_meta).
Proof.
  intros Hpass. rewrite (InMemory_serve_pass _ _ _ _ _ _ Hpass). simpl.
  rewrite post_products_eq. intros Hrun Hok.
  destruct (creation_succeeds E (InMemory.error_middleware E) _ _ _ _
              (fun _ _ => eq_refl) Hrun Hok) as (p & s & _ & _ & -> & ->).
  eauto 10.
Qed.

Lemma has_id_new_entity (E : environment) (name sku : value) (p s : number)
    (category : value) :
  has_id (uuid E) (new_entity E name sku p s category) = true.
Proof. unfold has_id. change (field _ "id") with (Str (uuid E)). apply String.eqb_refl. Qed.

Lemma first_with_id_snoc (id : string) (st : store) (e : object) :
  fresh_id id st = true -> has_id id e = true ->
  first_with_id id (st ++ [e]) (length st) e.
Proof.
  intros Hf He. split; [|split; [exact He|]].
  - rewrite lookup_app_r by lia. now rewrite Nat.sub_diag.
  - intros j q Hj Hq. rewrite lookup_app_l in Hq by exact Hj.
    unfold fresh_id in Hf. rewrite forallb_forall in Hf.
    apply Bool.negb_true_iff, Hf, list_elem_of_In, list_elem_of_lookup. eauto.
Qed.

(** X4 ([POST /products], then [GET /products/:id]): in the in-memory
    revision, when a create request is answered 201 and the identifier
    drawn for the new product is the identifier of no product already in
    the store, a detail request for this identifier, with the API key, is
    answered 200 with the very product the create request returned. *)
Theorem created_product_is_found (P : process) (E E' : environment)
    (req req' detail : request) (st : store) (res : response) (st' : store) :
  run_gates (gates P E products_create) req = next req' ->
  InMemory.serve P E products_create req st = (res, st') ->
  status res = 201 ->
  fresh_id (uuid E) st = true ->
  header_x_api_key detail = Some (APIKeyGenerator.apiKey (apiKeyGen P)) ->
  params_id detail = uuid E ->
  exists entity : object,
    res = res_json 201 (ok E req (Value (Obj entity)) no_meta)
    /\ InMemory.serve P E' products_detail detail st'
       = (res_json 200 (ok E' detail (Value (Obj entity)) no_meta), st').
Proof.
  intros Hpass Hrun Hok Hfresh Hkey Hid.
  destruct (InMemory_create_succeeds _ _ _ _ _ _ _ Hpass Hrun Hok)
    as (name & sku & category & p & s & -> & ->).
  eexists. split; [reflexivity|].
  assert (run_gates (gates P E' products_detail) detail = next detail) as Hpass'
    by (apply key_routes_pass; simpl; auto).
  rewrite (InMemory_serve_pass _ _ _ _ _ _ Hpass'). simpl.
  rewrite get_product_eq.
  rewrite (index_of_id_first detail _ (length st) (new_entity E name sku p s category)).
  - simpl. rewrite lookup_app_r by lia. now rewrite Nat.sub_diag.
  - rewrite Hid. apply first_with_id_snoc; [exact Hfresh|apply has_id_new_entity].
Qed.

Lemma created_product_is_found_witness :
  exists entity : object,
    fst (InMemory.serve demo_process demo_environment products_create
           (as_bob mouse "") demo_store)
    = res_json 201 (ok demo_environment (as_bob mouse "") (Value (Obj entity)) no_meta)
    /\ InMemory.serve demo_process demo_environment products_detail (detail_request "p-2")
         (snd (InMemory.serve demo_process demo_environment products_create
                 (as_bob mouse "") demo_store))
       = (res_json 200
            (ok demo_environment (detail_request "p-2") (Value (Obj entity)) no_meta),
          snd (InMemory.serve demo_process demo_environment products_create
                 (as_bob mouse "") demo_store)).
Proof.
  apply (created_product_is_found demo_process demo_environment demo_environment
           (as_bob mouse "") (set_user (as_bob mouse "") (jwt.payload bob_token))
           (detail_request "p-2") demo_store).
  - reflexivity.
  - apply surjective_pairing.
  - vm_compute. reflexivity.
  - reflexivity.
  - reflexivity.
  - reflexivity.
Defined.

(** X5 ([POST /products], then [DELETE /products/:id]): in the in-memory
    revision, when a create request is answered 201 and the identifier
    drawn for the new product is the identifier of no product already in
    the store, a delete request for this identifier that passes the gates
    is answered 204 and gives back the store as it was before the
    creation. *)
Theorem create_then_delete_restores (P : process) (E E' : environment)
    (req req' del del' : request) (st : store) (res : response) (st' : store) :
  run_gates (gates P E products_create) req = next req' ->
  InMemory.serve P E products_create req st = (res, st') ->
  status res = 201 ->
  fresh_id (uuid E) st = true ->
  run_gates (gates P E' products_delete) del = next del' ->
  params_id del = uuid E ->
  InMemory.serve P E' products_delete del st'
  = ({| status := 204; sent := no_content |}, st).
Proof.
  intros Hpass Hrun Hok Hfresh Hpass' Hid.
  destruct (InMemory_create_succeeds _ _ _ _ _ _ _ Hpass Hrun Hok)
    as (name & sku & category & p & s & -> & ->).
  rewrite (InMemory_serve_pass _ _ _ _ _ _ Hpass'). simpl.
  rewrite InMemory_delete_product_eq. unfold deletion.
  rewrite (index_of_id_first del _ (length st) (new_entity E name sku p s category)).
  - unfold send. simpl. rewrite delete_take_drop, take_app_length.
    rewrite drop_app_ge by lia.
    replace (S (length st) - length st)%nat with 1%nat by lia. simpl.
    now rewrite app_nil_r.
  - rewrite Hid. apply first_with_id_snoc; [exact Hfresh|apply has_id_new_entity].
Qed.

Lemma create_then_delete_restores_witness :
  InMemory.serve demo_process demo_environment products_delete (as_alice Undefined "p-2")
    (snd (InMemory.serve demo_process demo_environment products_create
            (as_bob mouse "") demo_store))
  = ({| status := 204; sent := no_content |}, demo_store).
Proof.
  apply (create_then_delete_restores demo_process demo_environment demo_environment
           (as_bob mouse "") (set_user (as_bob mouse "") (jwt.payload bob_token))
           (as_alice Undefined "p-2")
           (set_user (as_alice Undefined "p-2") (jwt.payload alice_token))
           demo_store
           (fst (InMemory.serve demo_process demo_environment products_create
                   (as_bob mouse "") demo_store))).
  - reflexivity.
  - apply surjective_pairing.
  - vm_compute. reflexivity.
  - reflexivity.
  - reflexivity.
  - reflexivity.
Defined.


Lemma own_props_or_else (b : value) : own_props (or_else b (Obj ∅)) = own_props b.
Proof.
  unfold or_else. destruct (ToBoolean b) eqn:Hb; [reflexivity|].
  destruct b as [| |[]|n|s|l|m]; try discriminate; try reflexivity.
  destruct s; [reflexivity|discriminate].
Qed.

Lemma new_entity_keys (E : environment) (name sku : value) (p s : number)
    (category : value) (k : string) :
  is_Some (new_entity E name sku p s category !! k) <-> In k ("id" :: product_fields).
Proof.
  unfold new_entity, product_fields.
  rewrite !lookup_insert_is_Some', <- (insert_empty (M:=gmap string)),
    lookup_insert_is_Some', lookup_empty.
  simpl. split.
  - intros [?|[?|[?|[?|[?|[?|[? [=]]]]]]]]; auto 10.
  - intros [?|[?|[?|[?|[?|[?|[]]]]]]]; auto 10.
Qed.

(** X6 ([POST /products]): in the in-memory revision a product created
    (201) is appended at the end of the store; its identifier is the one
    drawn by the server, whatever the payload holds under [id]; [name],
    [sku] and [category] are those of the payload; and it has the six keys
    [id], [name], [sku], [price], [stock], [category] and no other: every
    other key of the payload is dropped. *)
Theorem created_product_shape (P : process) (E : environment) (req req' : request)
    (st : store) (res : response) (st' : store) :
  run_gates (gates P E products_create) req = next req' ->
  InMemory.serve P E products_create req st = (res, st') ->
  status res = 201 ->
  exists entity : object,
    st' = st ++ [entity]
    /\ res = res_json 201 (ok E req (Value (Obj entity)) no_meta)
    /\ entity !! "id" = Some (Str (uuid E))
    /\ (forall k, In k ["name"; "sku"; "category"] ->
          entity !! k = own_props (body req) !! k)
    /\ (forall k, is_Some (entity !! k) <-> In k ("id" :: product_fields)).
Proof.
  intros Hpass. rewrite (InMemory_serve_pass _ _ _ _ _ _ Hpass). simpl.
  rewrite post_products_eq. intros Hrun Hok.
  destruct (creation_succeeds E (InMemory.error_middleware E) _ _ _ _
              (fun _ _ => eq_refl) Hrun Hok) as (p & s & Hvalid & _ & -> & ->).
  pose proof (valid_name _ _ _ Hvalid) as Hname.
  pose proof (valid_sku _ _ _ Hvalid) as Hsku.
  pose proof (valid_category _ _ _ Hvalid) as Hcat.
  rewrite own_props_or_else in *.
  eexists. split; [reflexivity|]. split; [reflexivity|]. split; [reflexivity|].
  split; [|apply new_entity_keys].
  intros k Hk. simpl in Hk.
  destruct Hk as [<-|[<-|[<-|[]]]]; symmetry;
    [rewrite (field_truthy_lookup _ _ Hname)|rewrite (field_truthy_lookup _ _ Hsku)
    |rewrite (field_truthy_lookup _ _ Hcat)]; reflexivity.
Qed.


Lemma created_product_shape_witness :
  exists entity : object,
    snd (InMemory.serve demo_process demo_environment products_create
           (as_bob labelled_mouse "") demo_store) = demo_store ++ [entity]
    /\ entity !! "id" = Some (Str "p-2")
    /\ ~ is_Some (entity !! "color").
Proof.
  destruct (created_product_shape demo_process demo_environment
              (as_bob labelled_mouse "")
              (set_user (as_bob labelled_mouse "") (jwt.payload bob_token)) demo_store
              (fst (InMemory.serve demo_process demo_environment products_create
                      (as_bob labelled_mouse "") demo_store))
              (snd (InMemory.serve demo_process demo_environment products_create
                      (as_bob labelled_mouse "") demo_store)))
    as (entity & Hst & _ & Hid & _ & Hkeys).
  - reflexivity.
  - apply surjective_pairing.
  - vm_compute. reflexivity.
  - exists entity. split; [exact Hst|]. split; [exact Hid|].
    rewrite Hkeys. unfold product_fields. simpl. intuition discriminate.
Defined.

(** ** The gates *)

Lemma requireApiKey_refuses (P : process) (req : request) :
  header_x_api_key req <> Some (APIKeyGenerator.apiKey (apiKeyGen P)) ->
  requireApiKey P req = next_err (Web (new_ErrorWeb "API Key inválida" 403)).
Proof.
  intros Hne. unfold requireApiKey, APIKeyGenerator.validateAPIKey.
  destruct (header_x_api_key req) as [k|]; [|reflexivity].
  destruct (String.eqb_spec k (APIKeyGenerator.apiKey (apiKeyGen P))) as [->|_];
    [congruence|reflexivity].
Qed.

Lemma credentials_status (P : process) (E : environment) (users : list user_record)
    (req : request) (username password : value) :
  status (credentials P E users req username password) = 200
  \/ status (credentials P E users req username password) = 401.
Proof. unfold credentials. destruct (find_user _ _ _); simpl; auto. Qed.

Lemma key_handler_status (P : process) (E : environment) (stored : list user_record)
    (ep : endpoint) (req : request) (st : store) :
  In ep [auth_login; products_list; products_detail] ->
  (exists res, InMemory.handler_of P E ep req st = (Normal res, st)
               /\ In (status res) [200; 400; 401; 404])
  /\ (exists res, Index.handler_of P E ep req st = (Normal res, st)
                  /\ In (status res) [200; 400; 401; 404])
  /\ (exists res, Persisted.handler_of P E stored ep req st = (Normal res, st)
                  /\ In (status res) [200; 400; 401; 404]).
Proof.
  intros Hep. simpl in Hep. destruct Hep as [<-|[<-|[<-|[]]]];
    cbn [InMemory.handler_of Index.handler_of Persisted.handler_of].
  - unfold post_auth_login, Persisted.post_auth_login. unfold_M.
    rewrite !(Get_truthy _ _ (or_else_object_truthy (body req))).
    split_and!.
    + destruct (_ || _); eexists; (split; [reflexivity|]); simpl; auto.
      destruct (credentials_status P E users req
                  (field (own_props (or_else (body req) (Obj ∅))) "username")
                  (field (own_props (or_else (body req) (Obj ∅))) "password"))
        as [->| ->]; auto.
    + destruct (_ || _); eexists; (split; [reflexivity|]); simpl; auto.
      destruct (credentials_status P E users req
                  (field (own_props (or_else (body req) (Obj ∅))) "username")
                  (field (own_props (or_else (body req) (Obj ∅))) "password"))
        as [->| ->]; auto.
    + destruct (_ || _); eexists; (split; [reflexivity|]); simpl; auto.
      destruct (credentials_status P E stored req
                  (field (own_props (or_else (body req) (Obj ∅))) "username")
                  (field (own_props (or_else (body req) (Obj ∅))) "password"))
        as [->| ->]; auto.
  - split_and!; eexists; (split; [reflexivity|]); simpl; auto.
  - rewrite get_product_eq.
    destruct (index_of_id st req ≫= _);
      split_and!; eexists; (split; [reflexivity|]); simpl; auto.
Qed.

(** X7 (API-key gate, [requireApiKey] and [validateAPIKey]): the login,
    list and detail routes answer 403 exactly when the [x-api-key] header
    is absent or is not the key of the process. The response is then the
    failure envelope with the message of [validateAPIKey], and the store
    is left as it is. *)
Theorem api_key_required (P : process) (E : environment) (stored : list user_record)
    (ep : endpoint) (req : request) (st : store) :
  In ep [auth_login; products_list; products_detail] ->
  (header_x_api_key req <> Some (APIKeyGenerator.apiKey (apiKeyGen P)) ->
     InMemory.serve P E ep req st = (refused E req 403 "API Key inválida", st)
     /\ Persisted.serve P E stored ep req st = (refused E req 403 "API Key inválida", st)
     /\ Index.serve P E ep req st
        = (Index_refused E req 403 "FORBIDDEN" "API Key inválida", st))
  /\ (header_x_api_key req = Some (APIKeyGenerator.apiKey (apiKeyGen P)) ->
      status (fst (InMemory.serve P E ep req st)) <> 403
      /\ status (fst (Persisted.serve P E stored ep req st)) <> 403
      /\ status (fst (Index.serve P E ep req st)) <> 403).
Proof.
  intros Hep. split.
  - intros Hne. pose proof (requireApiKey_refuses P req Hne) as Hgate.
    assert (gates P E ep = [] ++ requireApiKey P :: []) as Hgates
      by (simpl in Hep; destruct Hep as [<-|[<-|[<-|[]]]]; reflexivity).
    unfold InMemory.serve, Persisted.serve, Index.serve. rewrite Hgates.
    rewrite !(route_fail [] [] _ _ _ req req _ st eq_refl Hgate). auto.
  - intros Hkey. pose proof (key_routes_pass P E ep req Hep Hkey) as Hpass.
    rewrite (InMemory_serve_pass _ _ _ _ _ _ Hpass), (Index_serve_pass _ _ _ _ _ _ Hpass),
      (Persisted_serve_pass _ _ _ _ _ _ _ Hpass).
    destruct (key_handler_status P E stored ep req st Hep)
      as ((r1 & -> & H1) & (r2 & -> & H2) & (r3 & -> & H3)).
    simpl in H1, H2, H3 |- *.
    split_and!; intros H403; rewrite H403 in *;
      repeat match goal with H : _ \/ _ |- _ => destruct H end;
      try discriminate; try contradiction.
Qed.


Lemma api_key_required_witness :
  InMemory.serve demo_process demo_environment products_list
    (request_with None (Some "guess") Undefined "" "/products") demo_store
  = (refused demo_environment (request_with None (Some "guess") Undefined "" "/products")
       403 "API Key inválida",
     demo_store).
Proof.
  refine (proj1 (proj1 (api_key_required demo_process demo_environment users
                          products_list
                          (request_with None (Some "guess") Undefined "" "/products")
                          demo_store _) _)).
  - simpl. auto.
  - simpl. discriminate.
Defined.

Lemma authJWT_refuses (P : process) (E : environment) (req : request) :
  (forall j, header_authorization req <> Some (Bearer j)) ->
  authJWT P E req
  = next_err (Web (new_ErrorWeb (bearer_complaint (header_authorization req)) 401)).
Proof.
  intros Hno. unfold authJWT, bearer_complaint.
  destruct (header_authorization req) as [[s|j]|]; [|destruct (Hno j eq_refl)|reflexivity].
  unfold bearer_token. destruct (strip_prefix "Bearer " s) as [[|a t]|]; reflexivity.
Qed.

Lemma write_gates (P : process) (E : environment) (ep : endpoint) :
  mutating ep = true -> gates P E ep = [authJWT P E; roleCheck (roles_of ep)].
Proof. destruct ep; try discriminate; reflexivity. Qed.

(** X8 (bearer-token gate, [authJWT]): a create, update or delete request
    whose [Authorization] header holds no JWS is answered 401 and leaves
    the store as it is, whatever its API key: with the message "Falta
    token" when the header is absent, does not start with [Bearer ] or has
    nothing after it, and with the message of [verifyToken] for any other
    text. *)
Theorem bearer_token_required (P : process) (E : environment)
    (stored : list user_record) (ep : endpoint) (req : request) (st : store) :
  mutating ep = true ->
  (forall j, header_authorization req <> Some (Bearer j)) ->
  InMemory.serve P E ep req st
  = (refused E req 401 (bearer_complaint (header_authorization req)), st)
  /\ Persisted.serve P E stored ep req st
     = (refused E req 401 (bearer_complaint (header_authorization req)), st)
  /\ Index.serve P E ep req st
     = (Index_refused E req 401 "UNAUTHORIZED"
          (bearer_complaint (header_authorization req)), st).
Proof.
  intros Hep Hno. pose proof (authJWT_refuses P E req Hno) as Hgate.
  unfold InMemory.serve, Persisted.serve, Index.serve. rewrite (write_gates P E ep Hep).
  change [authJWT P E; roleCheck (roles_of ep)]
    with ([] ++ authJWT P E :: [roleCheck (roles_of ep)]).
  rewrite !(route_fail [] _ _ _ _ req req _ st eq_refl Hgate).
  unfold refused, Index_refused, InMemory.error_middleware, Index.error_middleware.
  simpl. split_and!; try reflexivity.
  all: destruct (bearer_complaint (header_authorization req)) eqn:Hc; try reflexivity.
  all: exfalso; revert Hc; unfold bearer_complaint;
    destruct (header_authorization req) as [[s|j]|]; try discriminate;
    destruct (strip_prefix "Bearer " s) as [[|a t]|]; discriminate.
Qed.

Lemma bearer_token_required_witness :
  InMemory.serve demo_process demo_environment products_create
    (request_with None (Some "4f1c") mouse "" "/products") demo_store
  = (refused demo_environment (request_with None (Some "4f1c") mouse "" "/products")
       401 "Falta token",
     demo_store).
Proof.
  refine (proj1 (bearer_token_required demo_process demo_environment users
                   products_create (request_with None (Some "4f1c") mouse "" "/products")
                   demo_store eq_refl _)).
  simpl. discriminate.
Defined.

Lemma existsb_eqb_In (r : string) (roles : list string) :
  existsb (String.eqb r) roles = true <-> In r roles.
Proof.
  rewrite existsb_exists. split.
  - intros (x & Hx & Heq). apply String.eqb_eq in Heq. now subst.
  - intros Hin. exists r. split; [exact Hin|apply String.eqb_refl].
Qed.

Lemma verifyToken_Normal (P : process) (t : Z) (tok : jwt.token) (c : jwt.claims) :
  JWTGenerator.verifyToken (jwtGen P) tok t = Normal c <->
  exists j, tok = jwt.Compact j /\ valid_at P t j /\ c = jwt.payload j.
Proof.
  unfold JWTGenerator.verifyToken, valid_at. split.
  - destruct (jwt.verify tok _ t) as [c'|err] eqn:Hv; [|discriminate].
    intros [= <-]. apply verify_Normal in Hv as (j & -> & Hk & Hn & He & ->).
    exists j. auto.
  - intros (j & -> & (Hk & Hn & He) & ->).
    rewrite (proj2 (verify_Normal (JWTGenerator.Secret (jwtGen P)) (jwt.Compact j) t
                      (jwt.payload j))); [reflexivity|].
    exists j. auto.
Qed.

Lemma write_gates_pass (P : process) (E : environment) (roles : list string)
    (req req' : request) :
  run_gates [authJWT P E; roleCheck roles] req = next req' <->
  exists j, header_authorization req = Some (Bearer j)
            /\ valid_at P (now E) j
            /\ In (jwt.role (jwt.payload j)) roles
            /\ req' = set_user req (jwt.payload j).
Proof.
  split.
  - simpl. destruct (authJWT P E req) as [r1|] eqn:Hauth; [|discriminate].
    apply authJWT_next in Hauth as (tok & c & Htok & Hv & ->).
    destruct (roleCheck roles _) as [r2|] eqn:Hrole; [|discriminate].
    apply roleCheck_next in Hrole as (-> & u & Hu & Hin). intros [= <-].
    simpl in Hu. injection Hu as <-.
    apply verifyToken_Normal in Hv as (j & -> & Hvalid & ->).
    exists j. split_and!; try assumption; try reflexivity.
    + unfold bearer_token in Htok.
      destruct (header_authorization req) as [[s|j']|]; try discriminate.
      * destruct (strip_prefix "Bearer " s); discriminate.
      * congruence.
    + now apply existsb_eqb_In.
  - intros (j & Hh & Hvalid & Hin & ->). simpl. unfold authJWT. rewrite Hh. simpl.
    rewrite (proj2 (verifyToken_Normal P (now E) (jwt.Compact j) (jwt.payload j)))
      by eauto.
    unfold roleCheck. simpl. rewrite (proj2 (existsb_eqb_In _ _) Hin). reflexivity.
Qed.

Lemma write_gates_forbidden (P : process) (E : environment) (roles : list string)
    (req : request) (j : jwt.jws) :
  header_authorization req = Some (Bearer j) ->
  valid_at P (now E) j ->
  ~ In (jwt.role (jwt.payload j)) roles ->
  run_gates [authJWT P E; roleCheck roles] req = next_err forbidden.
Proof.
  intros Hh Hvalid Hnot. simpl. unfold authJWT. rewrite Hh. simpl.
  rewrite (proj2 (verifyToken_Normal P (now E) (jwt.Compact j) (jwt.payload j)))
    by eauto.
  unfold roleCheck. simpl.
  destruct (existsb _ roles) eqn:Hin; [|reflexivity].
  apply existsb_eqb_In in Hin. contradiction.
Qed.

Lemma write_gates_invalid (P : process) (E : environment) (roles : list string)
    (req : request) (j : jwt.jws) :
  header_authorization req = Some (Bearer j) ->
  ~ valid_at P (now E) j ->
  run_gates [authJWT P E; roleCheck roles] req = next_err invalid_token.
Proof.
  intros Hh Hnot. simpl. unfold authJWT. rewrite Hh. simpl.
  destruct (JWTGenerator.verifyToken (jwtGen P) (jwt.Compact j) (now E)) as [c|e] eqn:Hv.
  - apply verifyToken_Normal in Hv as (j' & [= <-] & Hvalid & _). contradiction.
  - revert Hv. unfold JWTGenerator.verifyToken.
    destruct (jwt.verify _ _ _); [discriminate|]. intros [= <-]. reflexivity.
Qed.

(** X9 (the gates of the write routes, [authJWT] and [roleCheck]): a
    request passes the gates of a create, update or delete route exactly
    when its [Authorization] header holds a JWS signed with the secret of
    the process, whose [nbf], if any, is a number of seconds that the
    clock has reached, whose [exp], if any, is a number of seconds that
    the clock has not reached, and whose role is one the route lets in:
    editor or admin to create and update, admin to delete. The claims of
    the token are then attached as [req.user]; the API key plays no part.
    So every request that may delete may also create and update. A
    request with a token that is rightly signed and not expired, but whose
    [nbf] is still to come, is refused by the token gate. *)
Theorem write_gates_pass_iff (P : process) (E : environment) (ep : endpoint)
    (req req' : request) :
  mutating ep = true ->
  (run_gates (gates P E ep) req = next req' <->
   exists j, header_authorization req = Some (Bearer j)
             /\ valid_at P (now E) j
             /\ In (jwt.role (jwt.payload j)) (roles_of ep)
             /\ req' = set_user req (jwt.payload j))
  /\ (run_gates (gates P E products_delete) req = next req' ->
      run_gates (gates P E products_create) req = next req'
      /\ run_gates (gates P E products_update) req = next req')
  /\ (forall j n,
        header_authorization req = Some (Bearer j) ->
        jwt.nbf (jwt.payload j) = Some (jwt.NumericDate n) -> now E < n ->
        run_gates (gates P E ep) req = next_err invalid_token).
Proof.
  intros Hep. split; [|split].
  - rewrite (write_gates P E ep Hep). apply write_gates_pass.
  - rewrite !(write_gates P E) by reflexivity. rewrite !write_gates_pass.
    intros (j & Hh & Hvalid & Hin & ->). simpl in Hin. destruct Hin as [Hin|[]].
    split; exists j; split_and!; auto; simpl; auto.
  - intros j n Hh Hn Hlt. rewrite (write_gates P E ep Hep).
    apply (write_gates_invalid P E _ req j Hh).
    intros (_ & Hs & _). unfold started in Hs. rewrite Hn in Hs. lia.
Qed.

Lemma write_gates_pass_iff_witness :
  run_gates (gates demo_process demo_environment products_update) (as_bob mouse "p-1")
  = next (set_user (as_bob mouse "p-1") (jwt.payload bob_token)).
Proof.
  apply (proj1 (write_gates_pass_iff demo_process demo_environment products_update
                  (as_bob mouse "p-1")
                  (set_user (as_bob mouse "p-1") (jwt.payload bob_token)) eq_refl)).
  exists bob_token. split; [reflexivity|]. split; [|split; [simpl; auto|reflexivity]].
  split; [reflexivity|]. split; [exact I|reflexivity].
Defined.


(** ** Tokens, from issue to use *)

(** X10 ([generateToken], [verifyToken], [decodeToken]): a token issued
    by [generateToken] decodes to the payload it was issued for, with the
    time of issue, an expiry (one hour later unless the options say
    otherwise) and an issuer (["laboratorio8-api"] unless the options say
    otherwise). The generator that issued it verifies it to these claims at
    every time before the expiry and rejects it from the expiry on; a
    generator with another secret rejects it at every time. *)
Theorem generated_token_round_trip (g : JWTGenerator.t) (sub role username : string)
    (o : jwt.options) (t0 t : Z) :
  JWTGenerator.decodeToken (JWTGenerator.generateToken g sub role username o t0)
  = Some (issued_claims sub role username o t0)
  /\ (t < t0 + default 3600 (jwt.expiresIn o) ->
      JWTGenerator.verifyToken g (JWTGenerator.generateToken g sub role username o t0) t
      = Normal (issued_claims sub role username o t0))
  /\ (t0 + default 3600 (jwt.expiresIn o) <= t ->
      JWTGenerator.verifyToken g (JWTGenerator.generateToken g sub role username o t0) t
      = Throw invalid_token)
  /\ (forall g' : JWTGenerator.t,
        JWTGenerator.Secret g' <> JWTGenerator.Secret g ->
        JWTGenerator.verifyToken g' (JWTGenerator.generateToken g sub role username o t0) t
        = Throw invalid_token).
Proof.
  unfold JWTGenerator.generateToken, JWTGenerator.verifyToken, JWTGenerator.decodeToken,
    jwt.sign, jwt.verify, jwt.decode, jwt.merge, issued_claims, invalid_token.
  destruct o as [[d|] [i|]]; simpl;
    (split; [reflexivity|]); (split; [|split]).
  all: try (intros g' Hne; rewrite bool_decide_false by congruence; reflexivity).
  all: intros H; rewrite bool_decide_true by reflexivity.
  all: unfold jwt.check_nbf, jwt.check_exp; simpl.
  all: match goal with |- context [?e <=? ?x] => destruct (Z.leb_spec e x) end;
       first [reflexivity | lia].
Qed.

Lemma generated_token_round_trip_witness :
  JWTGenerator.verifyToken (jwtGen demo_process)
    (JWTGenerator.generateToken (jwtGen demo_process) "u2" "editor" "bob"
       {| jwt.expiresIn := None; jwt.issuer := None |} 1700000000) 1700003599
  = Normal (issued_claims "u2" "editor" "bob"
              {| jwt.expiresIn := None; jwt.issuer := None |} 1700000000).
Proof.
  apply (proj1 (proj2 (generated_token_round_trip (jwtGen demo_process) "u2" "editor"
                         "bob" {| jwt.expiresIn := None; jwt.issuer := None |}
                         1700000000 1700003599))).
  reflexivity.
Defined.

Lemma login_token_jws (P : process) (E : environment) (u : user_record) :
  login_token P E u
  = jwt.Compact {| jwt.payload := login_claims P E u;
                   jwt.signing_key := Some (JWTGenerator.Secret (jwtGen P)) |}.
Proof. reflexivity. Qed.

(** X11 (login, then the write routes): the token that login issues for a
    stored user opens, in a later request to the same process, the write
    routes that the role of the user lets in, until it expires: two hours
    after the login unless [JWT_EXPIRES] says otherwise. The claims
    attached to the request are those of the user. On the routes that the
    role does not let in the request is refused by the role gate (403);
    from the expiry on, and on a process with another secret, it is
    refused by the token gate (401). *)
Theorem login_token_access (P : process) (E0 E : environment) (u : user_record)
    (req : request) (ep : endpoint) (j : jwt.jws) :
  login_token P E0 u = jwt.Compact j ->
  header_authorization req = Some (Bearer j) ->
  mutating ep = true ->
  (now E < now E0 + default 7200 (JWT_EXPIRES P) ->
     (In (user_role u) (roles_of ep) ->
        run_gates (gates P E ep) req = next (set_user req (login_claims P E0 u)))
     /\ (~ In (user_role u) (roles_of ep) ->
           run_gates (gates P E ep) req = next_err forbidden))
  /\ (now E0 + default 7200 (JWT_EXPIRES P) <= now E ->
      run_gates (gates P E ep) req = next_err invalid_token)
  /\ (forall P' : process,
        JWTGenerator.Secret (jwtGen P') <> JWTGenerator.Secret (jwtGen P) ->
        run_gates (gates P' E ep) req = next_err invalid_token).
Proof.
  rewrite login_token_jws. intros [= <-] Hh Hep.
  split; [|split].
  - intros Hlt.
    assert (valid_at P (now E)
              {| jwt.payload := login_claims P E0 u;
                 jwt.signing_key := Some (JWTGenerator.Secret (jwtGen P)) |}) as Hvalid.
    { split; [reflexivity|]. split; [exact I|exact Hlt]. }
    rewrite (write_gates P E ep Hep). split.
    + intros Hin. apply write_gates_pass. eexists. split; [exact Hh|]. auto.
    + intros Hnot. eapply write_gates_forbidden; eauto.
  - intros Hle. rewrite (write_gates P E ep Hep).
    eapply write_gates_invalid; [exact Hh|].
    intros (_ & _ & Hexp). unfold unexpired in Hexp. simpl in Hexp. lia.
  - intros P' Hne. rewrite (write_gates P' E ep Hep).
    eapply write_gates_invalid; [exact Hh|].
    intros (Hk & _). simpl in Hk. congruence.
Qed.

Lemma login_token_access_witness :
  run_gates (gates demo_process demo_environment products_create)
    (request_with (Some bob_login_token) None mouse "" "/products")
  = next (set_user (request_with (Some bob_login_token) None mouse "" "/products")
            (login_claims demo_process demo_environment bob)).
Proof.
  refine (proj1 (proj1 (login_token_access demo_process demo_environment
                          demo_environment bob
                          (request_with (Some bob_login_token) None mouse "" "/products")
                          products_create bob_login_token eq_refl eq_refl eq_refl)
                   _) _).
  - reflexivity.
  - simpl. auto.
Defined.


(** ** Responses and the store, on every route *)

Lemma well_formed_set_user (E : environment) (req : request) (c : jwt.claims)
    (res : response) :
  well_formed E (set_user req c) res <-> well_formed E req res.
Proof. reflexivity. Qed.

Lemma well_formed_fail (E : environment) (req : request) (c : Z) (code m : string)
    (d : value) :
  In c [400; 401; 403; 404; 409; 422; 500] ->
  well_formed E req (res_json c (fail E req c code m d)).
Proof. intros Hc. unfold well_formed. simpl. auto. Qed.

Lemma well_formed_ok (E : environment) (req : request) (c : Z) (d : data) (meta : value) :
  c = 200 \/ c = 201 -> well_formed E req (res_json c (ok E req d meta)).
Proof. intros Hc. unfold well_formed. simpl. auto. Qed.

Lemma gates_outcome (P : process) (E : environment) (ep : endpoint) (req : request) :
  (exists req', run_gates (gates P E ep) req = next req')
  \/ (exists m c req1,
        (c = 401 \/ c = 403) /\ originalUrl req1 = originalUrl req
        /\ forall (h : handler) (on_error : error_handler) (st : store),
             route (gates P E ep) h on_error req st
             = (on_error (Web (new_ErrorWeb m c)) req1, st)).
Proof.
  assert (forall roles,
            (exists req', run_gates [authJWT P E; roleCheck roles] req = next req')
            \/ (exists m c req1,
                  (c = 401 \/ c = 403) /\ originalUrl req1 = originalUrl req
                  /\ forall (h : handler) (on_error : error_handler) (st : store),
                       route [authJWT P E; roleCheck roles] h on_error req st
                       = (on_error (Web (new_ErrorWeb m c)) req1, st))) as Hwrite.
  { intros roles. simpl. unfold authJWT.
    destruct (bearer_token (header_authorization req)) as [tok|];
      [|right; exists "Falta token", 401, req; auto].
    destruct (no_token (Some tok)); [right; exists "Falta token", 401, req; auto|].
    unfold JWTGenerator.verifyToken.
    destruct (jwt.verify tok _ _) as [c|e];
      [|right; exists "Token inválido o expirado", 401, req; auto].
    unfold roleCheck. simpl.
    destruct (existsb _ roles); [left; eauto|].
    right. exists "Permisos insuficientes", 403, (set_user req c). auto. }
  assert ((exists req', run_gates [requireApiKey P] req = next req')
          \/ (exists m c req1,
                (c = 401 \/ c = 403) /\ originalUrl req1 = originalUrl req
                /\ forall (h : handler) (on_error : error_handler) (st : store),
                     route [requireApiKey P] h on_error req st
                     = (on_error (Web (new_ErrorWeb m c)) req1, st))) as Hkey.
  { simpl. unfold requireApiKey, APIKeyGenerator.validateAPIKey.
    destruct (header_x_api_key req) as [k|];
      [|right; exists "API Key inválida", 403, req; auto].
    destruct (String.eqb k _); [left; eauto|].
    right; exists "API Key inválida", 403, req; auto. }
  destruct ep; try exact Hkey; try apply Hwrite. left. simpl. eauto.
Qed.

Lemma filter_length_eq {A} (f : A -> bool) (l : list A) :
  length (filter (fun x => f x = true) l) = length l ->
  filter (fun x => f x = true) l = l.
Proof.
  induction l as [|x l IH]; [reflexivity|].
  destruct (f x) eqn:Hx.
  - rewrite filter_cons_True by exact Hx. simpl. intros [= H]. now rewrite IH.
  - rewrite filter_cons_False by (rewrite Hx; discriminate). simpl. intros H.
    pose proof (length_filter (fun x => f x = true) l). lia.
Qed.

Section Handled.

Variable E : environment.
Variable req : request.
Variable st : store.
Variable disk : bool.

Lemma handled_Normal (res : response) :
  well_formed E req res -> handled E req st disk (Normal res, st).
Proof. intros H. split; [exact H|]. left. reflexivity. Qed.

Lemma handled_fail (c : Z) (code m : string) (d : value) :
  In c [400; 401; 403; 404; 409; 422; 500] ->
  handled E req st disk (Normal (res_json c (fail E req c code m d)), st).
Proof. intros Hc. apply handled_Normal, well_formed_fail, Hc. Qed.

Lemma handled_ToNumber (v : value) (e : exn) :
  ToNumber v = Throw e -> handled E req st disk (Throw e, st).
Proof. intros H. apply ToNumber_Throw in H as (name & m & ->). reflexivity. Qed.

Variable finish : response -> store -> completion response * store.
Hypothesis finish_handled : forall res st',
  well_formed E req res -> status res < 400 ->
  handled E req st disk (finish res st').

Lemma creation_handled : handled E req st disk (creation E finish req st).
Proof.
  unfold creation.
  destruct (validateProduct _) as [errors|e] eqn:Hv.
  - destruct (is_nil errors); [|apply handled_fail; simpl; auto 10].
    unfold created. destruct (some_sku st _); [apply handled_fail; simpl; auto 10|].
    destruct (ToNumber (field _ "price")) as [p|e] eqn:Hp;
      [|eapply handled_ToNumber; eauto].
    destruct (ToNumber (field _ "stock")) as [s|e] eqn:Hs;
      [|eapply handled_ToNumber; eauto].
    apply finish_handled; [apply well_formed_ok; auto|simpl; lia].
  - apply validateProduct_Throw in Hv as (name & m & ->);
      [reflexivity|apply or_else_object_truthy].
Qed.

Lemma update_handled (store_as : object -> object -> number -> number -> object) :
  handled E req st disk (update E store_as finish req st).
Proof.
  unfold update.
  destruct (index_of_id st req) as [idx|]; [|apply handled_fail; simpl; auto 10].
  unfold update_of.
  destruct (validateProduct _) as [errors|e] eqn:Hv.
  - destruct (is_nil errors); [|apply handled_fail; simpl; auto 10].
    destruct (sku_taken _ _ _); [apply handled_fail; simpl; auto 10|].
    destruct (ToNumber (field _ "price")) as [p|e] eqn:Hp;
      [|eapply handled_ToNumber; eauto].
    destruct (ToNumber (field _ "stock")) as [s|e] eqn:Hs;
      [|eapply handled_ToNumber; eauto].
    apply finish_handled; [apply well_formed_ok; auto|simpl; lia].
  - apply validateProduct_Throw in Hv as (name & m & ->); reflexivity.
Qed.

Lemma deletion_handled : handled E req st disk (deletion E finish req st).
Proof.
  unfold deletion.
  destruct (index_of_id st req) as [idx|]; [|apply handled_fail; simpl; auto 10].
  apply finish_handled; [reflexivity|simpl; lia].
Qed.

End Handled.

Lemma send_handled (E : environment) (req : request) (st : store) (disk : bool)
    (res : response) (st' : store) :
  well_formed E req res -> status res < 400 ->
  handled E req st disk (send res st').
Proof. intros Hw Hs. split; [exact Hw|]. right. exact Hs. Qed.

Lemma persist_handled (E : environment) (req : request) (st : store)
    (res : response) (st' : store) :
  well_formed E req res -> status res < 400 ->
  handled E req st true (persist E res st').
Proof.
  intros Hw Hs. unfold persist. destruct (write_error E).
  - split; reflexivity.
  - split; [exact Hw|]. right. exact Hs.
Qed.

Lemma credentials_well_formed (P : process) (E : environment)
    (users : list user_record) (req : request) (username password : value) :
  well_formed E req (credentials P E users req username password).
Proof.
  unfold credentials. destruct (find_user _ _ _);
    [apply well_formed_ok|apply well_formed_fail]; simpl; auto.
Qed.

Lemma read_handled (P : process) (E : environment) (stored : list user_record)
    (ep : endpoint) (req : request) (st : store) (disk : bool) :
  mutating ep = false ->
  handled E req st disk (InMemory.handler_of P E ep req st)
  /\ handled E req st disk (Index.handler_of P E ep req st)
  /\ handled E req st disk (Persisted.handler_of P E stored ep req st).
Proof.
  destruct ep; try discriminate; intros _;
    cbn [InMemory.handler_of Index.handler_of Persisted.handler_of].
  - split_and!; apply handled_Normal, well_formed_ok; auto.
  - unfold post_auth_login, Persisted.post_auth_login. unfold_M.
    rewrite !(Get_truthy _ _ (or_else_object_truthy (body req))).
    split_and!; destruct (_ || _);
      first [apply handled_fail; simpl; auto
            |apply handled_Normal, credentials_well_formed].
  - split_and!; apply handled_Normal, well_formed_ok; auto.
  - rewrite get_product_eq.
    destruct (index_of_id st req ≫= _);
      split_and!; first [apply handled_fail; simpl; auto 10
                        |apply handled_Normal, well_formed_ok; auto].
Qed.

Lemma InMemory_handled (P : process) (E : environment) (ep : endpoint)
    (req : request) (st : store) :
  handled E req st false (InMemory.handler_of P E ep req st).
Proof.
  destruct (mutating ep) eqn:Hep;
    [|apply (read_handled P E [] ep req st false Hep)].
  destruct ep; try discriminate; cbn [InMemory.handler_of].
  - rewrite post_products_eq. apply creation_handled. apply send_handled.
  - rewrite InMemory_put_product_eq. apply update_handled. apply send_handled.
  - rewrite InMemory_delete_product_eq. apply deletion_handled. apply send_handled.
Qed.

Lemma Index_handled (P : process) (E : environment) (ep : endpoint)
    (req : request) (st : store) :
  handled E req st false (Index.handler_of P E ep req st).
Proof.
  destruct (mutating ep) eqn:Hep;
    [|apply (read_handled P E [] ep req st false Hep)].
  destruct ep; try discriminate; cbn [Index.handler_of].
  - rewrite post_products_eq. apply creation_handled. apply send_handled.
  - rewrite Index_put_product_eq. apply update_handled. apply send_handled.
  - rewrite Index_delete_product_eq. cbv zeta.
    destruct (_ =? _)%nat eqn:Hlen.
    + apply Nat.eqb_eq in Hlen.
      rewrite (filter_length_eq (fun p => negb (has_id (params_id req) p)) st Hlen).
      apply handled_fail. simpl. auto 10.
    + split; [reflexivity|]. right. simpl. lia.
Qed.

Lemma Persisted_handled (P : process) (E : environment) (stored : list user_record)
    (ep : endpoint) (req : request) (st : store) :
  handled E req st true (Persisted.handler_of P E stored ep req st).
Proof.
  destruct (mutating ep) eqn:Hep;
    [|apply (read_handled P E stored ep req st true Hep)].
  destruct ep; try discriminate; cbn [Persisted.handler_of].
  - rewrite Persisted_post_products_eq. apply creation_handled. apply persist_handled.
  - rewrite Persisted_put_product_eq. apply update_handled. apply persist_handled.
  - rewrite Persisted_delete_product_eq. apply deletion_handled. apply persist_handled.
Qed.

Lemma error_middleware_well_formed (E : environment) (err : exn) (req : request) :
  In (status_of err) [400; 401; 403; 404; 409; 422; 500] ->
  well_formed E req (InMemory.error_middleware E err req)
  /\ well_formed E req (Index.error_middleware E err req).
Proof. intros H. split; apply well_formed_fail, H. Qed.

Lemma handled_url (E : environment) (req req' : request) (st : store) (disk : bool)
    (r : completion response * store) :
  originalUrl req' = originalUrl req ->
  handled E req' st disk r -> handled E req st disk r.
Proof. unfold handled, well_formed. intros ->. tauto. Qed.

Lemma route_settled (P : process) (E : environment) (ep : endpoint) (h : handler)
    (on_error : error_handler) (disk : bool) (req : request) (st : store) :
  (forall req', originalUrl req' = originalUrl req -> handled E req st disk (h req' st)) ->
  (forall err req', status (on_error err req') = status_of err) ->
  (forall err req', originalUrl req' = originalUrl req ->
     In (status_of err) [400; 401; 403; 404; 409; 422; 500] ->
     well_formed E req (on_error err req')) ->
  well_formed E req (fst (route (gates P E ep) h on_error req st))
  /\ (400 <= status (fst (route (gates P E ep) h on_error req st)) ->
      disk = false \/ status (fst (route (gates P E ep) h on_error req st)) < 500 ->
      snd (route (gates P E ep) h on_error req st) = st).
Proof.
  intros Hh Hstatus Hwf.
  destruct (gates_outcome P E ep req) as [(req' & Hpass)|(m & c & req1 & Hc & Hurl & Hrun)].
  - rewrite (route_pass _ _ _ _ _ _ Hpass).
    assert (originalUrl req' = originalUrl req) as Hurl
      by (destruct (gates_pass _ _ _ _ _ Hpass) as [->|[c ->]]; reflexivity).
    specialize (Hh req' Hurl). unfold handled in Hh.
    destruct (h req' st) as [[res|[e|name msg]] st']; simpl in *.
    + destruct Hh as [Hw Hst]. split; [exact Hw|]. intros Hge _.
      destruct Hst as [Hst|Hlt]; [exact Hst|lia].
    + destruct Hh as [-> H500]. split.
      * apply Hwf; [exact Hurl|]. simpl. rewrite H500. simpl. auto 10.
      * rewrite Hstatus. simpl. rewrite H500. simpl. intros _ [[=]|Hlt]. lia.
    + split; [|intros _ _; exact Hh]. apply Hwf; [exact Hurl|]. simpl. auto 10.
  - rewrite Hrun. simpl. split; [|reflexivity].
    apply Hwf; [exact Hurl|]. simpl. destruct Hc as [-> | ->]; simpl; auto.
Qed.

(** X12 (the envelope of the JSON routes): on each of the seven routes
    that answer with the envelope ([GET /ping], [POST /auth/login], and
    the list, detail, create, update and delete routes of [/products]),
    for every request that reaches the route, with its body as
    [express.json()] has left it, and for every store, in the three
    revisions, the response is well formed: a success envelope with status
    200 or 201, a failure envelope that repeats the status of the response,
    one of 400, 401, 403, 404, 409, 422 and 500, or no content with status
    204; and the envelope carries the time of the request and its path.
    [GET /] answers with an HTML banner and is no part of this; nor is a
    request whose body [express.json()] refuses, which reaches no route. *)
Theorem responses_well_formed (P : process) (E : environment)
    (stored : list user_record) (ep : endpoint) (req : request) (st : store) :
  well_formed E req (fst (InMemory.serve P E ep req st))
  /\ well_formed E req (fst (Index.serve P E ep req st))
  /\ well_formed E req (fst (Persisted.serve P E stored ep req st)).
Proof.
  split_and!.
  - apply (route_settled P E ep _ _ false).
    + intros req' Hurl. apply (handled_url _ _ _ _ _ _ Hurl), InMemory_handled.
    + reflexivity.
    + intros err req' Hurl Hin.
      unfold InMemory.error_middleware, fail. rewrite Hurl. apply well_formed_fail, Hin.
  - apply (route_settled P E ep _ _ false).
    + intros req' Hurl. apply (handled_url _ _ _ _ _ _ Hurl), Index_handled.
    + reflexivity.
    + intros err req' Hurl Hin.
      unfold Index.error_middleware, fail. rewrite Hurl.
      cbv zeta. apply well_formed_fail, Hin.
  - apply (route_settled P E ep _ _ true).
    + intros req' Hurl. apply (handled_url _ _ _ _ _ _ Hurl), Persisted_handled.
    + reflexivity.
    + intros err req' Hurl Hin.
      unfold InMemory.error_middleware, fail. rewrite Hurl. apply well_formed_fail, Hin.
Qed.


Lemma read_store (P : process) (E : environment) (stored : list user_record)
    (ep : endpoint) (req : request) (st : store) :
  mutating ep = false ->
  snd (InMemory.handler_of P E ep req st) = st
  /\ snd (Index.handler_of P E ep req st) = st
  /\ snd (Persisted.handler_of P E stored ep req st) = st.
Proof.
  destruct ep; try discriminate; intros _;
    cbn [InMemory.handler_of Index.handler_of Persisted.handler_of];
    rewrite ?post_auth_login_store, ?Persisted_post_auth_login_store,
      ?get_product_store; auto.
Qed.

(** X13 (when the store changes): in [index.js] and in the in-memory
    revision a request that is answered with an error status (400 or
    more) leaves the store exactly as it was; in the persisted revision
    so does every request answered with a status from 400 to 499. On the
    ping, login, list and detail routes the store is never changed,
    whatever the request and the answer. *)
Theorem failures_leave_store (P : process) (E : environment)
    (stored : list user_record) (ep : endpoint) (req : request) (st : store) :
  (400 <= status (fst (InMemory.serve P E ep req st)) ->
     snd (InMemory.serve P E ep req st) = st)
  /\ (400 <= status (fst (Index.serve P E ep req st)) ->
      snd (Index.serve P E ep req st) = st)
  /\ (400 <= status (fst (Persisted.serve P E stored ep req st)) < 500 ->
      snd (Persisted.serve P E stored ep req st) = st)
  /\ (mutating ep = false ->
      snd (InMemory.serve P E ep req st) = st
      /\ snd (Index.serve P E ep req st) = st
      /\ snd (Persisted.serve P E stored ep req st) = st).
Proof.
  split_and!.
  - intros Hge. apply (route_settled P E ep _ _ false); auto.
    + intros req' Hurl. apply (handled_url _ _ _ _ _ _ Hurl), InMemory_handled.
    + intros err req' Hurl Hin.
      unfold InMemory.error_middleware, fail. rewrite Hurl. apply well_formed_fail, Hin.
  - intros Hge. apply (route_settled P E ep _ _ false); auto.
    + intros req' Hurl. apply (handled_url _ _ _ _ _ _ Hurl), Index_handled.
    + intros err req' Hurl Hin.
      unfold Index.error_middleware, fail. rewrite Hurl.
      cbv zeta. apply well_formed_fail, Hin.
  - intros [Hge Hlt]. apply (route_settled P E ep _ _ true); auto.
    + intros req' Hurl. apply (handled_url _ _ _ _ _ _ Hurl), Persisted_handled.
    + intros err req' Hurl Hin.
      unfold InMemory.error_middleware, fail. rewrite Hurl. apply well_formed_fail, Hin.
  - intros Hep. split_and!;
      apply (route_invariant (fun s => s = st)); try reflexivity;
      intros req' st' ->; apply (read_store P E stored ep req' st Hep).
Qed.

Lemma failures_leave_store_witness :
  snd (InMemory.serve demo_process demo_environment products_create
         duplicate_sku_only demo_store) = demo_store.
Proof.
  apply (proj1 (failures_leave_store demo_process demo_environment users
                  products_create duplicate_sku_only demo_store)).
  vm_compute. discriminate.
Defined.


(** ** Updates *)

Lemma SFeqb_refl (n : number) : n <> S754_nan -> SFeqb n n = true.
Proof.
  unfold SFeqb, SFcompare. destruct n as [[]|[]| |[] m e]; try reflexivity.
  - congruence.
  - rewrite Z.compare_refl, Pos.compare_cont_refl. reflexivity.
  - rewrite Z.compare_refl, Pos.compare_cont_refl. reflexivity.
Qed.

(** A truthy value is strictly equal to itself, unless it is an array or
    an object, which is strictly equal to nothing here. *)
Lemma strict_equals_truthy (v : value) :
  ToBoolean v = true ->
  strict_equals v v = true \/ forall x, strict_equals x v = false.
Proof.
  destruct v as [| |b|n|s|l|m]; simpl; try discriminate.
  - intros ->. left. reflexivity.
  - intros Hn. left. apply SFeqb_refl. intros ->. discriminate.
  - intros _. left. apply String.eqb_refl.
  - intros _. right. intros []; reflexivity.
  - intros _. right. intros []; reflexivity.
Qed.

Lemma Get_opt_truthy (b : value) (k : string) :
  ToBoolean (Get_opt b k) = true -> own_props b !! k = Some (Get_opt b k).
Proof.
  destruct b; simpl; try discriminate; apply field_truthy_lookup.
Qed.

Lemma update_succeeds_first (E : environment) (on_error : error_handler)
    (store_as : object -> object -> number -> number -> object)
    (req : request) (st : store) (res : response) (st' : store) :
  (forall name m, status (on_error (Error name m) req) = 500) ->
  answer on_error req (update E store_as send req st) = (res, st') ->
  status res = 200 ->
  exists idx old p s,
    index_of_id st req = Some idx
    /\ st !! idx = Some old
    /\ valid_payload (Obj (spread old (own_props (body req)))) p s
    /\ sku_taken st old req = false
    /\ st' = <[idx := store_as old (spread old (own_props (body req))) p s]> st
    /\ res = res_json 200
               (ok E req
                  (Value (Obj (store_as old (spread old (own_props (body req))) p s)))
                  no_meta).
Proof.
  intros Herr. unfold update.
  destruct (index_of_id st req) as [idx|] eqn:Hidx;
    [|simpl; intros [= <- <-]; discriminate].
  destruct (findIndex_Some _ _ _ Hidx) as (old & Hold & Hid).
  unfold update_of. rewrite Hold. simpl.
  destruct (validateProduct _) as [[|err errors]|e] eqn:Hv.
  - destruct (validateProduct_passes (Obj (spread old (own_props (body req))))
                eq_refl Hv) as (p & s & Hvalid).
    pose proof (valid_price_number _ _ _ Hvalid) as Hp.
    pose proof (valid_stock_number _ _ _ Hvalid) as Hs.
    simpl in Hp, Hs. simpl.
    destruct (sku_taken st old req) eqn:Htaken; [simpl; intros [= <- <-]; discriminate|].
    rewrite Hp, Hs. simpl. intros [= <- <-] _.
    exists idx, old, p, s. auto 10.
  - simpl. intros [= <- <-]; discriminate.
  - apply validateProduct_Throw in Hv as (name & m & ->); [|reflexivity].
    simpl. intros [= <- <-]. rewrite Herr. discriminate.
Qed.

Lemma valid_payload_collected (payload : value) (p s : number) :
  ToBoolean payload = true -> valid_payload payload p s -> collected payload p s = [].
Proof.
  intros Ht [Ho Hn Hsku _ Hp _ Hi Hs Hc]. unfold collected.
  rewrite Ht, Ho, Hn, Hsku, Hp, Hi, Hs, Hc. reflexivity.
Qed.

Section Idempotence.

Variables (old payload : object) (p s : number).
Hypothesis Hvalid : valid_payload (Obj (spread old payload)) p s.

Let merged : object := spread old payload.
Let new : object := updated_product old merged p s.
Let merged' : object := spread new payload.

Lemma field_new (k : string) :
  In k ["name"; "sku"; "category"] -> field new k = field merged k.
Proof.
  intros Hk. unfold new, updated_product. rewrite field_spread.
  simpl in Hk. destruct Hk as [<-|[<-|[<-|[]]]]; reflexivity.
Qed.

Lemma field_merged_again (k : string) :
  In k ["name"; "sku"; "category"] -> field merged' k = field merged k.
Proof.
  intros Hk. unfold merged', merged. rewrite !field_spread.
  destruct (payload !! k) eqn:Hp; [reflexivity|].
  rewrite (field_new k Hk). unfold merged. rewrite field_spread, Hp. reflexivity.
Qed.

Lemma price_merged_again : ToNumber (field merged' "price") = Normal p.
Proof.
  pose proof (valid_price_number _ _ _ Hvalid) as Hp. simpl in Hp.
  fold merged in Hp. unfold merged' at 1. rewrite field_spread.
  unfold merged in Hp. rewrite field_spread in Hp.
  destruct (payload !! "price"); [exact Hp|].
  unfold new, updated_product. rewrite field_spread. reflexivity.
Qed.

Lemma stock_merged_again : ToNumber (field merged' "stock") = Normal s.
Proof.
  pose proof (valid_stock_number _ _ _ Hvalid) as Hs. simpl in Hs.
  unfold merged' at 1. rewrite field_spread.
  rewrite field_spread in Hs.
  destruct (payload !! "stock"); [exact Hs|].
  unfold new, updated_product. rewrite field_spread. reflexivity.
Qed.

Lemma valid_again : validateProduct (Obj merged') = Normal [].
Proof.
  rewrite validateProduct_truthy by reflexivity. simpl.
  rewrite price_merged_again, stock_merged_again. simpl.
  rewrite <- (valid_payload_collected (Obj merged) p s eq_refl Hvalid).
  unfold collected. simpl.
  rewrite !field_merged_again by (simpl; auto). reflexivity.
Qed.

Lemma stored_again : updated_product new merged' p s = new.
Proof.
  unfold updated_product at 1.
  rewrite !field_merged_again by (simpl; auto).
  unfold new at 1, updated_product, spread. fold merged.
  rewrite (assoc_L (∪)), (idemp_L (∪)). reflexivity.
Qed.

End Idempotence.


Lemma sku_not_taken_again (st : store) (old new : object) (req : request) :
  (forall v, own_props (body req) !! "sku" = Some v -> field new "sku" = v) ->
  sku_taken st new req = false.
Proof.
  intros Hnew. unfold sku_taken.
  destruct (ToBoolean (Get_opt (body req) "sku")) eqn:Ht; [|reflexivity].
  rewrite (Hnew _ (Get_opt_truthy _ _ Ht)).
  destruct (strict_equals_truthy _ Ht) as [-> | Hnone]; [reflexivity|].
  simpl. rewrite Hnone. simpl. unfold some_sku.
  induction st as [|q st IH]; [reflexivity|]. simpl. now rewrite Hnone.
Qed.

Lemma index_of_id_insert (st : store) (req : request) (idx : nat) (old new : object) :
  index_of_id st req = Some idx -> st !! idx = Some old ->
  field new "id" = field old "id" ->
  index_of_id (<[idx := new]> st) req = Some idx.
Proof.
  intros Hidx Hold Hid. apply findIndex_first in Hidx as [(x & Hx & Hfx) Hmin].
  apply findIndex_first. split.
  - exists new. split.
    + apply list_lookup_insert_eq. eapply lookup_lt_Some; eauto.
    + rewrite Hid. congruence.
  - intros j y Hj Hy. rewrite list_lookup_insert_ne in Hy by lia. eauto.
Qed.

(** X14 ([PUT /products/:id], repeated): in the in-memory revision an
    update that succeeds (200) can be repeated: the same request, sent
    again, is answered 200 with the same product and leaves the store as
    the first update left it. *)
Theorem update_idempotent (P : process) (E E' : environment) (req req1 req2 : request)
    (st : store) (res : response) (st' : store) :
  run_gates (gates P E products_update) req = next req1 ->
  run_gates (gates P E' products_update) req = next req2 ->
  InMemory.serve P E products_update req st = (res, st') ->
  status res = 200 ->
  exists new : object,
    res = res_json 200 (ok E req (Value (Obj new)) no_meta)
    /\ InMemory.serve P E' products_update req st'
       = (res_json 200 (ok E' req (Value (Obj new)) no_meta), st').
Proof.
  intros Hpass Hpass'.
  rewrite (InMemory_serve_pass _ _ _ _ _ _ Hpass), (InMemory_serve_pass _ _ _ _ _ _ Hpass').
  simpl. rewrite !InMemory_put_product_eq. intros Hrun Hok.
  destruct (update_succeeds_first E (InMemory.error_middleware E) _ _ _ _ _
              (fun _ _ => eq_refl) Hrun Hok)
    as (idx & old & p & s & Hidx & Hold & Hvalid & _ & -> & ->).
  set (payload := own_props (body req)) in *.
  set (new := updated_product old (spread old payload) p s).
  exists new. split; [reflexivity|].
  assert (field new "id" = field old "id") as Hid
    by (unfold new, updated_product; rewrite field_spread; reflexivity).
  assert (<[idx := new]> st !! idx = Some new) as Hnew
    by (apply list_lookup_insert_eq; eapply lookup_lt_Some; eauto).
  unfold update. rewrite (index_of_id_insert _ _ _ _ _ Hidx Hold Hid).
  unfold update_of. rewrite Hnew. simpl.
  fold payload. subst new.
  rewrite (valid_again old payload p s Hvalid). simpl.
  rewrite (sku_not_taken_again _ old _ req).
  - rewrite (price_merged_again old payload p s Hvalid),
      (stock_merged_again old payload p s Hvalid).
    rewrite (stored_again old payload p s).
    unfold send. simpl. rewrite list_insert_insert_eq. reflexivity.
  - intros v Hv. rewrite field_updated_product_sku, field_spread.
    fold payload in Hv. rewrite Hv. reflexivity.
Qed.

Lemma update_idempotent_witness :
  exists new : object,
    fst (InMemory.serve demo_process demo_environment products_update
           (as_bob null_stock_payload "p-1") demo_store)
    = res_json 200
        (ok demo_environment (as_bob null_stock_payload "p-1") (Value (Obj new)) no_meta)
    /\ InMemory.serve demo_process demo_environment products_update
         (as_bob null_stock_payload "p-1")
         (snd (InMemory.serve demo_process demo_environment products_update
                 (as_bob null_stock_payload "p-1") demo_store))
       = (res_json 200
            (ok demo_environment (as_bob null_stock_payload "p-1") (Value (Obj new))
               no_meta),
          snd (InMemory.serve demo_process demo_environment products_update
                 (as_bob null_stock_payload "p-1") demo_store)).
Proof.
  apply (update_idempotent demo_process demo_environment demo_environment
           (as_bob null_stock_payload "p-1")
           (set_user (as_bob null_stock_payload "p-1") (jwt.payload bob_token))
           (set_user (as_bob null_stock_payload "p-1") (jwt.payload bob_token))
           demo_store).
  - reflexivity.
  - reflexivity.
  - apply surjective_pairing.
  - vm_compute. reflexivity.
Defined.


Lemma update_conflict (E : environment) (on_error : error_handler)
    (store_as : object -> object -> number -> number -> object)
    (finish : response -> store -> completion response * store)
    (req : request) (st : store) :
  (forall err, status (on_error err req) = status_of err) ->
  (forall res st', status res = 200 ->
     status (fst (answer on_error req (finish res st'))) <> 409) ->
  status (fst (answer on_error req (update E store_as finish req st))) = 409 ->
  exists idx j current other sku,
    first_with_id (params_id req) st idx current
    /\ j <> idx /\ st !! j = Some other
    /\ own_props (body req) !! "sku" = Some sku
    /\ strict_equals (field other "sku") sku = true
    /\ strict_equals sku (field current "sku") = false
    /\ validateProduct (Obj (spread current (own_props (body req)))) = Normal [].
Proof.
  intros Herr Hfinish. unfold update.
  destruct (index_of_id st req) as [idx|] eqn:Hidx; [|simpl; discriminate].
  destruct (proj1 (findIndex_first _ _ _) Hidx) as [(current & Hcur & Hid) Hmin].
  unfold update_of. rewrite Hcur. simpl.
  destruct (validateProduct _) as [[|err errors]|e] eqn:Hv.
  - simpl. destruct (sku_taken st current req) eqn:Htaken.
    + intros _. unfold sku_taken in Htaken.
      apply andb_prop in Htaken as [Htaken Hsome].
      apply andb_prop in Htaken as [Ht Hne]. apply Bool.negb_true_iff in Hne.
      unfold some_sku in Hsome. apply existsb_exists in Hsome as (other & Hin & Heq).
      apply list_elem_of_In, list_elem_of_lookup in Hin as [j Hj].
      exists idx, j, current, other, (Get_opt (body req) "sku").
      split_and!; try assumption.
      * split; [exact Hcur|]. split; [exact Hid|exact Hmin].
      * intros ->. rewrite Hcur in Hj. injection Hj as <-.
        rewrite strict_equals_sym in Heq. congruence.
      * now apply Get_opt_truthy.
    + destruct (ToNumber (field _ "price")) as [p|e] eqn:Hp.
      * destruct (ToNumber (field _ "stock")) as [s|e] eqn:Hs.
        -- intros H. exfalso. revert H. now apply Hfinish.
        -- apply ToNumber_Throw in Hs as (name & m & ->). simpl. rewrite Herr.
           discriminate.
      * apply ToNumber_Throw in Hp as (name & m & ->). simpl. rewrite Herr.
        discriminate.
  - simpl. discriminate.
  - apply validateProduct_Throw in Hv as (name & m & ->); [|reflexivity].
    simpl. rewrite Herr. discriminate.
Qed.

(** X15 ([PUT /products/:id], its refusals): once the gates have passed,
    an update for an identifier that no product has is answered 404,
    whatever the payload, and changes nothing. An update is answered 409
    only when the merged product has passed validation, the payload has
    a sku that is not strictly equal to the sku of the product updated,
    and another product of the store holds this sku. *)
Theorem update_refusals (P : process) (E : environment) (stored : list user_record)
    (req req' : request) (st : store) :
  run_gates (gates P E products_update) req = next req' ->
  (fresh_id (params_id req) st = true ->
     InMemory.serve P E products_update req st = (not_found E req, st)
     /\ Index.serve P E products_update req st = (not_found E req, st)
     /\ Persisted.serve P E stored products_update req st = (not_found E req, st))
  /\ (status (fst (InMemory.serve P E products_update req st)) = 409
      \/ status (fst (Index.serve P E products_update req st)) = 409
      \/ status (fst (Persisted.serve P E stored products_update req st)) = 409 ->
      exists idx j current other sku,
        first_with_id (params_id req) st idx current
        /\ j <> idx /\ st !! j = Some other
        /\ own_props (body req) !! "sku" = Some sku
        /\ strict_equals (field other "sku") sku = true
        /\ strict_equals sku (field current "sku") = false
        /\ validateProduct (Obj (spread current (own_props (body req)))) = Normal []).
Proof.
  intros Hpass.
  rewrite (InMemory_serve_pass _ _ _ _ _ _ Hpass), (Index_serve_pass _ _ _ _ _ _ Hpass),
    (Persisted_serve_pass _ _ _ _ _ _ _ Hpass).
  cbn [InMemory.handler_of Index.handler_of Persisted.handler_of].
  rewrite InMemory_put_product_eq, Index_put_product_eq, Persisted_put_product_eq.
  split.
  - intros Hfresh. apply index_of_id_fresh in Hfresh. unfold update.
    rewrite Hfresh. auto.
  - intros [H|[H|H]]; revert H; apply update_conflict; try reflexivity.
    + intros res st' Hres. simpl. lia.
    + intros res st' Hres. simpl. lia.
    + intros res st' Hres. unfold persist. destruct (write_error E); simpl; lia.
Qed.

Lemma update_refusals_witness :
  InMemory.serve demo_process demo_environment products_update (as_bob Undefined "p-9")
    demo_store
  = (not_found demo_environment (as_bob Undefined "p-9"), demo_store).
Proof.
  refine (proj1 (proj1 (update_refusals demo_process demo_environment users
                          (as_bob Undefined "p-9")
                          (set_user (as_bob Undefined "p-9") (jwt.payload bob_token))
                          demo_store eq_refl) _)).
  reflexivity.
Defined.


(** ** Integers as numbers: the arithmetic of the list route is exact *)

Lemma digits2_pos_size (m : positive) : digits2_pos m = Pos.size m.
Proof. induction m as [m IH|m IH|]; simpl; congruence. Qed.

Lemma digits2_pos_log2 (m : positive) : Z.pos (digits2_pos m) = Z.log2 (Z.pos m) + 1.
Proof.
  rewrite digits2_pos_size. destruct m as [m|m|]; simpl; try reflexivity;
    rewrite Pos2Z.inj_succ; lia.
Qed.

Lemma Zdigits2_log2 (z : Z) : 0 < z -> Zdigits2 z = Z.log2 z + 1.
Proof. destruct z as [|m|m]; try lia. intros _. apply digits2_pos_log2. Qed.

Lemma iter_xO (m k : positive) : Z.pos (Pos.iter xO m k) = Z.pos m * 2 ^ Z.pos k.
Proof.
  induction k as [|k IH] using Pos.peano_ind.
  - simpl. lia.
  - rewrite Pos.iter_succ, Pos2Z.inj_xO, IH, Pos2Z.inj_succ, Z.pow_succ_r by lia. lia.
Qed.

Lemma shr_1_double (b : Z) :
  0 <= b ->
  shr_1 {| shr_m := 2 * b; shr_r := false; shr_s := false |}
  = {| shr_m := b; shr_r := false; shr_s := false |}.
Proof. destruct b; try lia; reflexivity. Qed.

Lemma iter_shr (n : positive) (a : Z) :
  0 <= a ->
  SpecFloat.iter_pos shr_1 n {| shr_m := a * 2 ^ Z.pos n; shr_r := false; shr_s := false |}
  = {| shr_m := a; shr_r := false; shr_s := false |}.
Proof.
  revert a. induction n as [n IH|n IH|]; intros a Ha.
  - replace (a * 2 ^ Z.pos n~1) with (2 * ((a * 2 ^ Z.pos n) * 2 ^ Z.pos n)).
    + change (SpecFloat.iter_pos shr_1 n
                (SpecFloat.iter_pos shr_1 n
                   (shr_1 {| shr_m := 2 * (a * 2 ^ Z.pos n * 2 ^ Z.pos n);
                             shr_r := false; shr_s := false |}))
              = {| shr_m := a; shr_r := false; shr_s := false |}).
      pose proof (Z.pow_nonneg 2 (Z.pos n) ltac:(lia)).
      rewrite shr_1_double, IH, IH; auto; nia.
    + rewrite (Pos2Z.inj_xI n). replace (2 * Z.pos n + 1) with (Z.pos n + Z.pos n + 1) by lia.
      rewrite (Z.pow_add_r 2 (Z.pos n + Z.pos n) 1) by lia.
      rewrite (Z.pow_add_r 2 (Z.pos n) (Z.pos n)) by lia.
      change (2 ^ 1) with 2. ring.
  - replace (a * 2 ^ Z.pos n~0) with ((a * 2 ^ Z.pos n) * 2 ^ Z.pos n).
    + change (SpecFloat.iter_pos shr_1 n
                (SpecFloat.iter_pos shr_1 n
                   {| shr_m := a * 2 ^ Z.pos n * 2 ^ Z.pos n;
                      shr_r := false; shr_s := false |})
              = {| shr_m := a; shr_r := false; shr_s := false |}).
      pose proof (Z.pow_nonneg 2 (Z.pos n) ltac:(lia)).
      rewrite IH, IH; auto; nia.
    + rewrite (Pos2Z.inj_xO n). replace (2 * Z.pos n) with (Z.pos n + Z.pos n) by lia.
      rewrite (Z.pow_add_r 2 (Z.pos n) (Z.pos n)) by lia. ring.
  - change (2 ^ 1) with 2. rewrite Z.mul_comm. now apply shr_1_double.
Qed.

Lemma shr_exact (a e n : Z) :
  0 <= a -> 0 <= n ->
  shr {| shr_m := a * 2 ^ n; shr_r := false; shr_s := false |} e n
  = ({| shr_m := a; shr_r := false; shr_s := false |}, e + n).
Proof.
  intros Ha Hn. destruct n as [|n|n]; try lia.
  - simpl. rewrite Z.mul_1_r, Z.add_0_r. reflexivity.
  - unfold shr. now rewrite iter_shr.
Qed.

Lemma fexp_normal (x : Z) : -1021 <= x -> fexp prec emax x = x - 53.
Proof. intros H. unfold fexp, emin, prec, emax. lia. Qed.

(** Rounding a mantissa that is an integer of at most 53 bits followed by
    enough zero bits is exact. *)
Lemma binary_round_aux_exact (s : bool) (a k e : Z) :
  0 < a -> Z.log2 a <= 52 -> 0 <= k ->
  0 <= Z.log2 a + k - 52 ->
  -1074 <= e + (Z.log2 a + k - 52) <= 971 ->
  binary_round_aux prec emax s (a * 2 ^ k) e loc_Exact
  = S754_finite s (Z.to_pos (a * 2 ^ (52 - Z.log2 a))) (e + (Z.log2 a + k - 52)).
Proof.
  intros Ha Hla Hk Hn Ht.
  pose proof (Z.log2_nonneg a) as Hl0.
  set (n := Z.log2 a + k - 52) in *.
  set (m := a * 2 ^ (52 - Z.log2 a)).
  assert (0 < m) as Hm by (apply Z.mul_pos_pos; [exact Ha|apply Z.pow_pos_nonneg; lia]).
  assert (a * 2 ^ k = m * 2 ^ n) as HM.
  { unfold m. rewrite <- Z.mul_assoc, <- Z.pow_add_r by lia. do 2 f_equal. lia. }
  assert (shr_fexp prec emax (a * 2 ^ k) e loc_Exact
          = ({| shr_m := m; shr_r := false; shr_s := false |}, e + n)) as Hfirst.
  { unfold shr_fexp. rewrite Zdigits2_log2, Z.log2_mul_pow2, fexp_normal by nia.
    replace (k + Z.log2 a + 1 + e - 53 - e) with n by lia.
    simpl shr_record_of_loc. rewrite HM. apply shr_exact; lia. }
  assert (shr_fexp prec emax m (e + n) loc_Exact
          = ({| shr_m := m; shr_r := false; shr_s := false |}, e + n)) as Hsecond.
  { unfold shr_fexp, m. rewrite Zdigits2_log2, Z.log2_mul_pow2, fexp_normal by nia.
    replace (52 - Z.log2 a + Z.log2 a + 1 + (e + n) - 53 - (e + n)) with 0 by lia.
    reflexivity. }
  unfold binary_round_aux. rewrite Hfirst. simpl. rewrite Hsecond. simpl.
  destruct m as [|q|q] eqn:Hq; try lia.
  unfold emax, prec. destruct (Z.leb_spec (e + n) (1024 - 53)); [reflexivity|lia].
Qed.

(** The same for [binary_round], which first aligns a short mantissa to
    the left. *)
Lemma binary_round_exact (s : bool) (M : positive) (a k e : Z) :
  Z.pos M = a * 2 ^ k -> 0 < a -> Z.log2 a <= 52 -> 0 <= k ->
  -1074 <= Z.log2 a + k + e - 52 <= 971 ->
  binary_round prec emax s M e
  = S754_finite s (Z.to_pos (a * 2 ^ (52 - Z.log2 a))) (Z.log2 a + k + e - 52).
Proof.
  intros HM Ha Hla Hk Ht. pose proof (Z.log2_nonneg a) as Hl0.
  unfold binary_round.
  rewrite digits2_pos_log2, HM, Z.log2_mul_pow2, fexp_normal by lia.
  unfold shl_align.
  replace (k + Z.log2 a + 1 + e - 53 - e) with (Z.log2 a + k - 52) by lia.
  destruct (Z.log2 a + k - 52) as [|n|d] eqn:Hn.
  - rewrite HM, binary_round_aux_exact by lia. f_equal. lia.
  - rewrite HM, binary_round_aux_exact by lia. f_equal. lia.
  - rewrite iter_xO, HM, <- Z.mul_assoc, <- Z.pow_add_r by lia.
    rewrite binary_round_aux_exact by lia. f_equal. lia.
Qed.


Lemma log2_safe (z : Z) : 0 < z < 2 ^ 53 -> 0 <= Z.log2 z <= 52.
Proof.
  intros [H0 H]. split; [apply Z.log2_nonneg|].
  apply Z.log2_lt_pow2 in H; lia.
Qed.

Lemma of_Z_pos (z : Z) : 0 < z < 2 ^ 53 -> of_Z z = integer_float false z.
Proof.
  intros Hz. pose proof (log2_safe z Hz). unfold of_Z, integer_float.
  destruct z as [|m|m]; try lia. simpl binary_normalize.
  rewrite (binary_round_exact false m (Z.pos m) 0 0) by (rewrite ?Z.mul_1_r; lia).
  f_equal. lia.
Qed.

Lemma of_Z_neg (z : Z) : 0 < z < 2 ^ 53 -> of_Z (- z) = integer_float true z.
Proof.
  intros Hz. pose proof (log2_safe z Hz). unfold of_Z, integer_float.
  destruct z as [|m|m]; try lia. simpl binary_normalize.
  rewrite (binary_round_exact true m (Z.pos m) 0 0) by (rewrite ?Z.mul_1_r; lia).
  f_equal. lia.
Qed.

Lemma integer_float_mantissa (z : Z) :
  0 < z < 2 ^ 53 ->
  Z.pos (Z.to_pos (z * 2 ^ (52 - Z.log2 z))) = z * 2 ^ (52 - Z.log2 z).
Proof.
  intros Hz. pose proof (log2_safe z Hz). apply Z2Pos.id.
  apply Z.mul_pos_pos; [lia|]. apply Z.pow_pos_nonneg; lia.
Qed.

(** [ToIntegerOrInfinity] gives an integer back. *)
Lemma of_Z_integer (z : Z) :
  0 <= z < 2 ^ 53 -> ToIntegerOrInfinity (of_Z z) = Finite z.
Proof.
  intros Hz. destruct (Z.eq_dec z 0) as [->|Hne]; [reflexivity|].
  assert (0 < z < 2 ^ 53) as Hz' by lia. pose proof (log2_safe z Hz').
  rewrite (of_Z_pos z Hz'). unfold integer_float, ToIntegerOrInfinity.
  rewrite (integer_float_mantissa z Hz'). f_equal.
  destruct (Z.leb_spec 0 (Z.log2 z - 52)).
  - replace (Z.log2 z - 52) with 0 by lia. replace (52 - Z.log2 z) with 0 by lia.
    simpl. lia.
  - replace (- (Z.log2 z - 52)) with (52 - Z.log2 z) by lia.
    apply Z.div_mul. apply Z.pow_nonzero; lia.
Qed.

Lemma integer_float_compare (a b : Z) :
  0 < a < 2 ^ 53 -> 0 < b < 2 ^ 53 ->
  SFcompare (integer_float false a) (integer_float false b) = Some (a ?= b).
Proof.
  intros Ha Hb. pose proof (log2_safe a Ha). pose proof (log2_safe b Hb).
  unfold integer_float, SFcompare.
  destruct (Z.compare_spec (Z.log2 a - 52) (Z.log2 b - 52)) as [Heq|Hlt|Hgt].
  - change (Pos.compare_cont Eq ?x ?y) with (Z.pos x ?= Z.pos y).
    rewrite !integer_float_mantissa by assumption.
    replace (Z.log2 b) with (Z.log2 a) by lia.
    pose proof (Z.pow_pos_nonneg 2 (52 - Z.log2 a) ltac:(lia) ltac:(lia)) as Hc.
    f_equal. destruct (Z.compare_spec a b) as [->|Hlt|Hgt].
    + apply Z.compare_refl.
    + apply Z.compare_lt_iff. nia.
    + apply Z.compare_gt_iff. nia.
  - assert (a < b) as Hab by (apply Z.log2_lt_cancel; lia).
    symmetry. f_equal. now apply Z.compare_lt_iff.
  - assert (b < a) as Hab by (apply Z.log2_lt_cancel; lia).
    symmetry. f_equal. now apply Z.compare_gt_iff.
Qed.

(** [Math.max(1, p)] on an integer. *)
Lemma of_Z_max (p : Z) :
  - 2 ^ 53 < p < 2 ^ 53 -> Math_max (of_Z 1) (of_Z p) = of_Z (Z.max 1 p).
Proof.
  intros Hp. destruct (Z.compare_spec p 0) as [->|Hneg|Hpos].
  - reflexivity.
  - replace (Z.max 1 p) with 1 by lia. replace p with (- - p) by lia.
    rewrite of_Z_neg by lia. reflexivity.
  - unfold Math_max. rewrite (of_Z_pos 1), (of_Z_pos p) by lia.
    rewrite integer_float_compare by lia.
    destruct (Z.compare_spec 1 p) as [<-|Hlt|Hgt]; try lia.
    + reflexivity.
    + replace (Z.max 1 p) with p by lia. now rewrite of_Z_pos by lia.
Qed.

(** The mantissa of an integer, aligned to an exponent that is not above
    its own. *)
Lemma align_integer_float (a ez : Z) :
  0 < a < 2 ^ 53 -> - 52 <= ez <= Z.log2 a - 52 ->
  Z.pos (fst (shl_align (Z.to_pos (a * 2 ^ (52 - Z.log2 a))) (Z.log2 a - 52) ez))
  = a * 2 ^ (- ez).
Proof.
  intros Ha Hez. pose proof (log2_safe a Ha). unfold shl_align.
  destruct (ez - (Z.log2 a - 52)) as [|d|d] eqn:Hd; try lia; simpl fst.
  - rewrite integer_float_mantissa by assumption. do 2 f_equal. lia.
  - rewrite iter_xO, integer_float_mantissa, <- Z.mul_assoc, <- Z.pow_add_r by lia.
    do 2 f_equal. lia.
Qed.

Lemma of_Z_sub (a b : Z) :
  0 <= b <= a -> a < 2 ^ 53 -> sub (of_Z a) (of_Z b) = of_Z (a - b).
Proof.
  intros Hab Ha. destruct (Z.eq_dec b 0) as [->|Hb0].
  { rewrite Z.sub_0_r. unfold sub. change (of_Z 0) with (S754_zero false).
    destruct (of_Z a) as [[]| | |]; reflexivity. }
  assert (0 < a < 2 ^ 53) as Ha' by lia. assert (0 < b < 2 ^ 53) as Hb' by lia.
  pose proof (log2_safe a Ha'). pose proof (log2_safe b Hb').
  assert (Z.log2 b <= Z.log2 a) as Hle by (apply Z.log2_le_mono; lia).
  rewrite (of_Z_pos a), (of_Z_pos b) by assumption.
  unfold sub, integer_float, SFsub, cond_Zopp.
  rewrite !align_integer_float by lia.
  replace (Z.min (Z.log2 a - 52) (Z.log2 b - 52)) with (Z.log2 b - 52) by lia.
  rewrite <- Z.mul_sub_distr_r.
  destruct (Z.eq_dec a b) as [->|Hne].
  - rewrite Z.sub_diag. reflexivity.
  - assert (0 < a - b < 2 ^ 53) as Hd by lia. pose proof (log2_safe _ Hd).
    assert (0 < (a - b) * 2 ^ (- (Z.log2 b - 52))) as Hpos
      by (apply Z.mul_pos_pos; [lia|apply Z.pow_pos_nonneg; lia]).
    destruct ((a - b) * 2 ^ (- (Z.log2 b - 52))) as [|m|m] eqn:Hm; try lia.
    simpl binary_normalize.
    rewrite (binary_round_exact false m (a - b) (- (Z.log2 b - 52))) by lia.
    rewrite (of_Z_pos (a - b)) by lia. unfold integer_float. f_equal. lia.
Qed.

Lemma of_Z_add (a b : Z) :
  0 <= a -> 0 <= b -> a + b < 2 ^ 53 -> add (of_Z a) (of_Z b) = of_Z (a + b).
Proof.
  intros Ha0 Hb0 Hab. destruct (Z.eq_dec b 0) as [->|Hb].
  { rewrite Z.add_0_r. unfold add. change (of_Z 0) with (S754_zero false).
    destruct (Z.eq_dec a 0) as [->|Ha]; [reflexivity|].
    rewrite of_Z_pos by lia. reflexivity. }
  destruct (Z.eq_dec a 0) as [->|Ha].
  { rewrite Z.add_0_l. unfold add. change (of_Z 0) with (S754_zero false).
    rewrite of_Z_pos by lia. reflexivity. }
  assert (0 < a < 2 ^ 53) as Ha' by lia. assert (0 < b < 2 ^ 53) as Hb' by lia.
  assert (0 < a + b < 2 ^ 53) as Hs by lia.
  pose proof (log2_safe a Ha'). pose proof (log2_safe b Hb').
  pose proof (log2_safe _ Hs).
  rewrite (of_Z_pos a), (of_Z_pos b) by assumption.
  unfold add, integer_float, SFadd, cond_Zopp.
  rewrite !align_integer_float by lia.
  set (ez := Z.min (Z.log2 a - 52) (Z.log2 b - 52)).
  rewrite <- Z.mul_add_distr_r.
  assert (0 < (a + b) * 2 ^ (- ez)) as Hpos
    by (apply Z.mul_pos_pos; [lia|apply Z.pow_pos_nonneg; lia]).
  destruct ((a + b) * 2 ^ (- ez)) as [|m|m] eqn:Hm; try lia.
  simpl binary_normalize.
  rewrite (binary_round_exact false m (a + b) (- ez)) by lia.
  rewrite (of_Z_pos (a + b)) by lia. unfold integer_float. f_equal. lia.
Qed.

Lemma of_Z_mul (a b : Z) :
  0 <= a < 2 ^ 53 -> 0 <= b < 2 ^ 53 -> a * b < 2 ^ 53 ->
  mul (of_Z a) (of_Z b) = of_Z (a * b).
Proof.
  intros Ha0 Hb0 Hab. destruct (Z.eq_dec b 0) as [->|Hb].
  { rewrite Z.mul_0_r. unfold mul. change (of_Z 0) with (S754_zero false).
    destruct (Z.eq_dec a 0) as [->|Ha]; [reflexivity|].
    rewrite of_Z_pos by lia. reflexivity. }
  destruct (Z.eq_dec a 0) as [->|Ha].
  { rewrite Z.mul_0_l. unfold mul. change (of_Z 0) with (S754_zero false).
    rewrite of_Z_pos by lia. reflexivity. }
  assert (0 < a < 2 ^ 53) as Ha' by lia. assert (0 < b < 2 ^ 53) as Hb' by lia.
  assert (0 < a * b < 2 ^ 53) as Hp by nia.
  pose proof (log2_safe a Ha'). pose proof (log2_safe b Hb').
  pose proof (log2_safe _ Hp).
  pose proof (Z.log2_mul_below a b ltac:(lia) ltac:(lia)) as Hbelow.
  rewrite (of_Z_pos a), (of_Z_pos b) by assumption.
  unfold mul, integer_float, SFmul.
  rewrite Pos2Z.inj_mul, !integer_float_mantissa by assumption.
  replace (a * 2 ^ (52 - Z.log2 a) * (b * 2 ^ (52 - Z.log2 b)))
    with (a * b * 2 ^ (104 - Z.log2 a - Z.log2 b)).
  - rewrite binary_round_aux_exact by lia.
    rewrite (of_Z_pos (a * b)) by lia. unfold integer_float. simpl xorb. f_equal. lia.
  - replace (104 - Z.log2 a - Z.log2 b) with ((52 - Z.log2 a) + (52 - Z.log2 b)) by lia.
    rewrite Z.pow_add_r by lia. ring.
Qed.


Lemma slice_integers {A} (l : list A) (o n : Z) :
  0 <= o -> 0 <= n -> o + n < 2 ^ 53 ->
  slice l (of_Z o) (of_Z (o + n)) = take (Z.to_nat n) (drop (Z.to_nat o) l).
Proof.
  intros Ho Hn Hon. unfold slice. rewrite !of_Z_integer by lia.
  unfold relative_index.
  destruct (Z.ltb_spec o 0); [lia|]. destruct (Z.ltb_spec (o + n) 0); [lia|].
  destruct (Z.le_gt_cases (Z.of_nat (length l)) o) as [Hout|Hin].
  - rewrite (drop_ge l (Z.to_nat o)) by lia.
    rewrite (drop_ge l (Z.to_nat (Z.min o (Z.of_nat (length l))))) by lia.
    now rewrite !take_nil.
  - replace (Z.min o (Z.of_nat (length l))) with o by lia.
    destruct (Z.le_gt_cases (o + n) (Z.of_nat (length l))) as [Hfits|Hover].
    + do 2 f_equal. lia.
    + rewrite !take_ge; [reflexivity| |]; rewrite length_drop; lia.
Qed.

(** X16 ([GET /products], pages): when the [page] and [limit] parameters
    of a list request with the API key parse as integers [p] and [l] (the
    defaults 1 and 10 stand for an absent or empty parameter), both are
    raised to 1 when they are below, and the response, 200, holds the
    products of the store from place [(p - 1) * l] on, [l] of them at most,
    in the order of the store, with the page and the limit used and the
    size of the whole store. The arithmetic of the handler on binary64
    numbers is exact here: the integers are below [2^53]. *)
Theorem list_pages (P : process) (E : environment) (stored : list user_record)
    (req : request) (st : store) (p l : Z) :
  header_x_api_key req = Some (APIKeyGenerator.apiKey (apiKeyGen P)) ->
  parseInt (query_or (query_page req) "1") = of_Z p ->
  parseInt (query_or (query_limit req) "10") = of_Z l ->
  - 2 ^ 53 < p < 2 ^ 53 -> - 2 ^ 53 < l < 2 ^ 53 ->
  Z.max 1 p * Z.max 1 l < 2 ^ 53 ->
  InMemory.serve P E products_list req st
  = (res_json 200
       (ok E req (Value (Arr (Obj <$> page_items (Z.max 1 p) (Z.max 1 l) st)))
          (Obj {[ "page" := Num (of_Z (Z.max 1 p)); "limit" := Num (of_Z (Z.max 1 l));
                  "total" := Num (of_Z (Z.of_nat (length st))) ]})),
     st)
  /\ Index.serve P E products_list req st = InMemory.serve P E products_list req st
  /\ Persisted.serve P E stored products_list req st
     = InMemory.serve P E products_list req st.
Proof.
  intros Hkey Hp Hl Hpb Hlb Hprod.
  assert (run_gates (gates P E products_list) req = next req) as Hpass
    by (apply key_routes_pass; simpl; auto).
  rewrite (InMemory_serve_pass _ _ _ _ _ _ Hpass), (Index_serve_pass _ _ _ _ _ _ Hpass),
    (Persisted_serve_pass _ _ _ _ _ _ _ Hpass).
  cbn [InMemory.handler_of Index.handler_of Persisted.handler_of].
  split; [|split; reflexivity].
  unfold get_products. unfold_M. cbn [answer]. rewrite Hp, Hl, !of_Z_max by assumption.
  set (p' := Z.max 1 p) in *. set (l' := Z.max 1 l) in *.
  assert (1 <= p') as Hp1 by lia. assert (1 <= l') as Hl1 by lia.
  rewrite of_Z_sub by nia. rewrite of_Z_mul by nia. rewrite of_Z_add by nia.
  rewrite slice_integers by nia. reflexivity.
Qed.

Lemma list_pages_witness :
  InMemory.serve demo_process demo_environment products_list (list_request None None)
    demo_store
  = (res_json 200
       (ok demo_environment (list_request None None)
          (Value (Arr (Obj <$> page_items (Z.max 1 1) (Z.max 1 10) demo_store)))
          (Obj {[ "page" := Num (of_Z (Z.max 1 1)); "limit" := Num (of_Z (Z.max 1 10));
                  "total" := Num (of_Z (Z.of_nat (length demo_store))) ]})),
     demo_store).
Proof.
  refine (proj1 (list_pages demo_process demo_environment users (list_request None None)
                   demo_store 1 10 eq_refl _ _ _ _ _)).
  - vm_compute. reflexivity.
  - vm_compute. reflexivity.
  - split; reflexivity.
  - split; reflexivity.
  - reflexivity.
Defined.


(** ** The revisions compared *)

Lemma route_ext (gates : list middleware) (h1 h2 : handler) (on_error : error_handler)
    (req : request) (st : store) :
  (forall req', h1 req' st = h2 req' st) ->
  route gates h1 on_error req st = route gates h2 on_error req st.
Proof.
  intros Hh. revert req. induction gates as [|g gates IH]; intros req; simpl.
  - now rewrite Hh.
  - destruct (g req); [apply IH|reflexivity].
Qed.

Lemma creation_ext (E : environment)
    (f1 f2 : response -> store -> completion response * store)
    (req : request) (st : store) :
  (forall res st', f1 res st' = f2 res st') ->
  creation E f1 req st = creation E f2 req st.
Proof.
  intros Hf. unfold creation, created.
  destruct (validateProduct _) as [errors|e]; [|reflexivity].
  destruct (is_nil errors); [|reflexivity].
  destruct (some_sku st _); [reflexivity|].
  destruct (ToNumber (field _ "price")); [|reflexivity].
  destruct (ToNumber (field _ "stock")); [apply Hf|reflexivity].
Qed.

Lemma update_ext (E : environment)
    (store_as : object -> object -> number -> number -> object)
    (f1 f2 : response -> store -> completion response * store)
    (req : request) (st : store) :
  (forall res st', f1 res st' = f2 res st') ->
  update E store_as f1 req st = update E store_as f2 req st.
Proof.
  intros Hf. unfold update, update_of.
  destruct (index_of_id st req); [|reflexivity].
  destruct (validateProduct _) as [errors|e]; [|reflexivity].
  destruct (is_nil errors); [|reflexivity].
  destruct (sku_taken _ _ _); [reflexivity|].
  destruct (ToNumber (field _ "price")); [|reflexivity].
  destruct (ToNumber (field _ "stock")); [apply Hf|reflexivity].
Qed.

Lemma deletion_ext (E : environment)
    (f1 f2 : response -> store -> completion response * store)
    (req : request) (st : store) :
  (forall res st', f1 res st' = f2 res st') ->
  deletion E f1 req st = deletion E f2 req st.
Proof.
  intros Hf. unfold deletion. destruct (index_of_id st req); [apply Hf|reflexivity].
Qed.

(** X17 (the persisted revision against the in-memory one): as long as
    the products file can be written, the persisted revision answers
    every request on every route but login as the in-memory revision
    does, and leaves the same store. On the login route it does so when
    the users file holds the two demo users and the body carries a truthy
    [username], [password] and [secret]: the secret is required, and
    compared with nothing. *)
Theorem persisted_agrees_with_in_memory (P : process) (E : environment)
    (stored : list user_record) (ep : endpoint) (req : request) (st : store) :
  write_error E = None ->
  (ep <> auth_login ->
     Persisted.serve P E stored ep req st = InMemory.serve P E ep req st)
  /\ (ToBoolean (field (own_props (or_else (body req) (Obj ∅))) "username") = true ->
      ToBoolean (field (own_props (or_else (body req) (Obj ∅))) "password") = true ->
      ToBoolean (field (own_props (or_else (body req) (Obj ∅))) "secret") = true ->
      Persisted.serve P E users auth_login req st = InMemory.serve P E auth_login req st).
Proof.
  intros Hdisk. split.
  - intros Hep. unfold Persisted.serve, InMemory.serve. apply route_ext. intros req'.
    destruct ep; try reflexivity; try congruence;
      cbn [InMemory.handler_of Persisted.handler_of].
    + rewrite Persisted_post_products_eq, post_products_eq.
      apply creation_ext. intros res st'. now apply persist_working.
    + rewrite Persisted_put_product_eq, InMemory_put_product_eq.
      apply update_ext. intros res st'. now apply persist_working.
    + rewrite Persisted_delete_product_eq, InMemory_delete_product_eq.
      apply deletion_ext. intros res st'. now apply persist_working.
  - intros Huser Hpassword Hsecret. unfold Persisted.serve, InMemory.serve.
    destruct (gates_outcome P E auth_login req)
      as [(req' & Hpass)|(m & c & req1 & _ & _ & Hrun)]; [|now rewrite !Hrun].
    rewrite !(route_pass _ _ _ _ _ _ Hpass).
    assert (req' = req) as -> by
      (simpl in Hpass; destruct (requireApiKey P req) eqn:Hk; [|discriminate];
       apply requireApiKey_next in Hk as [-> _]; congruence).
    cbn [InMemory.handler_of Persisted.handler_of].
    unfold post_auth_login, Persisted.post_auth_login. unfold_M.
    rewrite !(Get_truthy _ _ (or_else_object_truthy (body req))).
    rewrite Huser, Hpassword, Hsecret. reflexivity.
Qed.

Lemma persisted_agrees_with_in_memory_witness :
  Persisted.serve demo_process demo_environment users products_create (as_bob mouse "")
    demo_store
  = InMemory.serve demo_process demo_environment products_create (as_bob mouse "")
      demo_store.
Proof.
  refine (proj1 (persisted_agrees_with_in_memory demo_process demo_environment users
                   products_create (as_bob mouse "") demo_store eq_refl) _).
  discriminate.
Defined.

(** ** Requests without a body *)

Lemma validateProduct_empty : validateProduct (Obj ∅) = Normal all_missing.
Proof. vm_compute. reflexivity. Qed.

(** X18 ([POST /products] without a body): a create request that passes
    the gates and reaches the handler with nothing parsed as its body,
    [req.body] being [undefined] or the empty object, is validated as the
    empty object: it is answered 422 with the five fields [name], [sku],
    [price], [stock] and [category] reported, in this order, and the store
    is left as it is, in the three revisions. *)
Theorem create_without_body (P : process) (E : environment)
    (stored : list user_record) (req req' : request) (st : store) :
  run_gates (gates P E products_create) req = next req' ->
  body req = Undefined \/ body req = Obj ∅ ->
  InMemory.serve P E products_create req st = (invalid_data E req all_missing, st)
  /\ Index.serve P E products_create req st = (invalid_data E req all_missing, st)
  /\ Persisted.serve P E stored products_create req st
     = (invalid_data E req all_missing, st).
Proof.
  intros Hpass Hbody.
  rewrite (InMemory_serve_pass _ _ _ _ _ _ Hpass), (Index_serve_pass _ _ _ _ _ _ Hpass),
    (Persisted_serve_pass _ _ _ _ _ _ _ Hpass).
  cbn [InMemory.handler_of Index.handler_of Persisted.handler_of].
  rewrite post_products_eq, Persisted_post_products_eq. unfold creation.
  assert (or_else (body req) (Obj ∅) = Obj ∅) as ->
    by (destruct Hbody as [-> | ->]; reflexivity).
  rewrite validateProduct_empty. auto.
Qed.

Lemma create_without_body_witness :
  InMemory.serve demo_process demo_environment products_create (as_bob Undefined "")
    demo_store
  = (invalid_data demo_environment (as_bob Undefined "") all_missing, demo_store).
Proof.
  refine (proj1 (create_without_body demo_process demo_environment users
                   (as_bob Undefined "")
                   (set_user (as_bob Undefined "") (jwt.payload bob_token))
                   demo_store eq_refl (or_introl eq_refl))).
Defined.

(** ** Who sends a request does not matter once it is let in *)

Lemma handler_same_content (P : process) (E : environment) (ep : endpoint)
    (r1 r2 : request) (st : store) :
  same_content r1 r2 ->
  InMemory.handler_of P E ep r1 st = InMemory.handler_of P E ep r2 st.
Proof.
  destruct r1 as [k1 a1 b1 i1 p1 l1 u1 c1], r2 as [k2 a2 b2 i2 p2 l2 u2 c2].
  intros (Hb & Hi & Hp & Hl & Hu). simpl in *. subst.
  destruct ep; reflexivity.
Qed.

(** X19 (no handler looks at the sender): in the in-memory revision two
    requests that both pass the gates of a route and have the same body,
    path parameter, query and path are answered alike and leave the same
    store, whatever their headers and the user of their tokens: products
    belong to no user. *)
Theorem answer_independent_of_sender (P : process) (E : environment) (ep : endpoint)
    (r1 r2 r1' r2' : request) (st : store) :
  run_gates (gates P E ep) r1 = next r1' ->
  run_gates (gates P E ep) r2 = next r2' ->
  same_content r1 r2 ->
  InMemory.serve P E ep r1 st = InMemory.serve P E ep r2 st.
Proof.
  intros H1 H2 Hsame.
  rewrite (InMemory_serve_pass _ _ _ _ _ _ H1), (InMemory_serve_pass _ _ _ _ _ _ H2).
  rewrite (handler_same_content P E ep r1 r2 st Hsame).
  destruct (InMemory.handler_of P E ep r2 st) as [[res|e] st']; [reflexivity|].
  simpl. unfold InMemory.error_middleware, fail.
  destruct Hsame as (_ & _ & _ & _ & ->). reflexivity.
Qed.

Lemma answer_independent_of_sender_witness :
  InMemory.serve demo_process demo_environment products_update
    (as_bob null_stock_payload "p-1") demo_store
  = InMemory.serve demo_process demo_environment products_update
      (as_alice null_stock_payload "p-1") demo_store.
Proof.
  apply (answer_independent_of_sender demo_process demo_environment products_update
           (as_bob null_stock_payload "p-1") (as_alice null_stock_payload "p-1")
           (set_user (as_bob null_stock_payload "p-1") (jwt.payload bob_token))
           (set_user (as_alice null_stock_payload "p-1") (jwt.payload alice_token))).
  - reflexivity.
  - reflexivity.
  - repeat split.
Defined.


(** X20 ([PUT /products/:id] in [index.js]): there the merged object
    itself is stored, so that after a successful update the product holds
    every key of the payload with the value of the payload, [price] and
    [stock] apart: an [id] in the payload replaces the identifier of the
    product, and a key that is no field of a product is stored with it. *)
Theorem index_update_stores_payload (P : process) (E : environment)
    (req req' : request) (st : store) (res : response) (st' : store) :
  run_gates (gates P E products_update) req = next req' ->
  Index.serve P E products_update req st = (res, st') ->
  status res = 200 ->
  exists idx old new,
    st !! idx = Some old
    /\ strict_equals (field old "id") (Str (params_id req)) = true
    /\ st' = <[idx := new]> st
    /\ forall k v, own_props (body req) !! k = Some v -> k <> "price" -> k <> "stock" ->
         new !! k = Some v.
Proof.
  intros Hpass. rewrite (Index_serve_pass _ _ _ _ _ _ Hpass). simpl.
  rewrite Index_put_product_eq. intros Hrun Hok.
  destruct (update_succeeds E (Index.error_middleware E) _ _ _ _ _
              (fun _ _ => eq_refl) Hrun Hok)
    as (idx & old & p & s & Hold & Hid & _ & -> & _).
  exists idx, old, (merged_product old (spread old (own_props (body req))) p s).
  split_and!; try assumption; try reflexivity.
  intros k v Hk Hp Hs. unfold merged_product, spread.
  rewrite !lookup_insert_ne by congruence. now apply lookup_union_Some_l.
Qed.

Lemma index_update_stores_payload_witness :
  exists idx old new,
    demo_store !! idx = Some old
    /\ snd (Index.serve demo_process demo_environment products_update
              (as_bob (Obj {[ "id" := Str "mine" ]}) "p-1") demo_store)
       = <[idx := new]> demo_store
    /\ new !! "id" = Some (Str "mine").
Proof.
  destruct (index_update_stores_payload demo_process demo_environment
              (as_bob (Obj {[ "id" := Str "mine" ]}) "p-1")
              (set_user (as_bob (Obj {[ "id" := Str "mine" ]}) "p-1")
                 (jwt.payload bob_token))
              demo_store
              (fst (Index.serve demo_process demo_environment products_update
                      (as_bob (Obj {[ "id" := Str "mine" ]}) "p-1") demo_store))
              (snd (Index.serve demo_process demo_environment products_update
                      (as_bob (Obj {[ "id" := Str "mine" ]}) "p-1") demo_store)))
    as (idx & old & new & Hold & _ & Hst & Hkeys).
  - reflexivity.
  - apply surjective_pairing.
  - vm_compute. reflexivity.
  - exists idx, old, new. split; [exact Hold|]. split; [exact Hst|].
    apply Hkeys; [reflexivity|discriminate|discriminate].
Defined.


(** ** Identifiers stay unique *)

Lemma route_store (gates : list middleware) (h : handler) (on_error : error_handler)
    (req : request) (st : store) :
  snd (route gates h on_error req st) = st
  \/ exists req', snd (route gates h on_error req st) = snd (h req' st).
Proof.
  revert req. induction gates as [|g gates IH]; intros req; simpl.
  - right. exists req. destruct (h req st) as [[res|e] st']; reflexivity.
  - destruct (g req) as [req'|e]; [apply IH|left; reflexivity].
Qed.

Lemma InMemory_store_step (P : process) (E : environment) (ep : endpoint)
    (req : request) (st : store) :
  store_step E st (snd (InMemory.serve P E ep req st)).
Proof.
  unfold InMemory.serve.
  destruct (route_store (gates P E ep) (InMemory.handler_of P E ep)
              (InMemory.error_middleware E) req st) as [->|[req' ->]];
    [apply step_none|].
  clear req. rename req' into req. destruct ep; cbn [InMemory.handler_of].
  - apply step_none.
  - rewrite post_auth_login_store. apply step_none.
  - apply step_none.
  - rewrite get_product_store. apply step_none.
  - rewrite post_products_eq. unfold creation.
    destruct (validateProduct _) as [errors|e]; [|apply step_none].
    destruct (is_nil errors); [|apply step_none].
    unfold created. destruct (some_sku st _); [apply step_none|].
    destruct (ToNumber (field _ "price")); [|apply step_none].
    destruct (ToNumber (field _ "stock")); [|apply step_none].
    apply step_append, has_id_new_entity.
  - rewrite InMemory_put_product_eq. unfold update.
    destruct (index_of_id st req) as [idx|] eqn:Hidx; [|apply step_none].
    apply findIndex_Some in Hidx as (old & Hold & _).
    unfold update_of. rewrite Hold. simpl.
    destruct (validateProduct _) as [errors|e]; [|apply step_none].
    destruct (is_nil errors); [|apply step_none].
    destruct (sku_taken _ _ _); [apply step_none|].
    destruct (ToNumber (field _ "price")); [|apply step_none].
    destruct (ToNumber (field _ "stock")); [|apply step_none].
    apply (step_replace E st idx old); [exact Hold|].
    unfold updated_product. rewrite field_spread. reflexivity.
  - rewrite InMemory_delete_product_eq. unfold deletion.
    destruct (index_of_id st req); [apply step_remove|apply step_none].
Qed.

Lemma count_id_app (id : string) (l1 l2 : store) :
  length (filter (fun p => has_id id p = true) (l1 ++ l2))
  = (length (filter (fun p => has_id id p = true) l1)
     + length (filter (fun p => has_id id p = true) l2))%nat.
Proof. now rewrite filter_app, length_app. Qed.

Lemma count_id_cons (id : string) (p : object) (l : store) :
  length (filter (fun p => has_id id p = true) (p :: l))
  = ((if has_id id p then 1 else 0)
     + length (filter (fun p => has_id id p = true) l))%nat.
Proof.
  destruct (has_id id p) eqn:Hp.
  - now rewrite filter_cons_True by exact Hp.
  - now rewrite filter_cons_False by (rewrite Hp; discriminate).
Qed.

Lemma has_id_eq (id id' : string) (p : object) :
  has_id id p = true -> has_id id' p = true -> id = id'.
Proof.
  unfold has_id. intros H1 H2. rewrite strict_equals_sym in H1, H2.
  apply strict_equals_Str in H1, H2. congruence.
Qed.

Lemma store_step_ids_unique (E : environment) (st st' : store) :
  store_step E st st' -> ids_unique st -> fresh_id (uuid E) st = true ->
  ids_unique st'.
Proof.
  intros Hstep Huniq Hfresh id. specialize (Huniq id).
  unfold at_most_one in *. apply Nat.leb_le in Huniq. apply Nat.leb_le.
  destruct Hstep as [|entity Hid|idx old new Hold Hid|idx].
  - exact Huniq.
  - rewrite count_id_app, count_id_cons. simpl.
    destruct (has_id id entity) eqn:He; [|lia].
    rewrite (has_id_eq _ _ _ He Hid), (proj1 (fresh_id_filter _ _) Hfresh). simpl. lia.
  - rewrite <- (take_drop_middle _ _ _ Hold) in Huniq.
    rewrite insert_take_drop by (eapply lookup_lt_Some; eauto).
    rewrite count_id_app, count_id_cons in Huniq |- *.
    unfold has_id in *. rewrite Hid. exact Huniq.
  - destruct (st !! idx) as [old|] eqn:Hold.
    + rewrite <- (take_drop_middle _ _ _ Hold) in Huniq.
      rewrite delete_take_drop. rewrite count_id_app, count_id_cons in Huniq.
      rewrite count_id_app. lia.
    + rewrite delete_take_drop, take_ge, drop_ge, app_nil_r
        by (apply lookup_ge_None in Hold; lia).
      exact Huniq.
Qed.

(** X21 (identifiers in the in-memory revision): if every identifier is
    the identifier of at most one product of the store, and the
    identifier drawn for the request is the identifier of no product, then
    after the request, whatever its route and its outcome, every
    identifier is again the identifier of at most one product: a create
    appends a product with the identifier drawn, an update keeps the
    identifier of the product it replaces, a delete only removes. *)
Theorem ids_stay_unique (P : process) (E : environment) (ep : endpoint)
    (req : request) (st : store) :
  ids_unique st -> fresh_id (uuid E) st = true ->
  ids_unique (snd (InMemory.serve P E ep req st)).
Proof.
  intros Huniq Hfresh.
  exact (store_step_ids_unique E st _ (InMemory_store_step P E ep req st) Huniq Hfresh).
Qed.

Lemma ids_unique_singleton (p : object) : ids_unique [p].
Proof.
  intros id. unfold at_most_one. rewrite count_id_cons. simpl.
  destruct (has_id id p); reflexivity.
Qed.

Lemma ids_stay_unique_witness :
  ids_unique (snd (InMemory.serve demo_process demo_environment products_create
                     (as_bob mouse "") demo_store)).
Proof.
  apply (ids_stay_unique demo_process demo_environment products_create
           (as_bob mouse "") demo_store).
  - apply ids_unique_singleton.
  - reflexivity.
Defined.


(** ** Values that do not convert to a number *)

Lemma ToNumber_Normal (v : value) :
  to_primitive_throws v = false -> ToNumber v = Normal (number_of v).
Proof. unfold ToNumber. intros ->. reflexivity. Qed.

Lemma creation_status_500 (E : environment) (on_error : error_handler)
    (req : request) (st : store) :
  (forall name m, status (on_error (Error name m) req) = 500) ->
  status (fst (answer on_error req (creation E send req st))) = 500
  <-> to_primitive_throws (field (own_props (or_else (body req) (Obj ∅))) "price")
      || to_primitive_throws (field (own_props (or_else (body req) (Obj ∅))) "stock")
      = true.
Proof.
  intros Herr. unfold creation.
  rewrite (validateProduct_truthy _ (or_else_object_truthy (body req))).
  set (o := own_props (or_else (body req) (Obj ∅))).
  unfold created. fold o. unfold ToNumber, TypeError.
  destruct (to_primitive_throws (field o "price")); simpl.
  - rewrite Herr. tauto.
  - destruct (to_primitive_throws (field o "stock")); simpl.
    + rewrite Herr. tauto.
    + destruct (is_nil _); simpl; [|split; discriminate].
      destruct (some_sku st _); simpl; split; discriminate.
Qed.

(** X22 ([POST /products], the uncaught fault): once the gates have
    passed, a create request is answered 500 in [index.js] and in the
    in-memory revision exactly when the price or the stock of its body
    does not convert to a primitive value, that is, when it is an object
    with a [toString] property of its own or an array that holds one:
    [Number] then throws inside [validateProduct], before any field is
    reported. *)
Theorem create_internal_error_iff (P : process) (E : environment)
    (req req' : request) (st : store) :
  run_gates (gates P E products_create) req = next req' ->
  (status (fst (InMemory.serve P E products_create req st)) = 500
   <-> to_primitive_throws (field (own_props (or_else (body req) (Obj ∅))) "price")
       || to_primitive_throws (field (own_props (or_else (body req) (Obj ∅))) "stock")
       = true)
  /\ (status (fst (Index.serve P E products_create req st)) = 500
      <-> to_primitive_throws (field (own_props (or_else (body req) (Obj ∅))) "price")
          || to_primitive_throws (field (own_props (or_else (body req) (Obj ∅))) "stock")
          = true).
Proof.
  intros Hpass.
  rewrite (InMemory_serve_pass _ _ _ _ _ _ Hpass), (Index_serve_pass _ _ _ _ _ _ Hpass).
  cbn [InMemory.handler_of Index.handler_of]. rewrite post_products_eq.
  split; apply creation_status_500; reflexivity.
Qed.

Lemma create_internal_error_iff_witness :
  status (fst (InMemory.serve demo_process demo_environment products_create
                 (as_bob unconvertible_price "") demo_store)) = 500.
Proof.
  apply (proj1 (create_internal_error_iff demo_process demo_environment
                  (as_bob unconvertible_price "")
                  (set_user (as_bob unconvertible_price "") (jwt.payload bob_token))
                  demo_store eq_refl)).
  vm_compute. reflexivity.
Defined.
